(** * Gemini agent: tool executor, permission gate, compaction and agentic loop

    A shallow embedding of
    - [src/agent/tools.ts]   (the tool executor),
    - [src/storage/settings.ts], [src/storage/history.ts] (the two stores),
    - [src/agent/index.ts]   (retry wrapper, compaction, agentic loop),
    - [src/types.ts]         (records and constants),
    followed by the properties of the design document that concern them;
    then the rest of the two stores, the session start and the permission
    prompt of the shell ([src/index.ts]) and the two functions of the example
    project, with further properties of the code.

    Conventions.
    - A JavaScript string is a [string]; one [ascii] stands for one code unit,
      so [String.length] is the [.length] of the source.
    - JavaScript numbers are restricted to [NaN] and the integers.
    - The platform ([path], [fs], [child_process], [String.prototype.*],
      [JSON.stringify]) is modelled for POSIX, as far as the code relies on it.
    - The model boundary, the user's permission prompt and the shell are
      oracles of the environment.
    - Console output and the optional [onToolCall] callback only report; they
      are left out. [onContextLog] is kept as an event, since it carries the
      hop number. *)

From Stdlib Require Import ZArith Lia Ascii.
From stdpp Require Import base option list strings gmap pretty.

Set Warnings "-register-all".
Open Scope Z_scope.
Open Scope nat_scope.

(** ** JavaScript strings *)

Module Str.

Definition nl : string := String "010"%char "".
Definition dquote : ascii := Ascii.ascii_of_nat 34.

(** [s.startsWith(p)] *)
Fixpoint startsWith (p s : string) : bool :=
  match p, s with
  | EmptyString, _ => true
  | String _ _, EmptyString => false
  | String a p', String b s' => if Ascii.eqb a b then startsWith p' s' else false
  end.

(** the characters of [s] from index [n] on *)
Fixpoint drop (n : nat) (s : string) : string :=
  match n, s with
  | O, _ => s
  | S _, EmptyString => EmptyString
  | S n', String _ s' => drop n' s'
  end.

(** [s.slice(0, n)] for [n >= 0] *)
Fixpoint take (n : nat) (s : string) : string :=
  match n, s with
  | O, _ => EmptyString
  | S _, EmptyString => EmptyString
  | S n', String c s' => String c (take n' s')
  end.

(** The text before and after the first occurrence of [pat] in [s]
    ([s.indexOf(pat)], as the two pieces it delimits). *)
Fixpoint cut (pat s : string) {struct s} : option (string * string) :=
  if startsWith pat s then Some (EmptyString, drop (String.length pat) s)
  else match s with
       | EmptyString => None
       | String c s' =>
           match cut pat s' with
           | Some (before, after) => Some (String c before, after)
           | None => None
           end
       end.

(** [s.includes(pat)] *)
Definition includes (pat s : string) : bool :=
  match cut pat s with Some _ => true | None => false end.

(** [s.split(sep)] for a one-character separator *)
Fixpoint split (sep : ascii) (s : string) : list string :=
  match s with
  | EmptyString => [EmptyString]
  | String c s' =>
      if Ascii.eqb c sep then EmptyString :: split sep s'
      else match split sep s' with
           | [] => [String c EmptyString]
           | h :: t => String c h :: t
           end
  end.

(** [l.join(sep)] *)
Fixpoint join (sep : string) (l : list string) : string :=
  match l with
  | [] => EmptyString
  | [x] => x
  | x :: rest => x +:+ sep +:+ join sep rest
  end.

(** [GetSubstitution] of ECMAScript for a string pattern (no capture groups,
    no named groups): in the replacement text [$$] is a dollar sign, [$&] the
    matched text, [$`] the text before the match and [$'] the text after
    it; every other character, a lone [$] included, is literal. *)
Fixpoint getSubstitution (matched before after replacement : string) : string :=
  match replacement with
  | EmptyString => EmptyString
  | String c rest =>
      if Ascii.eqb c "$"%char then
        match rest with
        | String d rest' =>
            if Ascii.eqb d "$"%char then
              String "$"%char (getSubstitution matched before after rest')
            else if Ascii.eqb d "&"%char then
              matched +:+ getSubstitution matched before after rest'
            else if Ascii.eqb d "`"%char then
              before +:+ getSubstitution matched before after rest'
            else if Ascii.eqb d "'"%char then
              after +:+ getSubstitution matched before after rest'
            else String c (getSubstitution matched before after rest)
        | EmptyString => String c EmptyString
        end
      else String c (getSubstitution matched before after rest)
  end.

(** [s.replace(pat, replacement)] with a string pattern: the first occurrence
    only, the replacement text expanded by [getSubstitution]. *)
Definition replace (pat replacement s : string) : string :=
  match cut pat s with
  | None => s
  | Some (before, after) =>
      before +:+ getSubstitution pat before after replacement +:+ after
  end.

(** [lines.slice(start, end)] on an array, with JavaScript's relative
    indices: a negative index counts from the end, and both are clamped. *)
Definition clampIndex (len : nat) (i : Z) : nat :=
  if (i <? 0)%Z then Z.to_nat (Z.max (Z.of_nat len + i) 0)
  else Nat.min (Z.to_nat i) len.

Definition slice {A} (l : list A) (start stop : Z) : list A :=
  let a := clampIndex (length l) start in
  let b := clampIndex (length l) stop in
  List.firstn (b - a) (List.skipn a l).

(** [l.slice(start)] *)
Definition sliceFrom {A} (l : list A) (start : Z) : list A :=
  List.skipn (clampIndex (length l) start) l.

End Str.

(** ** JavaScript values *)

Inductive JsNumber := NaN | Int (z : Z).

(** The values an argument of a function call can take: the declared
    parameter kinds (string, number, boolean), [null], and [undefined] for a
    missing property. *)
Inductive JsValue :=
| JUndefined
| JNull
| JBool (b : bool)
| JNumber (n : JsNumber)
| JString (s : string).

(** [Record<string, unknown>]: an object literal, its properties in insertion
    order. *)
Definition JsObject := list (string * JsValue).

Module Js.

(** [obj[key]]; a missing property reads as [undefined] *)
Fixpoint prop (obj : JsObject) (key : string) : JsValue :=
  match obj with
  | [] => JUndefined
  | (k, v) :: rest => if String.eqb k key then v else prop rest key
  end.

Definition numberToString (n : JsNumber) : string :=
  match n with
  | NaN => "NaN"
  | Int z => pretty z
  end.

(** [String(v)], also what a template literal does to [v] *)
Definition ToString (v : JsValue) : string :=
  match v with
  | JUndefined => "undefined"
  | JNull => "null"
  | JBool true => "true"
  | JBool false => "false"
  | JNumber n => numberToString n
  | JString s => s
  end.

Definition trimStart (s : string) : string :=
  (fix go (s : string) : string :=
     match s with
     | String c s' => if Ascii.is_space c then go s' else s
     | EmptyString => EmptyString
     end) s.

(** the decimal digits of [s] as a number, most significant first; [None]
    as soon as something other than digits and trailing blanks is met *)
Fixpoint digits (acc : Z) (seen : bool) (s : string) : option Z :=
  match s with
  | EmptyString => if seen then Some acc else None
  | String c s' =>
      match Ascii.is_nat c with
      | Some d => digits (10 * acc + Z.of_nat d)%Z true s'
      | None =>
          if seen && String.eqb (trimStart s) EmptyString then Some acc else None
      end
  end.

(** [Number(s)] on a string: blank text is [0], an optionally signed
    decimal integer is its value. The other numeric literals of JavaScript
    (fractions, exponents, hexadecimal, [Infinity]) denote numbers outside
    [JsNumber] and read as [NaN] here. *)
Definition StringToNumber (s : string) : JsNumber :=
  match trimStart s with
  | EmptyString => Int 0
  | String c rest =>
      if Ascii.eqb c "-"%char then
        match digits 0 false rest with Some z => Int (- z) | None => NaN end
      else if Ascii.eqb c "+"%char then
        match digits 0 false rest with Some z => Int z | None => NaN end
      else
        match digits 0 false (String c rest) with Some z => Int z | None => NaN end
  end.

(** [Number(v)] *)
Definition ToNumber (v : JsValue) : JsNumber :=
  match v with
  | JUndefined => NaN
  | JNull => Int 0
  | JBool true => Int 1
  | JBool false => Int 0
  | JNumber n => n
  | JString s => StringToNumber s
  end.

Definition numberTruthy (n : JsNumber) : bool :=
  match n with
  | NaN => false
  | Int z => negb (z =? 0)%Z
  end.

Definition stringTruthy (s : string) : bool :=
  match s with EmptyString => false | _ => true end.

(** [Boolean(v)], the truthiness of [v] *)
Definition ToBoolean (v : JsValue) : bool :=
  match v with
  | JUndefined | JNull => false
  | JBool b => b
  | JNumber n => numberTruthy n
  | JString s => stringTruthy s
  end.

(** [n || d] on numbers *)
Definition numberOr (n : JsNumber) (d : Z) : Z :=
  match n with
  | NaN => d
  | Int z => if (z =? 0)%Z then d else z
  end.

(** [s || d] on strings *)
Definition stringOr (s d : string) : string :=
  if stringTruthy s then s else d.

End Js.

(** ** Exceptions

    What a [throw] carries, as far as the code looks at it: the message
    ([error?.message]), [error?.status] and [error?.error?.code]. *)

Record Exn := mkExn {
  exn_message : string;
  exn_status : option Z;
  exn_error_code : option Z
}.

(** [new Error(message)] *)
Definition Error (message : string) : Exn :=
  {| exn_message := message; exn_status := None; exn_error_code := None |}.

(** [String(err)] for an [Error] *)
Definition errorToString (e : Exn) : string :=
  match exn_message e with
  | EmptyString => "Error"
  | m => "Error: " +:+ m
  end.

(** ** Paths (module [path], POSIX)

    An absolute, normalised path is the list of its segments: [/a/b] is
    [["a"; "b"]] and [/] is [[]]. *)

Definition AbsPath := list string.

Module Path.

(** Walks over the segments of a path text: empty segments and [.] are
    skipped, [..] drops the last segment kept so far (and stays at [/]).
    [acc] holds the segments kept, last one first. *)
Fixpoint normalize (acc : list string) (segs : list string) : AbsPath :=
  match segs with
  | [] => rev acc
  | s :: rest =>
      if String.eqb s "" || String.eqb s "." then normalize acc rest
      else if String.eqb s ".." then normalize (tail acc) rest
      else normalize (s :: acc) rest
  end.

Definition isAbsolute (p : string) : bool := Str.startsWith "/" p.

(** [path.resolve(base, p)] for an absolute [base] *)
Definition resolve (base : AbsPath) (p : string) : AbsPath :=
  if isAbsolute p then normalize [] (Str.split "/"%char p)
  else normalize (rev base) (Str.split "/"%char p).

Fixpoint stripCommon (from to : AbsPath) : AbsPath * AbsPath :=
  match from, to with
  | x :: from', y :: to' =>
      if String.eqb x y then stripCommon from' to' else (from, to)
  | _, _ => (from, to)
  end.

(** [path.relative(from, to)]: one [..] for every segment of [from] below
    the common ancestor, then the segments of [to] below it. *)
Definition relative (from to : AbsPath) : string :=
  let '(up, down) := stripCommon from to in
  Str.join "/" (replicate (length up) ".." ++ down).

(** [path.dirname(p)] *)
Definition dirname (p : AbsPath) : AbsPath := removelast p.

(** the text of an absolute path *)
Definition render (p : AbsPath) : string := "/" +:+ Str.join "/" p.

End Path.

(** ** The file system (module [fs])

    Regular files and directories; a directory lists its entries in the
    order [readdirSync] reports them. Symbolic links and access rights are
    not represented. *)

Inductive Node :=
| File (content : string)
| Dir (entries : list (string * Node)).

Module Fs.

Fixpoint assoc (name : string) (es : list (string * Node)) : option Node :=
  match es with
  | [] => None
  | (k, n) :: rest => if String.eqb k name then Some n else assoc name rest
  end.

Fixpoint setEntry (name : string) (n : Node) (es : list (string * Node))
  : list (string * Node) :=
  match es with
  | [] => [(name, n)]
  | (k, old) :: rest =>
      if String.eqb k name then (k, n) :: rest else (k, old) :: setEntry name n rest
  end.

Fixpoint lookup (p : AbsPath) (root : Node) : option Node :=
  match p with
  | [] => Some root
  | s :: p' =>
      match root with
      | File _ => None
      | Dir es => match assoc s es with
                  | Some child => lookup p' child
                  | None => None
                  end
      end
  end.

Definition ENOENT (p : AbsPath) : Exn :=
  Error ("ENOENT: no such file or directory, '" +:+ Path.render p +:+ "'").
Definition ENOTDIR (p : AbsPath) : Exn :=
  Error ("ENOTDIR: not a directory, '" +:+ Path.render p +:+ "'").
Definition EISDIR (p : AbsPath) : Exn :=
  Error ("EISDIR: illegal operation on a directory, '" +:+ Path.render p +:+ "'").
Definition EEXIST (p : AbsPath) : Exn :=
  Error ("EEXIST: file already exists, '" +:+ Path.render p +:+ "'").

(** the tree after [writeFileSync(full, content)], [p] being what is left
    of [full] below [root] *)
Fixpoint writeAt (full p : AbsPath) (content : string) (root : Node) : Exn + Node :=
  match p with
  | [] => match root with
          | File _ => inr (File content)
          | Dir _ => inl (EISDIR full)
          end
  | s :: p' =>
      match root with
      | File _ => inl (ENOTDIR full)
      | Dir es =>
          match assoc s es with
          | Some child =>
              match writeAt full p' content child with
              | inr child' => inr (Dir (setEntry s child' es))
              | inl e => inl e
              end
          | None =>
              match p' with
              | [] => inr (Dir (setEntry s (File content) es))
              | _ :: _ => inl (ENOENT full)
              end
          end
      end
  end.

(** the tree after [mkdirSync(full, { recursive: true })] *)
Fixpoint mkdirAt (full p : AbsPath) (root : Node) : Exn + Node :=
  match p with
  | [] => match root with
          | Dir _ => inr root
          | File _ => inl (EEXIST full)
          end
  | s :: p' =>
      match root with
      | File _ => inl (ENOTDIR full)
      | Dir es =>
          match mkdirAt full p' (default (Dir []) (assoc s es)) with
          | inr child' => inr (Dir (setEntry s child' es))
          | inl e => inl e
          end
      end
  end.

End Fs.

(** ** Computations over the file system

    A computation reads and changes the tree and either returns or throws;
    what it changed before throwing stays changed. *)

Definition Exec (A : Type) : Type := Node -> (Exn + A) * Node.

Definition ret {A} (a : A) : Exec A := fun fs => (inr a, fs).
Definition throw {A} (e : Exn) : Exec A := fun fs => (inl e, fs).
Definition bind {A B} (m : Exec A) (k : A -> Exec B) : Exec B :=
  fun fs => match m fs with
            | (inr a, fs') => k a fs'
            | (inl e, fs') => (inl e, fs')
            end.

Declare Scope exec_scope.
Delimit Scope exec_scope with exec.
Notation "'let*' x ':=' m 'in' k" := (bind m (fun x => k))
  (at level 10, x name, m at level 99, k at level 200) : exec_scope.
Notation "m ';;' k" := (bind m (fun _ => k))
  (at level 100, k at level 200, right associativity) : exec_scope.
Local Open Scope exec_scope.

(** [try { body } catch (err) { handler(err) }], for a body that returns in
    the [try] block *)
Definition tryCatch {A} (body : Exec A) (handler : Exn -> A) : Node -> A * Node :=
  fun fs => match body fs with
            | (inr a, fs') => (a, fs')
            | (inl e, fs') => (handler e, fs')
            end.

Module FsOps.

Definition existsSync (p : AbsPath) : Exec bool :=
  fun fs => (inr (bool_decide (is_Some (Fs.lookup p fs))), fs).

Definition readFileSync (p : AbsPath) : Exec string :=
  fun fs => match Fs.lookup p fs with
            | Some (File c) => (inr c, fs)
            | Some (Dir _) => (inl (Fs.EISDIR p), fs)
            | None => (inl (Fs.ENOENT p), fs)
            end.

Definition writeFileSync (p : AbsPath) (content : string) : Exec unit :=
  fun fs => match Fs.writeAt p p content fs with
            | inr fs' => (inr tt, fs')
            | inl e => (inl e, fs)
            end.

Definition mkdirSync (p : AbsPath) : Exec unit :=
  fun fs => match Fs.mkdirAt p p fs with
            | inr fs' => (inr tt, fs')
            | inl e => (inl e, fs)
            end.

(** [readdirSync(p, { withFileTypes: true })] *)
Definition readdirSync (p : AbsPath) : Exec (list (string * Node)) :=
  fun fs => match Fs.lookup p fs with
            | Some (Dir es) => (inr es, fs)
            | Some (File _) => (inl (Fs.ENOTDIR p), fs)
            | None => (inl (Fs.ENOENT p), fs)
            end.

End FsOps.

(** ** [src/types.ts] *)

Record ToolResult := mkToolResult {
  output : option string;
  error : option string
}.

(** [{ output: s }] and [{ error: s }] *)
Definition Output (s : string) : ToolResult := {| output := Some s; error := None |}.
Definition Err (s : string) : ToolResult := {| output := None; error := Some s |}.

Record PermissionResponse := mkPermissionResponse {
  granted : bool;
  alwaysAllow : bool
}.

Definition MAX_HOPS : nat := 25.
Definition COMMAND_TIMEOUT_MS : Z := 60000.
Definition API_TIMEOUT_MS : Z := 600000.
Definition MAX_CONTEXT_CHARS : Z := 100000.
Definition DEFAULT_MODEL : string := "gemini-3-flash-preview".

(** ** [src/agent/tools.ts] *)

Module TOOL_NAMES.
Definition READ_FILE : string := "read_file".
Definition WRITE_FILE : string := "write_file".
Definition HEAD_FILE : string := "head_file".
Definition TAIL_FILE : string := "tail_file".
Definition LIST_DIR : string := "list_dir".
Definition RUN_COMMAND : string := "run_command".
Definition EDIT_FILE : string := "edit_file".
End TOOL_NAMES.

(** [TOOL_PERMISSIONS[name]], on the properties the table itself declares *)
Definition TOOL_PERMISSIONS (name : string) : option string :=
  if String.eqb name TOOL_NAMES.READ_FILE then Some "read_file"
  else if String.eqb name TOOL_NAMES.WRITE_FILE then Some "write_file"
  else if String.eqb name TOOL_NAMES.HEAD_FILE then Some "read_file"
  else if String.eqb name TOOL_NAMES.TAIL_FILE then Some "read_file"
  else if String.eqb name TOOL_NAMES.LIST_DIR then Some "list_dir"
  else if String.eqb name TOOL_NAMES.RUN_COMMAND then Some "run_command"
  else if String.eqb name TOOL_NAMES.EDIT_FILE then Some "write_file"
  else None.

(** What [execSync] comes back with: the captured standard output, or the
    exception of a failed, killed or timed-out command with the [stdout],
    [stderr] and [message] it carries. *)
Inductive ExecOutcome :=
| ExecOk (stdout : string)
| ExecFail (stdout stderr message : option string).

(** The shell: what running a command in a working directory returns and
    does to the file system. *)
Definition Shell := string -> AbsPath -> Node -> ExecOutcome * Node.

Section ToolExecutor.

Variable shell : Shell.
(** [path.resolve(projectDir)] *)
Variable projectRoot : AbsPath.

Definition resolvePath (relativePath : string) : Exec AbsPath :=
  let resolved := Path.resolve projectRoot relativePath in
  let rel := Path.relative projectRoot resolved in
  if Str.startsWith ".." rel || Path.isAbsolute rel
  then throw (Error "Path traversal not allowed")
  else ret resolved.

Definition caught (err : Exn) : ToolResult := Err (errorToString err).

Definition readFile (args : JsObject) : Node -> ToolResult * Node :=
  tryCatch
    (let* filePath := resolvePath (Js.ToString (Js.prop args "path")) in
     let* found := FsOps.existsSync filePath in
     if negb found
     then ret (Err ("File not found: " +:+ Js.ToString (Js.prop args "path")))
     else
       let* content := FsOps.readFileSync filePath in
       ret (Output content))
    caught.

Definition writeFile (args : JsObject) : Node -> ToolResult * Node :=
  tryCatch
    (let* filePath := resolvePath (Js.ToString (Js.prop args "path")) in
     let content := Js.ToString (Js.prop args "content") in
     let dir := Path.dirname filePath in
     let* found := FsOps.existsSync dir in
     (if negb found then FsOps.mkdirSync dir else ret tt);;
     FsOps.writeFileSync filePath content;;
     ret (Output ("File written: " +:+ Js.ToString (Js.prop args "path"))))
    caught.

Definition headFile (args : JsObject) : Node -> ToolResult * Node :=
  tryCatch
    (let* filePath := resolvePath (Js.ToString (Js.prop args "path")) in
     let lines := Js.numberOr (Js.ToNumber (Js.prop args "lines")) 100 in
     let* found := FsOps.existsSync filePath in
     if negb found
     then ret (Err ("File not found: " +:+ Js.ToString (Js.prop args "path")))
     else
       let* content := FsOps.readFileSync filePath in
       let fileLines := Str.slice (Str.split "010"%char content) 0 lines in
       ret (Output (Str.join Str.nl fileLines)))
    caught.

Definition tailFile (args : JsObject) : Node -> ToolResult * Node :=
  tryCatch
    (let* filePath := resolvePath (Js.ToString (Js.prop args "path")) in
     let lines := Js.numberOr (Js.ToNumber (Js.prop args "lines")) 100 in
     let* found := FsOps.existsSync filePath in
     if negb found
     then ret (Err ("File not found: " +:+ Js.ToString (Js.prop args "path")))
     else
       let* content := FsOps.readFileSync filePath in
       let fileLines := Str.sliceFrom (Str.split "010"%char content) (- lines) in
       ret (Output (Str.join Str.nl fileLines)))
    caught.

(** [listRecursive(p, prefix)] for the directory node found at [p]: the
    loop over [readdirSync(p)], a subdirectory being listed from its own
    node (the tree stays the same throughout a listing). *)
Fixpoint listRecursive (recursive : bool) (dir : Node) (prefix : string)
  : list string :=
  match dir with
  | File _ => []
  | Dir entries =>
      (fix each (entries : list (string * Node)) : list string :=
         match entries with
         | [] => []
         | (name, entry) :: rest =>
             let displayPath := prefix +:+ name in
             match entry with
             | Dir _ =>
                 (displayPath +:+ "/")
                   :: (if recursive
                       then listRecursive recursive entry (displayPath +:+ "/")
                       else [])
                   ++ each rest
             | File _ => displayPath :: each rest
             end
         end) entries
  end.

Definition listDir (args : JsObject) : Node -> ToolResult * Node :=
  tryCatch
    (let* dirPath := resolvePath (Js.ToString (Js.prop args "path")) in
     let recursive := Js.ToBoolean (Js.prop args "recursive") in
     let* found := FsOps.existsSync dirPath in
     if negb found
     then ret (Err ("Directory not found: " +:+ Js.ToString (Js.prop args "path")))
     else
       let* entries := FsOps.readdirSync dirPath in
       let items := listRecursive recursive (Dir entries) "" in
       ret (Output (Js.stringOr (Str.join Str.nl items) "(empty directory)")))
    caught.

Definition orEmpty (s : option string) : string := default "" s.

Definition runCommand (args : JsObject) : Node -> ToolResult * Node :=
  fun fs =>
    let command := Js.ToString (Js.prop args "command") in
    match shell command projectRoot fs with
    | (ExecOk out, fs') => (Output (Js.stringOr out "(no output)"), fs')
    | (ExecFail out err msg, fs') =>
        let output := orEmpty out in
        let stderr := orEmpty err in
        let message := orEmpty msg in
        if Js.stringTruthy output || Js.stringTruthy stderr
        then (Err ("Command failed" +:+ Str.nl +:+ "stdout:" +:+ Str.nl +:+ output
                     +:+ Str.nl +:+ "stderr:" +:+ Str.nl +:+ stderr), fs')
        else (Err ("Command failed: " +:+ message), fs')
    end.

Definition editFile (args : JsObject) : Node -> ToolResult * Node :=
  tryCatch
    (let* filePath := resolvePath (Js.ToString (Js.prop args "path")) in
     let oldString := Js.ToString (Js.prop args "old_string") in
     let newString := Js.ToString (Js.prop args "new_string") in
     let* found := FsOps.existsSync filePath in
     if negb found
     then ret (Err ("File not found: " +:+ Js.ToString (Js.prop args "path")))
     else
       let* content := FsOps.readFileSync filePath in
       if negb (Str.includes oldString content)
       then ret (Err ("String not found in file: " +:+ String Str.dquote
                        (Str.take 50 oldString +:+ "..." +:+ String Str.dquote "")))
       else
         let newContent := Str.replace oldString newString content in
         FsOps.writeFileSync filePath newContent;;
         ret (Output ("File edited: " +:+ Js.ToString (Js.prop args "path"))))
    caught.

Definition executeTool (name : string) (args : JsObject) : Node -> ToolResult * Node :=
  if String.eqb name TOOL_NAMES.READ_FILE then readFile args
  else if String.eqb name TOOL_NAMES.WRITE_FILE then writeFile args
  else if String.eqb name TOOL_NAMES.HEAD_FILE then headFile args
  else if String.eqb name TOOL_NAMES.TAIL_FILE then tailFile args
  else if String.eqb name TOOL_NAMES.LIST_DIR then listDir args
  else if String.eqb name TOOL_NAMES.RUN_COMMAND then runCommand args
  else if String.eqb name TOOL_NAMES.EDIT_FILE then editFile args
  else fun fs => (Err ("Unknown tool: " +:+ name), fs).

End ToolExecutor.

Local Close Scope exec_scope.

(** [createToolExecutor(projectDir)], the process running in [cwd] *)
Definition createToolExecutor (shell : Shell) (cwd : AbsPath) (projectDir : string)
  : string -> JsObject -> Node -> ToolResult * Node :=
  executeTool shell (Path.resolve cwd projectDir).

Definition getToolDescription (name : string) (args : JsObject) : string :=
  let linesOr100 :=
    if Js.ToBoolean (Js.prop args "lines") then Js.ToString (Js.prop args "lines") else "100" in
  if String.eqb name TOOL_NAMES.READ_FILE then
    "Read file: " +:+ Js.ToString (Js.prop args "path")
  else if String.eqb name TOOL_NAMES.WRITE_FILE then
    "Write file: " +:+ Js.ToString (Js.prop args "path")
  else if String.eqb name TOOL_NAMES.HEAD_FILE then
    "Read first " +:+ linesOr100 +:+ " lines of: " +:+ Js.ToString (Js.prop args "path")
  else if String.eqb name TOOL_NAMES.TAIL_FILE then
    "Read last " +:+ linesOr100 +:+ " lines of: " +:+ Js.ToString (Js.prop args "path")
  else if String.eqb name TOOL_NAMES.LIST_DIR then
    "List directory: " +:+ Js.ToString (Js.prop args "path")
      +:+ (if Js.ToBoolean (Js.prop args "recursive") then " (recursive)" else "")
  else if String.eqb name TOOL_NAMES.RUN_COMMAND then
    "Run command: " +:+ Js.ToString (Js.prop args "command")
  else if String.eqb name TOOL_NAMES.EDIT_FILE then
    "Edit file: " +:+ Js.ToString (Js.prop args "path")
  else "Unknown tool: " +:+ name.

(** ** Conversations ([Content] and [Part] of the model API)

    Only the fields the code reads or writes are represented. *)

Record FunctionCall := mkFunctionCall {
  fc_name : option string;
  fc_args : option JsObject
}.

Record FunctionResponse := mkFunctionResponse {
  fr_name : option string;
  fr_response : option JsObject
}.

Record Part := mkPart {
  text : option string;
  functionCall : option FunctionCall;
  functionResponse : option FunctionResponse
}.

Record Content := mkContent {
  role : option string;
  parts : option (list Part)
}.

Definition textPart (s : string) : Part :=
  {| text := Some s; functionCall := None; functionResponse := None |}.

Definition functionResponsePart (name : string) (response : JsObject) : Part :=
  {| text := None; functionCall := None;
     functionResponse := Some {| fr_name := Some name; fr_response := Some response |} |}.

(** ** [JSON.stringify], on the values above *)

Module JSON.

Definition hexDigit (n : nat) : ascii :=
  match n with
  | 0 => "0" | 1 => "1" | 2 => "2" | 3 => "3" | 4 => "4" | 5 => "5" | 6 => "6"
  | 7 => "7" | 8 => "8" | 9 => "9" | 10 => "a" | 11 => "b" | 12 => "c"
  | 13 => "d" | 14 => "e" | _ => "f"
  end%char.

Definition escapeChar (c : ascii) : string :=
  let n := Ascii.nat_of_ascii c in
  if Ascii.eqb c Str.dquote then String "\"%char (String Str.dquote "")
  else if Ascii.eqb c "\"%char then "\\"
  else if Ascii.eqb c "008"%char then "\b"
  else if Ascii.eqb c "009"%char then "\t"
  else if Ascii.eqb c "010"%char then "\n"
  else if Ascii.eqb c "012"%char then "\f"
  else if Ascii.eqb c "013"%char then "\r"
  else if n <? 32 then
    "\u00" +:+ String (hexDigit (n / 16)) (String (hexDigit (n mod 16)) "")
  else String c "".

Fixpoint escape (s : string) : string :=
  match s with
  | EmptyString => EmptyString
  | String c s' => escapeChar c +:+ escape s'
  end.

Definition quote (s : string) : string :=
  String Str.dquote (escape s +:+ String Str.dquote "").

(** the text of a value, [None] for [undefined] (which an object omits) *)
Definition value (v : JsValue) : option string :=
  match v with
  | JUndefined => None
  | JNull => Some "null"
  | JBool true => Some "true"
  | JBool false => Some "false"
  | JNumber NaN => Some "null"
  | JNumber (Int z) => Some (pretty z)
  | JString s => Some (quote s)
  end.

(** an object from its properties, the undefined ones left out; the
    records below are written with their fields in the order of declaration *)
Definition object (props : list (string * option string)) : string :=
  "{" +:+ Str.join ","
            (omap (fun kv => match kv.2 with
                             | Some v => Some (quote kv.1 +:+ ":" +:+ v)
                             | None => None
                             end) props)
      +:+ "}".

Definition array (items : list string) : string :=
  "[" +:+ Str.join "," items +:+ "]".

Definition jsObject (o : JsObject) : string :=
  object (map (fun kv => (kv.1, value kv.2)) o).

Definition stringifyFunctionCall (fc : FunctionCall) : string :=
  object [("name", quote <$> fc_name fc); ("args", jsObject <$> fc_args fc)].

Definition stringifyFunctionResponse (fr : FunctionResponse) : string :=
  object [("name", quote <$> fr_name fr); ("response", jsObject <$> fr_response fr)].

Definition stringifyPart (p : Part) : string :=
  object [("text", quote <$> text p);
          ("functionCall", stringifyFunctionCall <$> functionCall p);
          ("functionResponse", stringifyFunctionResponse <$> functionResponse p)].

(** [JSON.stringify(msg)] *)
Definition stringify (c : Content) : string :=
  object [("role", quote <$> role c);
          ("parts", (fun ps => array (map stringifyPart ps)) <$> parts c)].

End JSON.

(** ** [src/storage/settings.ts] *)

Inductive PermissionMode := ask | allow.

Record Permission := mkPermission {
  mode : PermissionMode;
  allowed : option (list string)
}.

Record Settings := mkSettings {
  model : string;
  permissions : gmap string Permission
}.

Module SettingsManager.

Definition getModel (s : Settings) : string := model s.

Definition getPermission (s : Settings) (tool : string) : option Permission :=
  permissions s !! tool.

(** the settings after [setPermission(tool, permission)]; the caller
    records the [save()] *)
Definition setPermission (s : Settings) (tool : string) (permission : Permission)
  : Settings :=
  {| model := model s; permissions := <[tool := permission]> (permissions s) |}.

(** [perm?.mode === 'allow'] *)
Definition isAllowed (s : Settings) (tool : string) : bool :=
  match getPermission s tool with
  | Some perm => match mode perm with allow => true | ask => false end
  | None => false
  end.

Definition reset (s : Settings) : Settings :=
  {| model := DEFAULT_MODEL; permissions := ∅ |}.

End SettingsManager.

(** ** The API of the model *)

Record GenerateContentConfig := mkConfig {
  (** [tools: [{ functionDeclarations: TOOL_DECLARATIONS }]] is present *)
  cfg_tools : bool;
  cfg_systemInstruction : option string
}.

Record GenerateContentParams := mkParams {
  gp_model : string;
  gp_contents : list Content;
  gp_config : option GenerateContentConfig
}.

Record Candidate := mkCandidate { cand_content : option Content }.

Record GenerateContentResponse := mkResponse {
  resp_text : option string;
  resp_functionCalls : option (list FunctionCall);
  resp_candidates : option (list Candidate)
}.

(** How a call of [ai.models.generateContent] ends: with a response, with an
    exception, or not at all (no reply ever settles the promise). *)
Inductive ApiReply :=
| Respond (r : GenerateContentResponse)
| Reject (e : Exn)
| Stall.

(** ** The process and its environment *)

(** A [Content[]] array lives in the heap and is handed around by
    reference. *)
Definition Ref := nat.

(** What the process does to the outside, in order. The two JSON files under
    [.gemini] are written by [save()]; they are kept apart from [fs]. *)
Inductive Event :=
| EvGenerate (params : GenerateContentParams)
| EvSleep (ms : Z)
| EvPrompt (tool : string) (args : JsObject) (description : string)
| EvExecute (name : string) (args : JsObject)
| EvContextLog (hop : nat) (messages : nat) (chars : Z) (tokens : Z)
| EvSave (file : string).

Definition SETTINGS_FILE : string := "settings.json".
Definition HISTORY_FILE : string := "history.json".

Record World := mkWorld {
  fs : Node;
  (** [SettingsManager.settings] *)
  settings : Settings;
  heap : list (list Content);
  (** [HistoryManager.currentSession], as the array of its [messages] *)
  currentSession : option Ref;
  planMode : bool;
  trace : list Event
}.

(** The collaborators: the [k]-th call of the model API and the [k]-th
    permission prompt are answered by the environment. The prompt is taken to
    answer every time. *)
Record Env := mkEnv {
  generateContent : nat -> GenerateContentParams -> ApiReply;
  onPermissionPrompt : nat -> string -> JsObject -> string -> PermissionResponse;
  shell : Shell;
  projectRoot : AbsPath
}.

(** An asynchronous computation of the agent: it returns, throws, or stays
    pending for ever. *)
Inductive Outcome (A : Type) :=
| Returned (a : A)
| Threw (e : Exn)
| Pending.
Arguments Returned {A} a.
Arguments Threw {A} e.
Arguments Pending {A}.

Definition Agent (A : Type) : Type := World -> Outcome A * World.

Definition aret {A} (a : A) : Agent A := fun w => (Returned a, w).
Definition athrow {A} (e : Exn) : Agent A := fun w => (Threw e, w).
Definition abind {A B} (m : Agent A) (k : A -> Agent B) : Agent B :=
  fun w => match m w with
           | (Returned a, w') => k a w'
           | (Threw e, w') => (Threw e, w')
           | (Pending, w') => (Pending, w')
           end.

Declare Scope agent_scope.
Delimit Scope agent_scope with agent.
Notation "'let*' x ':=' m 'in' k" := (abind m (fun x => k))
  (at level 10, x name, m at level 99, k at level 200) : agent_scope.
Notation "m ';;' k" := (abind m (fun _ => k))
  (at level 100, k at level 200, right associativity) : agent_scope.

Definition setFs (f : Node) (w : World) : World :=
  {| fs := f; settings := settings w; heap := heap w;
     currentSession := currentSession w; planMode := planMode w; trace := trace w |}.
Definition setSettings (s : Settings) (w : World) : World :=
  {| fs := fs w; settings := s; heap := heap w;
     currentSession := currentSession w; planMode := planMode w; trace := trace w |}.
Definition setHeap (h : list (list Content)) (w : World) : World :=
  {| fs := fs w; settings := settings w; heap := h;
     currentSession := currentSession w; planMode := planMode w; trace := trace w |}.
Definition setCurrentSession (s : option Ref) (w : World) : World :=
  {| fs := fs w; settings := settings w; heap := heap w;
     currentSession := s; planMode := planMode w; trace := trace w |}.
Definition logEvent (e : Event) (w : World) : World :=
  {| fs := fs w; settings := settings w; heap := heap w;
     currentSession := currentSession w; planMode := planMode w;
     trace := trace w ++ [e] |}.

Definition emit (e : Event) : Agent unit := fun w => (Returned tt, logEvent e w).

(** the array behind a reference *)
Definition deref (w : World) (r : Ref) : list Content := default [] (heap w !! r).

Definition readArray (r : Ref) : Agent (list Content) :=
  fun w => (Returned (deref w r), w).

(** a new array with the elements [l] *)
Definition newArray (l : list Content) : Agent Ref :=
  fun w => (Returned (length (heap w)), setHeap (heap w ++ [l]) w).

(** [array.push(msg)] *)
Definition push (r : Ref) (msg : Content) : Agent unit :=
  fun w => (Returned tt, setHeap (alter (fun l => l ++ [msg]) r (heap w)) w).

Local Open Scope agent_scope.

(** ** [src/storage/history.ts], the part the agent uses *)

Module HistoryManager.

Definition save : Agent unit := emit (EvSave HISTORY_FILE).

Definition addMessage (message : Content) : Agent unit :=
  fun w => match currentSession w with
           | Some messages => (push messages message;; save) w
           | None => (Returned tt, w)
           end.

(** [this.currentSession.messages = messages]: from here on the session
    and the caller hold the same array. *)
Definition setCurrentSessionMessages (messages : Ref) : Agent unit :=
  fun w => match currentSession w with
           | Some _ => save (setCurrentSession (Some messages) w)
           | None => (Returned tt, w)
           end.

(** [this.currentSession?.messages ?? []] *)
Definition getMessages : Agent Ref :=
  fun w => match currentSession w with
           | Some messages => (Returned messages, w)
           | None => newArray [] w
           end.

End HistoryManager.

(** the stateful face of [SettingsManager] *)
Module SettingsStore.

Definition save : Agent unit := emit (EvSave SETTINGS_FILE).

Definition getModel : Agent string :=
  fun w => (Returned (SettingsManager.getModel (settings w)), w).

Definition isAllowed (tool : string) : Agent bool :=
  fun w => (Returned (SettingsManager.isAllowed (settings w) tool), w).

Definition setPermission (tool : string) (permission : Permission) : Agent unit :=
  fun w => save (setSettings (SettingsManager.setPermission (settings w) tool permission) w).

End SettingsStore.

(** ** [src/agent/index.ts] *)

Definition SYSTEM_INSTRUCTION : string :=
"You are a coding assistant with access to file system tools. Be conservative and thorough:

- Read relevant files before making changes
- Make targeted edits using edit_file rather than rewriting entire files
- Use head_file/tail_file for large files to avoid reading too much content
- Run commands only when necessary
- Explain what you're doing before taking action
- If a tool fails, read the error message and try to recover
- Ask for clarification if the request is ambiguous

Available tools:
- read_file: Read file contents
- write_file: Create or overwrite a file
- head_file: Read first N lines of a file
- tail_file: Read last N lines of a file
- list_dir: List directory contents
- run_command: Execute a shell command
- edit_file: Edit a file by replacing a specific string".

Definition PLAN_SYSTEM_ADDITION : string :=
"

IMPORTANT: You are in PLAN MODE. Before taking any action:
1. First analyze the request and create a detailed step-by-step plan
2. List all files you plan to read, modify, or create
3. Explain the reasoning for each step
4. After presenting the plan, wait for user approval before executing

Do NOT execute any actions until the user approves the plan.".

Definition SUMMARIZE_PROMPT : string :=
"Summarize the following tool calls and their results into a concise summary. 
Keep key information like file names, important code changes, and outcomes. 
Format as a brief bullet list. Do not include full file contents.".

Definition EXHAUSTED_MESSAGE : string :=
  "Maximum iterations reached. Please try a more specific request.".

Definition isGenerate (e : Event) : bool :=
  match e with EvGenerate _ => true | _ => false end.

Definition isPrompt (e : Event) : bool :=
  match e with EvPrompt _ _ _ => true | _ => false end.

Definition countEvents (f : Event -> bool) (l : list Event) : nat :=
  length (List.filter f l).

(** [Promise.race] of a promise with a timer: replies carry no latency, so
    the timer wins exactly when the promise never settles. *)
Definition withTimeout {A} (promise : Agent A) (ms : Z) (message : string) : Agent A :=
  fun w => match promise w with
           | (Pending, w') => (Threw (Error message), w')
           | settled => settled
           end.

Definition sleep (ms : Z) : Agent unit := emit (EvSleep ms).

Definition isRateLimit (error : Exn) : bool :=
  bool_decide (exn_status error = Some 429%Z)
  || Str.includes "429" (exn_message error)
  || bool_decide (exn_error_code error = Some 429%Z)
  || Str.includes "RESOURCE_EXHAUSTED" (exn_message error).

Definition partSize (p : Part) : Z :=
  ((match text p with
    | Some t => if Js.stringTruthy t then Z.of_nat (String.length t) else 0
    | None => 0
    end)
   + (match functionCall p with
      | Some fc => Z.of_nat (String.length (JSON.stringifyFunctionCall fc))
      | None => 0
      end)
   + (match functionResponse p with
      | Some fr => Z.of_nat (String.length (JSON.stringifyFunctionResponse fr))
      | None => 0
      end))%Z.

Definition calculateContentSize (contents : list Content) : Z :=
  fold_left (fun totalChars msg =>
               fold_left (fun totalChars p => (totalChars + partSize p)%Z)
                         (default [] (parts msg)) totalChars)
            contents 0%Z.

(** [p.functionCall || p.functionResponse] *)
Definition isToolPart (p : Part) : bool :=
  match functionCall p, functionResponse p with
  | None, None => false
  | _, _ => true
  end.

Definition hasToolCall (msg : Content) : bool :=
  existsb isToolPart (default [] (parts msg)).

(** the first loop of [summarizeToolCalls], from index [i] on:
    [(toolCallMessages, otherMessages, toolCallIndices)] *)
Fixpoint classifyFrom (i : nat) (contents : list Content)
  : list Content * list Content * list nat :=
  match contents with
  | [] => ([], [], [])
  | msg :: rest =>
      let '(toolCallMessages, otherMessages, toolCallIndices) := classifyFrom (S i) rest in
      if hasToolCall msg
      then (msg :: toolCallMessages, otherMessages, i :: toolCallIndices)
      else (toolCallMessages, msg :: otherMessages, toolCallIndices)
  end.

(** the second loop, from index [i] on: what it pushes on [result], and
    [summaryAdded] at its end *)
Fixpoint spliceFrom (i : nat) (contents : list Content) (toolCallIndices : list nat)
    (summaryContent : Content) (summaryAdded : bool) : list Content * bool :=
  match contents with
  | [] => ([], summaryAdded)
  | msg :: rest =>
      if negb (existsb (Nat.eqb i) toolCallIndices) then
        let addNow :=
          negb summaryAdded && (0 <? length toolCallIndices)
          && (List.last toolCallIndices 0 <? i) in
        let '(pushed, added) :=
          spliceFrom (S i) rest toolCallIndices summaryContent (summaryAdded || addNow) in
        ((if addNow then [summaryContent] else []) ++ msg :: pushed, added)
      else spliceFrom (S i) rest toolCallIndices summaryContent summaryAdded
  end.

Definition summaryContentOf (summaryResponse : GenerateContentResponse) : Content :=
  let summary := default "Tool calls were performed." (resp_text summaryResponse) in
  {| role := Some "user";
     parts := Some [textPart ("[Previous tool calls summary: " +:+ summary +:+ "]")] |}.

(** [result] at the end of [summarizeToolCalls] *)
Definition spliceSummary (contents : list Content) (toolCallIndices : list nat)
    (summaryContent : Content) : list Content :=
  let '(result, summaryAdded) := spliceFrom 0 contents toolCallIndices summaryContent false in
  if negb summaryAdded then result ++ [summaryContent] else result.

Definition summarizeParams (model : string) (toolCallMessages : list Content)
  : GenerateContentParams :=
  let summaryText := Str.join (Str.nl +:+ Str.nl) (map JSON.stringify toolCallMessages) in
  {| gp_model := model;
     gp_contents :=
       [{| role := Some "user";
           parts := Some [textPart (SUMMARIZE_PROMPT +:+ Str.nl +:+ Str.nl +:+ summaryText)] |}];
     gp_config := None |}.

Definition denialMessage (toolName : string) : Content :=
  {| role := Some "user";
     parts := Some [functionResponsePart toolName
                      [("error", JString "Permission denied by user")]] |}.

Definition toolResponse (toolName : string) (result : ToolResult) : Content :=
  {| role := Some "user";
     parts := Some [functionResponsePart toolName
                      (match error result with
                       | Some e =>
                           if Js.stringTruthy e then [("error", JString e)]
                           else [("result", from_option JString JUndefined (output result))]
                       | None => [("result", from_option JString JUndefined (output result))]
                       end)] |}.

(** [response.candidates?.[0]?.content] *)
Definition modelContentOf (response : GenerateContentResponse) : option Content :=
  match resp_candidates response with
  | Some (c :: _) => cand_content c
  | _ => None
  end.

Section Agent.

Variable env : Env.

(** [ai.models.generateContent(params)] *)
Definition ai_generateContent (params : GenerateContentParams)
  : Agent GenerateContentResponse :=
  fun w =>
    let w' := logEvent (EvGenerate params) w in
    match generateContent env (countEvents isGenerate (trace w)) params with
    | Respond r => (Returned r, w')
    | Reject e => (Threw e, w')
    | Stall => (Pending, w')
    end.

(** The [for] loop of [generateContentWithRetry] with [attemptsLeft]
    iterations to go ([maxRetries - attempt]), and the call after it. *)
Fixpoint generateContentAttempts (attemptsLeft : nat) (params : GenerateContentParams)
  : Agent GenerateContentResponse :=
  match attemptsLeft with
  | O => ai_generateContent params
  | S attemptsLeft' =>
      fun w =>
        match ai_generateContent params w with
        | (Threw error, w') =>
            if isRateLimit error
            then (sleep 60000;; generateContentAttempts attemptsLeft' params) w'
            else (Threw error, w')
        | settled => settled
        end
  end.

Definition generateContentWithRetry (params : GenerateContentParams)
    (maxRetries : nat) : Agent GenerateContentResponse :=
  generateContentAttempts maxRetries params.

Definition logContextSize (contents : Ref) (hop : nat) : Agent unit :=
  let* arr := readArray contents in
  let totalChars := calculateContentSize arr in
  let estimatedTokens := ((totalChars + 3) / 4)%Z in
  emit (EvContextLog hop (length arr) totalChars estimatedTokens).

Definition summarizeToolCalls (contents : Ref) : Agent Ref :=
  let* arr := readArray contents in
  let '(toolCallMessages, otherMessages, toolCallIndices) := classifyFrom 0 arr in
  if length toolCallMessages <? 4 then aret contents
  else
    let* model := SettingsStore.getModel in
    let* summaryResponse :=
      withTimeout
        (generateContentWithRetry (summarizeParams model toolCallMessages) 3)
        API_TIMEOUT_MS "Summarization timed out" in
    let* arr := readArray contents in
    newArray (spliceSummary arr toolCallIndices (summaryContentOf summaryResponse)).

(** [this.onPermissionPrompt(permissionKey, args, description)] *)
Definition promptPermission (permissionKey : string) (args : JsObject)
    (description : string) : Agent PermissionResponse :=
  fun w =>
    (Returned (onPermissionPrompt env (countEvents isPrompt (trace w))
                 permissionKey args description),
     logEvent (EvPrompt permissionKey args description) w).

(** [this.executeTool(toolName, args)] *)
Definition runTool (toolName : string) (args : JsObject) : Agent ToolResult :=
  fun w =>
    let '(result, fs') := executeTool (shell env) (projectRoot env) toolName args (fs w) in
    (Returned result, logEvent (EvExecute toolName args) (setFs fs' w)).

(** the body of [for (const fc of funcCalls)] *)
Definition dispatch (currentContents : Ref) (fc : FunctionCall) : Agent unit :=
  let args := default [] (fc_args fc) in
  let toolName := default "unknown" (fc_name fc) in
  let permissionKey := default toolName (TOOL_PERMISSIONS toolName) in
  let description := getToolDescription toolName args in
  let* hasPermission := SettingsStore.isAllowed permissionKey in
  let* granted :=
    (if negb hasPermission then
       let* permResponse := promptPermission permissionKey args description in
       (if granted permResponse && alwaysAllow permResponse
        then SettingsStore.setPermission permissionKey
               {| mode := allow; allowed := None |}
        else aret tt);;
       aret (granted permResponse)
     else aret hasPermission) in
  if negb granted then
    HistoryManager.addMessage (denialMessage toolName);;
    push currentContents (denialMessage toolName)
  else
    let* result := runTool toolName args in
    HistoryManager.addMessage (toolResponse toolName result);;
    push currentContents (toolResponse toolName result).

Fixpoint dispatchAll (currentContents : Ref) (funcCalls : list FunctionCall)
  : Agent unit :=
  match funcCalls with
  | [] => aret tt
  | fc :: rest => dispatch currentContents fc;; dispatchAll currentContents rest
  end.

Definition mainParams (model : string) (contents : list Content) (plan : bool)
  : GenerateContentParams :=
  {| gp_model := model;
     gp_contents := contents;
     gp_config :=
       Some {| cfg_tools := true;
               cfg_systemInstruction :=
                 Some (if plan then SYSTEM_INSTRUCTION +:+ PLAN_SYSTEM_ADDITION
                       else SYSTEM_INSTRUCTION) |} |}.

(** [while (hops < MAX_HOPS) { hops++; ... }] from a state with
    [remaining = MAX_HOPS - hops] iterations to go, and the [return] after
    the loop. *)
Fixpoint agenticLoopFrom (remaining hops : nat) (currentContents : Ref)
  : Agent string :=
  match remaining with
  | O => aret EXHAUSTED_MESSAGE
  | S remaining' =>
      let hops := S hops in
      logContextSize currentContents hops;;
      let* arr := readArray currentContents in
      let contextSize := calculateContentSize arr in
      let* currentContents :=
        (if (MAX_CONTEXT_CHARS <? contextSize)%Z then
           let* summarized := summarizeToolCalls currentContents in
           HistoryManager.setCurrentSessionMessages summarized;;
           aret summarized
         else aret currentContents) in
      let* plan := (fun w => (Returned (planMode w), w)) in
      let* model := SettingsStore.getModel in
      let* arr := readArray currentContents in
      let* response :=
        withTimeout (generateContentWithRetry (mainParams model arr plan) 3)
          API_TIMEOUT_MS "API request timed out after 600 seconds" in
      match resp_functionCalls response with
      | None | Some [] =>
          aret (default "No response from agent." (resp_text response))
      | Some funcCalls =>
          (match modelContentOf response with
           | Some modelContent =>
               HistoryManager.addMessage modelContent;;
               push currentContents modelContent
           | None => aret tt
           end);;
          dispatchAll currentContents funcCalls;;
          agenticLoopFrom remaining' hops currentContents
      end
  end.

Definition agenticLoop (contents : Ref) : Agent string :=
  let* arr := readArray contents in
  let* currentContents := newArray arr in
  agenticLoopFrom MAX_HOPS 0 currentContents.

Definition processMessage (userMessage : string) : Agent string :=
  HistoryManager.addMessage
    {| role := Some "user"; parts := Some [textPart userMessage] |};;
  let* contents := HistoryManager.getMessages in
  let* result := agenticLoop contents in
  HistoryManager.addMessage
    {| role := Some "model"; parts := Some [textPart result] |};;
  aret result.

End Agent.

(** ** [src/storage/settings.ts], the methods the shell calls *)

Module SettingsAdmin.

(** what [load()] makes of the settings file: its content when there is
    one, the defaults otherwise *)
Definition load (file : option Settings) : Settings :=
  match file with
  | Some stored => stored
  | None => {| model := DEFAULT_MODEL; permissions := ∅ |}
  end.

(** the settings after [setModel(model)]; the caller records the [save()] *)
Definition setModel (s : Settings) (newModel : string) : Settings :=
  {| model := newModel; permissions := permissions s |}.

(** the settings after [grantPermission(tool, alwaysAllow)] *)
Definition grantPermission (s : Settings) (tool : string) (alwaysAllow : bool)
  : Settings :=
  if alwaysAllow
  then SettingsManager.setPermission s tool {| mode := allow; allowed := None |}
  else s.

End SettingsAdmin.

(** ** [src/storage/history.ts], the whole class

    The manager on its own, without the agent: the messages of a session
    are held by value here. [currentSession] refers to an object that is
    always an element of [history.sessions] (it is pushed there when it is
    created, and picked from there when it is resumed), so it is kept as the
    position of that element. The history file is the copy [save()] leaves
    behind: it holds the sessions themselves, [JSON.parse] being taken to give
    back what [JSON.stringify] was given. *)

Record Session := mkSession {
  sess_id : string;
  sess_createdAt : string;
  sess_messages : list Content
}.

(** the history file on disk *)
Inductive HistoryFile :=
| NoFile
| InvalidJson
| Stored (sessions : list Session).

Record HistoryState := mkHistoryState {
  (** [this.history.sessions] *)
  hs_sessions : list Session;
  (** [this.currentSession] *)
  hs_current : option nat;
  hs_file : HistoryFile
}.

Module Sessions.

(** [new HistoryManager(projectDir)]: [load()], no current session *)
Definition load (file : HistoryFile) : HistoryState :=
  {| hs_sessions := match file with
                    | Stored sessions => sessions
                    | NoFile | InvalidJson => []
                    end;
     hs_current := None;
     hs_file := file |}.

Definition save (h : HistoryState) : HistoryState :=
  {| hs_sessions := hs_sessions h;
     hs_current := hs_current h;
     hs_file := Stored (hs_sessions h) |}.

(** [createSession()], the identifier and the date being what [uuidv4()]
    and the clock give *)
Definition createSession (id createdAt : string) (h : HistoryState)
  : Session * HistoryState :=
  let session := {| sess_id := id; sess_createdAt := createdAt; sess_messages := [] |} in
  (session,
   save {| hs_sessions := hs_sessions h ++ [session];
           hs_current := Some (length (hs_sessions h));
           hs_file := hs_file h |}).

Definition getCurrentSession (h : HistoryState) : option Session :=
  match hs_current h with
  | Some i => hs_sessions h !! i
  | None => None
  end.

Definition getLastSession (h : HistoryState) : option Session :=
  match hs_sessions h with
  | [] => None
  | _ :: _ => hs_sessions h !! (length (hs_sessions h) - 1)
  end.

Definition resumeLastSession (h : HistoryState) : option Session * HistoryState :=
  let lastSession := getLastSession h in
  (lastSession,
   match lastSession with
   | Some _ => {| hs_sessions := hs_sessions h;
                  hs_current := Some (length (hs_sessions h) - 1);
                  hs_file := hs_file h |}
   | None => h
   end).

Definition withMessages (messages : list Content) (s : Session) : Session :=
  {| sess_id := sess_id s; sess_createdAt := sess_createdAt s;
     sess_messages := messages |}.

Definition addMessage (message : Content) (h : HistoryState) : HistoryState :=
  match hs_current h with
  | Some i =>
      save {| hs_sessions :=
                alter (fun s => withMessages (sess_messages s ++ [message]) s) i
                      (hs_sessions h);
              hs_current := hs_current h;
              hs_file := hs_file h |}
  | None => h
  end.

Definition setCurrentSessionMessages (messages : list Content) (h : HistoryState)
  : HistoryState :=
  match hs_current h with
  | Some i =>
      save {| hs_sessions := alter (withMessages messages) i (hs_sessions h);
              hs_current := hs_current h;
              hs_file := hs_file h |}
  | None => h
  end.

Definition getMessages (h : HistoryState) : list Content :=
  match getCurrentSession h with
  | Some s => sess_messages s
  | None => []
  end.

Definition getSessionCount (h : HistoryState) : nat := length (hs_sessions h).

Definition clearCurrentSession (h : HistoryState) : HistoryState :=
  {| hs_sessions := hs_sessions h; hs_current := None; hs_file := hs_file h |}.

End Sessions.

(** ** The shell ([src/index.ts]) *)

(** the three answers of the permission prompt *)
Inductive Choice := yes | always | no.

(** the [PermissionResponse] the prompt builds from the answer *)
Definition permissionResponse (choice : Choice) : PermissionResponse :=
  {| granted := match choice with no => false | _ => true end;
     alwaysAllow := match choice with always => true | _ => false end |}.

(** how [chat] opens its session: with [--resume] the last session if
    there is one, a new session otherwise *)
Definition openSession (resume : bool) (id createdAt : string) (h : HistoryState)
  : HistoryState :=
  if resume then
    match Sessions.resumeLastSession h with
    | (Some _, h') => h'
    | (None, h') => (Sessions.createSession id createdAt h').2
    end
  else (Sessions.createSession id createdAt h).2.

(** ** The example project ([exampleProject], Java)

    A [long] is an integer of 64 bits in two's complement; arithmetic on it
    wraps around. The argument, an [int], is an integer; the loop counter
    stays below it and does not wrap. An [IllegalArgumentException] is the
    [inl] of its message. *)

Module Java.

Definition wrapLong (z : Z) : Z := ((z + 2 ^ 63) mod 2 ^ 64 - 2 ^ 63)%Z.

Definition Long_MAX_VALUE : Z := (2 ^ 63 - 1)%Z.

(** [Factorial.factorial(int n)]: the loop runs for [i = 2 .. n] *)
Definition factorialStep (st : Z * Z) : Z * Z :=
  let '(i, result) := st in ((i + 1)%Z, wrapLong (result * i)).

Definition factorial (n : Z) : string + Z :=
  if (n <? 0)%Z then inl "n must be non-negative"
  else if (20 <? n)%Z then inl "n must be 20 or less to avoid long overflow"
  else inr (Z.iter (n - 1) factorialStep (2%Z, 1%Z)).2.

(** the body of the loop of [fibonacci]: [(fib, prevFib)] *)
Definition fibonacciStep (st : Z * Z) : Z * Z :=
  let '(fib, prevFib) := st in (wrapLong (fib + prevFib), fib).

(** [Fibonacci.fibonacci(int n)] as first written, without an upper
    bound: the loop runs for [i = 2 .. n - 1] *)
Definition fibonacciUnguarded (n : Z) : string + Z :=
  if (n <? 0)%Z then inl "n must be non-negative"
  else if (n <=? 1)%Z then inr n
  else inr (Z.iter (n - 2) fibonacciStep (1%Z, 1%Z)).1.

(** [Fibonacci.fibonacci(int n)] of the example project *)
Definition fibonacci (n : Z) : string + Z :=
  if (n <? 0)%Z then inl "n must be non-negative"
  else if (92 <? n)%Z then inl "n must be 92 or less to avoid long overflow"
  else if (n <=? 1)%Z then inr n
  else inr (Z.iter (n - 2) fibonacciStep (1%Z, 1%Z)).1.

End Java.

(** ** [src/agent/index.ts], the accessors of [Agent] *)

Definition setPlanMode (enabled : bool) : Agent unit :=
  fun w => (Returned tt,
            {| fs := fs w; settings := settings w; heap := heap w;
               currentSession := currentSession w; planMode := enabled;
               trace := trace w |}).

Definition isPlanMode : Agent bool := fun w => (Returned (planMode w), w).

(** * Vocabulary of the properties *)

(** [p] is [root] or lies below it *)
Fixpoint insideRoot (root p : AbsPath) : bool :=
  match root, p with
  | [], _ => true
  | _ :: _, [] => false
  | x :: root', y :: p' => String.eqb x y && insideRoot root' p'
  end.

(** the operations of the executor that take a path *)
Definition pathTools : list string :=
  [TOOL_NAMES.READ_FILE; TOOL_NAMES.WRITE_FILE; TOOL_NAMES.HEAD_FILE;
   TOOL_NAMES.TAIL_FILE; TOOL_NAMES.LIST_DIR; TOOL_NAMES.EDIT_FILE].

(** a result holds an output or an error, and not both *)
Definition exactlyOne (r : ToolResult) : Prop :=
  (is_Some (output r) /\ error r = None) \/ (output r = None /\ is_Some (error r)).

(** the text holds no dollar sign *)
Fixpoint dollarFree (s : string) : bool :=
  match s with
  | EmptyString => true
  | String c s' => negb (Ascii.eqb c "$"%char) && dollarFree s'
  end.

(** the [lines] argument asks for [n] lines: a count of at least one, or no
    count at all and [n] is the default *)
Definition requestedLines (v : JsValue) (n : nat) : Prop :=
  (v = JNumber (Int (Z.of_nat n)) /\ 1 <= n) \/ (v = JUndefined /\ n = 100).

(** plain turns and tool turns of a conversation *)
Definition isPlain (msg : Content) : bool := negb (hasToolCall msg).
Definition toolTurns (l : list Content) : list Content := List.filter hasToolCall l.
Definition plainTurns (l : list Content) : list Content := List.filter isPlain l.

(** [idx] holds the positions of the tool turns of [l], counted from [i] *)
Definition marks (idx : list nat) (i : nat) (l : list Content) : Prop :=
  forall k m, l !! k = Some m -> existsb (Nat.eqb (i + k)) idx = hasToolCall m.

(** the world after some more events *)
Definition appendTrace (evs : list Event) (w : World) : World :=
  {| fs := fs w; settings := settings w; heap := heap w;
     currentSession := currentSession w; planMode := planMode w;
     trace := trace w ++ evs |}.

(** what a reply makes of the call it answers *)
Definition settle (reply : ApiReply) : Outcome GenerateContentResponse :=
  match reply with
  | Respond r => Returned r
  | Reject e => Threw e
  | Stall => Pending
  end.

(** the reply is an error recognised as rate limiting *)
Definition rateLimited (reply : ApiReply) : bool :=
  match reply with
  | Reject e => isRateLimit e
  | _ => false
  end.

(** [j] failed attempts, each followed by the pause *)
Definition retryEvents (params : GenerateContentParams) (j : nat) : list Event :=
  concat (replicate j [EvGenerate params; EvSleep 60000]).

(** *** Permissions *)

(** the event is no prompt for the capability class [k] *)
Definition notPromptFor (k : string) (e : Event) : Prop :=
  match e with
  | EvPrompt tool _ _ => tool <> k
  | _ => True
  end.

(** once [k] is allowed in [w], it is allowed in [w'] and no prompt for it
    was logged in between *)
Definition allowStays (k : string) (w w' : World) : Prop :=
  SettingsManager.isAllowed (settings w) k = true ->
  SettingsManager.isAllowed (settings w') k = true
  /\ exists evs, trace w' = trace w ++ evs /\ Forall (notPromptFor k) evs.

(** [m] relates every world to the one it leaves *)
Definition keeps {A} (R : World -> World -> Prop) (m : Agent A) : Prop :=
  forall w, R w (m w).2.

(** the world after the user's requests [msgs], each handed to
    [processMessage] in turn (the chat loop reports a thrown error and goes
    on with the next request) *)
Definition chat (env : Env) (msgs : list string) (w : World) : World :=
  fold_left (fun w userMessage => (processMessage env userMessage w).2) msgs w.

(** *** Recording results *)

(** the events of [history.addMessage(msg)] *)
Definition savedHistory (w : World) : list Event :=
  match currentSession w with
  | Some _ => [EvSave HISTORY_FILE]
  | None => []
  end.

(** what [history.addMessage(msg); currentContents.push(msg)] adds to the
    array [cur]: [msg], twice when the session holds that very array *)
Definition pushedOn (cur : Ref) (w : World) (msg : Content) : list Content :=
  if decide (currentSession w = Some cur) then [msg; msg] else [msg].

(** *** Counting the calls of the model *)

(** the reply is a response that requests at least one action *)
Definition requestsAction (reply : ApiReply) : Prop :=
  exists r fc rest, reply = Respond r /\ resp_functionCalls r = Some (fc :: rest).

(** a call of the loop proper (it declares the tools) and a call of the
    summariser (it has no configuration) *)
Definition isMainCall (e : Event) : bool :=
  match e with
  | EvGenerate p => match gp_config p with Some _ => true | None => false end
  | _ => false
  end.

Definition isSummaryCall (e : Event) : bool :=
  match e with
  | EvGenerate p => match gp_config p with Some _ => false | None => true end
  | _ => false
  end.

(** the hop numbers reported to [onContextLog], in order *)
Definition hopsLogged (evs : list Event) : list nat :=
  omap (fun e => match e with
                 | EvContextLog hop _ _ _ => Some hop
                 | _ => None
                 end) evs.

(** the event is neither a call of the model nor a report of the hop *)
Definition silent (e : Event) : bool :=
  match e with
  | EvGenerate _ | EvContextLog _ _ _ _ => false
  | _ => true
  end.

(** [m] returns, with a value in [Q], after exactly [a] calls of the loop
    proper and at most [b] calls of the summariser, having reported the hops
    [hs] *)
Definition returnsWith {A} (a b : nat) (hs : list nat) (Q : A -> Prop)
    (m : Agent A) : Prop :=
  forall w, exists x w' evs,
    m w = (Returned x, w') /\ Q x /\ trace w' = trace w ++ evs
    /\ countEvents isMainCall evs = a /\ countEvents isSummaryCall evs <= b
    /\ hopsLogged evs = hs.

(** ** Sample data for the instances below *)

Module Sample.

Definition quietShell : Shell := fun _ _ disk => (ExecOk "", disk).

Definition root : AbsPath := ["proj"].

Definition threeLines : string := "one" +:+ Str.nl +:+ "two" +:+ Str.nl +:+ "three".

Definition disk : Node :=
  Dir [("proj", Dir [("a.txt", File "foobaz");
                     ("price.txt", File "price: X");
                     ("blank.txt", File "");
                     ("notes.txt", File threeLines);
                     ("empty", Dir [])]);
       ("etc", Dir [("passwd", File "root")])].

(** *** A model that never stops asking, and a user who always declines *)


Definition readCall : FunctionCall :=
  {| fc_name := Some "read_file"; fc_args := Some [("path", JString "a.txt")] |}.

Definition busyResponse : GenerateContentResponse :=
  {| resp_text := None;
     resp_functionCalls := Some [readCall; readCall; readCall];
     resp_candidates :=
       Some [{| cand_content :=
                  Some {| role := Some "model";
                          parts := Some [{| text := None;
                                            functionCall := Some readCall;
                                            functionResponse := None |}] |} |}] |}.

Definition busyEnv : Env :=
  {| generateContent := fun _ _ => Respond busyResponse;
     onPermissionPrompt := fun _ _ _ _ => {| granted := false; alwaysAllow := false |};
     shell := quietShell;
     projectRoot := root |}.

(** a process with a new, empty session *)
Definition freshWorld : World :=
  {| fs := disk;
     settings := {| model := DEFAULT_MODEL; permissions := ∅ |};
     heap := [[]];
     currentSession := Some 0;
     planMode := false;
     trace := [] |}.

(** the same process inside the loop: array 0 is the session's, array 1
    the loop's copy *)
Definition midLoop : World :=
  {| fs := disk;
     settings := {| model := DEFAULT_MODEL; permissions := ∅ |};
     heap := [[]; []];
     currentSession := Some 0;
     planMode := false;
     trace := [] |}.

(** a request of 100001 characters *)
Definition longText : string := N.iter 100001 (String "x"%char) "".

(** *** A conversation with four tool turns *)

Definition callTurn : Content :=
  {| role := Some "model";
     parts := Some [textPart "Let me look.";
                    {| text := None; functionCall := Some readCall;
                       functionResponse := None |}] |}.

Definition resultTurn : Content := toolResponse "read_file" (Output "foobaz").

Definition askTurn : Content :=
  {| role := Some "user"; parts := Some [textPart "What is in a.txt?"] |}.

Definition answerTurn : Content :=
  {| role := Some "model"; parts := Some [textPart "It says foobaz."] |}.

Definition talk : list Content :=
  [askTurn; callTurn; resultTurn; callTurn; resultTurn; answerTurn].

Definition talkWorld : World :=
  {| fs := disk;
     settings := {| model := DEFAULT_MODEL; permissions := ∅ |};
     heap := [talk];
     currentSession := Some 0;
     planMode := false;
     trace := [] |}.

Definition summaryResponse : GenerateContentResponse :=
  {| resp_text := Some "- read a.txt twice";
     resp_functionCalls := None;
     resp_candidates := None |}.

Definition summaryEnv : Env :=
  {| generateContent := fun _ _ => Respond summaryResponse;
     onPermissionPrompt := fun _ _ _ _ => {| granted := false; alwaysAllow := false |};
     shell := quietShell;
     projectRoot := root |}.

(** *** A model that is rate limited twice, then answers *)

Definition quotaError : Exn :=
  {| exn_message := "quota"; exn_status := Some 429%Z; exn_error_code := None |}.

Definition flakyEnv : Env :=
  {| generateContent :=
       fun k _ => if k <? 2 then Reject quotaError else Respond summaryResponse;
     onPermissionPrompt := fun _ _ _ _ => {| granted := false; alwaysAllow := false |};
     shell := quietShell;
     projectRoot := root |}.

Definition plainParams : GenerateContentParams :=
  {| gp_model := DEFAULT_MODEL; gp_contents := [askTurn]; gp_config := None |}.

(** *** A process in which reading is allowed *)

Definition readingAllowed : World :=
  {| fs := disk;
     settings :=
       {| model := DEFAULT_MODEL;
          permissions := {[ "read_file" := {| mode := allow; allowed := None |} ]} |};
     heap := [[]; []];
     currentSession := Some 0;
     planMode := false;
     trace := [] |}.

End Sample.

(** ** Vocabulary of the further properties *)

(** the operations of the executor that only read *)
Definition readTools : list string :=
  [TOOL_NAMES.READ_FILE; TOOL_NAMES.HEAD_FILE; TOOL_NAMES.TAIL_FILE; TOOL_NAMES.LIST_DIR].

(** the text holds no slash *)
Fixpoint slashFree (s : string) : bool :=
  match s with
  | EmptyString => true
  | String c s' => negb (Ascii.eqb c "/"%char) && slashFree s'
  end.

(** the line [list_dir] prints for an entry *)
Definition displayName (pre : string) (e : string * Node) : string :=
  match e.2 with
  | Dir _ => (pre +:+ e.1) +:+ "/"
  | File _ => pre +:+ e.1
  end.

(** the files and directories below a node *)
Fixpoint descendants (n : Node) : nat :=
  match n with
  | File _ => 0
  | Dir entries =>
      (fix each (entries : list (string * Node)) : nat :=
         match entries with
         | [] => 0
         | (_, entry) :: rest => S (descendants entry) + each rest
         end) entries
  end.

Section NodeInduction.
Variable P : Node -> Prop.
Hypothesis onFile : forall content, P (File content).
Hypothesis onDir : forall entries, Forall (fun e => P e.2) entries -> P (Dir entries).

Fixpoint Node_nested_ind (n : Node) : P n :=
  match n with
  | File content => onFile content
  | Dir entries =>
      onDir entries
        ((fix each (entries : list (string * Node)) : Forall (fun e => P e.2) entries :=
            match entries with
            | [] => @List.Forall_nil _ _
            | (name, entry) :: rest =>
                @List.Forall_cons _ (fun e => P e.2) (name, entry) rest
                  (Node_nested_ind entry) (each rest)
            end) entries)
  end.
End NodeInduction.

(** *** The history manager *)

(** a call of a method of [HistoryManager] that changes its state *)
Inductive HistoryOp :=
| OpCreateSession (id createdAt : string)
| OpResumeLastSession
| OpAddMessage (message : Content)
| OpSetCurrentSessionMessages (messages : list Content)
| OpClearCurrentSession.

Definition applyOp (h : HistoryState) (op : HistoryOp) : HistoryState :=
  match op with
  | OpCreateSession id createdAt => (Sessions.createSession id createdAt h).2
  | OpResumeLastSession => (Sessions.resumeLastSession h).2
  | OpAddMessage message => Sessions.addMessage message h
  | OpSetCurrentSessionMessages messages => Sessions.setCurrentSessionMessages messages h
  | OpClearCurrentSession => Sessions.clearCurrentSession h
  end.

(** the manager made from the file [file], after the calls [ops] *)
Definition afterOps (file : HistoryFile) (ops : list HistoryOp) : HistoryState :=
  fold_left applyOp ops (Sessions.load file).

(** the current session, if any, is the last one of the history *)
Definition currentIsLast (h : HistoryState) : Prop :=
  forall i, hs_current h = Some i ->
            0 < length (hs_sessions h) /\ i = length (hs_sessions h) - 1.

(** *** The agent *)

Definition userTurn (t : string) : Content :=
  {| role := Some "user"; parts := Some [textPart t] |}.
Definition modelTurn (t : string) : Content :=
  {| role := Some "model"; parts := Some [textPart t] |}.

(** [msg] is a result turn for the call [fc] *)
Definition answers (fc : FunctionCall) (msg : Content) : Prop :=
  exists response,
    msg = {| role := Some "user";
             parts := Some [functionResponsePart (default "unknown" (fc_name fc))
                              response] |}.

(** [m] logs at most [n] calls of the model, however it ends *)
Definition callsWithin {A} (n : nat) (m : Agent A) : Prop :=
  forall w, exists evs,
    trace (m w).2 = trace w ++ evs /\ countEvents isGenerate evs <= n.

(** [m] returns or throws, after at most [n] calls of the model *)
Definition settlesWithin {A} (n : nat) (m : Agent A) : Prop :=
  forall w, (m w).1 <> Pending
            /\ exists evs, trace (m w).2 = trace w ++ evs
                           /\ countEvents isGenerate evs <= n.

(** *** The example project *)

(** [n!] *)
Fixpoint factorialOf (n : nat) : Z :=
  match n with
  | O => 1%Z
  | S k => (Z.of_nat n * factorialOf k)%Z
  end.

(** the Fibonacci numbers: 0, 1, 1, 2, 3, 5, ... *)
Fixpoint fibonacciNumber (n : nat) : Z :=
  match n with
  | O => 0%Z
  | S k => match k with
           | O => 1%Z
           | S j => (fibonacciNumber k + fibonacciNumber j)%Z
           end
  end.

(** two consecutive Fibonacci numbers at a time *)
Fixpoint fibonacciPair (n : nat) : Z * Z :=
  match n with
  | O => (0%Z, 1%Z)
  | S k => let '(a, b) := fibonacciPair k in (b, (a + b)%Z)
  end.

(** *** What a request may change *)

Definition isExecute (e : Event) : bool :=
  match e with EvExecute _ _ => true | _ => false end.

Definition isSettingsSave (e : Event) : bool :=
  match e with EvSave file => String.eqb file SETTINGS_FILE | _ => false end.

(** from [w] to [w'] plan mode stayed as it was, the disk changed only if a
    tool was executed, and the settings only if they were saved *)
Definition effectsLogged (w w' : World) : Prop :=
  planMode w' = planMode w
  /\ exists evs,
       trace w' = trace w ++ evs
       /\ (countEvents isExecute evs = 0 -> fs w' = fs w)
       /\ (countEvents isSettingsSave evs = 0 -> settings w' = settings w).

(** ** Sample data for the further instances *)

Module Cases.

Definition writeArgs : JsObject :=
  [("path", JString "new/b.txt"); ("content", JString "hi")].


(** a user who answers [always] *)
Definition trustingEnv : Env :=
  {| generateContent := fun _ _ => Respond Sample.busyResponse;
     onPermissionPrompt := fun _ _ _ _ => permissionResponse always;
     shell := Sample.quietShell;
     projectRoot := Sample.root |}.

End Cases.

(** * Properties *)

(** ** Strings *)

Lemma sapp_cons c s t : String c s +:+ t = String c (s +:+ t).
Proof. reflexivity. Qed.

Lemma sapp_empty_r s : s +:+ "" = s.
Proof. induction s as [|c s IH]; [done|]. by rewrite sapp_cons, IH. Qed.

Lemma startsWith_app p s : Str.startsWith p (p +:+ s) = true.
Proof.
  induction p as [|c p IH]; [done|].
  rewrite sapp_cons. simpl. by rewrite Ascii.eqb_refl.
Qed.

Lemma join_cons_startsWith x sep l : Str.startsWith x (Str.join sep (x :: l)) = true.
Proof.
  destruct l as [|y l]; simpl.
  - rewrite <- (sapp_empty_r x) at 2. apply startsWith_app.
  - apply startsWith_app.
Qed.

(** ** The path check *)

Lemma insideRoot_prefix root p : insideRoot root p = true <-> root `prefix_of` p.
Proof.
  revert p; induction root as [|x root IH]; intros [|y p]; simpl.
  - split; [intros _; apply prefix_nil | done].
  - split; [intros _; apply prefix_nil | done].
  - split; [done | intros H; by apply prefix_nil_not in H].
  - rewrite andb_true_iff, IH. split.
    + intros [Hxy Hp]. apply String.eqb_eq in Hxy. subst. by apply prefix_cons.
    + intros H. split.
      * apply String.eqb_eq. by apply prefix_cons_inv_1 in H.
      * by apply prefix_cons_inv_2 in H.
Qed.

Lemma stripCommon_outside root p :
  insideRoot root p = false ->
  exists s up down, Path.stripCommon root p = (s :: up, down).
Proof.
  revert p; induction root as [|x root IH]; intros [|y p]; simpl; try done.
  - intros _. eauto.
  - destruct (String.eqb x y); simpl; [apply IH | eauto].
Qed.

Lemma relative_outside root p :
  insideRoot root p = false -> Str.startsWith ".." (Path.relative root p) = true.
Proof.
  intros H. destruct (stripCommon_outside _ _ H) as (s & up & down & E).
  unfold Path.relative. rewrite E. cbn [length replicate app].
  apply join_cons_startsWith.
Qed.

Lemma resolvePath_outside root p disk :
  insideRoot root (Path.resolve root p) = false ->
  resolvePath root p disk = (inl (Error "Path traversal not allowed"), disk).
Proof.
  intros H. unfold resolvePath. by rewrite (relative_outside _ _ H).
Qed.

(** C1. A path argument that resolves outside the project root makes every
    path-taking operation of the executor ([read_file], [write_file],
    [head_file], [tail_file], [list_dir], [edit_file]) return an error result
    (nothing is thrown) and leave the whole file system as it was. *)
Theorem path_escape_is_rejected shell root name args disk :
  In name pathTools ->
  insideRoot root (Path.resolve root (Js.ToString (Js.prop args "path"))) = false ->
  executeTool shell root name args disk
  = (Err "Error: Path traversal not allowed", disk).
Proof.
  intros Hname Hout.
  assert (R := resolvePath_outside _ _ disk Hout).
  unfold pathTools in Hname. simpl in Hname.
  destruct Hname as [<-|[<-|[<-|[<-|[<-|[<-|[]]]]]]].
  - change (readFile root args disk = (Err "Error: Path traversal not allowed", disk)).
    unfold readFile, tryCatch, bind. by rewrite R.
  - change (writeFile root args disk = (Err "Error: Path traversal not allowed", disk)).
    unfold writeFile, tryCatch, bind. by rewrite R.
  - change (headFile root args disk = (Err "Error: Path traversal not allowed", disk)).
    unfold headFile, tryCatch, bind. by rewrite R.
  - change (tailFile root args disk = (Err "Error: Path traversal not allowed", disk)).
    unfold tailFile, tryCatch, bind. by rewrite R.
  - change (listDir root args disk = (Err "Error: Path traversal not allowed", disk)).
    unfold listDir, tryCatch, bind. by rewrite R.
  - change (editFile root args disk = (Err "Error: Path traversal not allowed", disk)).
    unfold editFile, tryCatch, bind. by rewrite R.
Qed.

Lemma path_escape_is_rejected_witness :
  executeTool Sample.quietShell Sample.root "write_file"
    [("path", JString "../etc/passwd"); ("content", JString "x")] Sample.disk
  = (Err "Error: Path traversal not allowed", Sample.disk).
Proof.
  apply path_escape_is_rejected.
  - simpl. tauto.
  - reflexivity.
Defined.

(** an absolute path outside the root is rejected just the same *)
Example absolute_path_is_rejected :
  executeTool Sample.quietShell Sample.root "read_file"
    [("path", JString "/etc/passwd")] Sample.disk
  = (Err "Error: Path traversal not allowed", Sample.disk).
Proof. reflexivity. Qed.

(** ** The executor *)

Lemma split_cons_inv sep s : exists h t, Str.split sep s = h :: t.
Proof.
  destruct s as [|c s]; simpl; [eauto|].
  destruct (Ascii.eqb c sep); [eauto|].
  destruct (Str.split sep s); eauto.
Qed.

Lemma join_split sep s : Str.join (String sep "") (Str.split sep s) = s.
Proof.
  induction s as [|c s IH]; [done|]. simpl.
  destruct (split_cons_inv sep s) as (h & t & E). rewrite E in *.
  destruct (Ascii.eqb_spec c sep) as [->|Hne].
  - change (Str.join (String sep "") ("" :: h :: t))
      with ("" +:+ String sep "" +:+ Str.join (String sep "") (h :: t)).
    by rewrite IH.
  - destruct t as [|h' t].
    + simpl in *. by subst.
    + change (Str.join (String sep "") (String c h :: h' :: t))
        with (String c h +:+ String sep "" +:+ Str.join (String sep "") (h' :: t)).
      change (Str.join (String sep "") (h :: h' :: t))
        with (h +:+ String sep "" +:+ Str.join (String sep "") (h' :: t)) in IH.
      rewrite sapp_cons. by rewrite IH.
Qed.

Lemma slice_head {A} (l : list A) (n : nat) :
  Str.slice l 0 (Z.of_nat n) = take (Nat.min n (length l)) l.
Proof.
  unfold Str.slice, Str.clampIndex. simpl.
  destruct (Z.ltb_spec (Z.of_nat n) 0); [lia|].
  rewrite Nat2Z.id, Nat.sub_0_r. done.
Qed.

Lemma slice_tail {A} (l : list A) (n : nat) :
  1 <= n ->
  Str.sliceFrom l (- Z.of_nat n) = drop (length l - Nat.min n (length l)) l.
Proof.
  intros Hn. unfold Str.sliceFrom, Str.clampIndex.
  destruct (Z.ltb_spec (- Z.of_nat n) 0); [|lia].
  f_equal. lia.
Qed.

Section Reads.
Variable shell : Shell.
Variable root : AbsPath.
Variables (args : JsObject) (disk : Node) (filePath : AbsPath) (content : string).
Hypothesis accepted :
  resolvePath root (Js.ToString (Js.prop args "path")) disk = (inr filePath, disk).
Hypothesis present : Fs.lookup filePath disk = Some (File content).

Lemma readFile_found : readFile root args disk = (Output content, disk).
Proof.
  unfold readFile, tryCatch, bind. rewrite accepted.
  unfold FsOps.existsSync, FsOps.readFileSync. rewrite present.
  rewrite bool_decide_eq_true_2 by eauto. simpl. by rewrite present.
Qed.

Lemma headFile_found :
  headFile root args disk
  = (Output (Str.join Str.nl
               (Str.slice (Str.split "010"%char content) 0
                  (Js.numberOr (Js.ToNumber (Js.prop args "lines")) 100))), disk).
Proof.
  unfold headFile, tryCatch, bind. rewrite accepted.
  unfold FsOps.existsSync, FsOps.readFileSync. rewrite present.
  rewrite bool_decide_eq_true_2 by eauto. simpl. by rewrite present.
Qed.

Lemma tailFile_found :
  tailFile root args disk
  = (Output (Str.join Str.nl
               (Str.sliceFrom (Str.split "010"%char content)
                  (- Js.numberOr (Js.ToNumber (Js.prop args "lines")) 100))), disk).
Proof.
  unfold tailFile, tryCatch, bind. rewrite accepted.
  unfold FsOps.existsSync, FsOps.readFileSync. rewrite present.
  rewrite bool_decide_eq_true_2 by eauto. simpl. by rewrite present.
Qed.
End Reads.

Lemma requestedLines_numberOr v n :
  requestedLines v n -> Js.numberOr (Js.ToNumber v) 100 = Z.of_nat n.
Proof.
  intros [[-> Hn]|[-> ->]]; simpl; [|done].
  destruct (Z.eqb_spec (Z.of_nat n) 0); [lia|done].
Qed.


Lemma startsWith_inv p s : Str.startsWith p s = true -> exists t, s = p +:+ t.
Proof.
  revert s; induction p as [|a p IH]; intros s H; [by exists s|].
  destruct s as [|b s]; [done|]. simpl in H.
  destruct (Ascii.eqb_spec a b) as [->|]; [|done].
  destruct (IH _ H) as [t ->]. by exists t.
Qed.

Lemma drop_length_app p t : Str.drop (String.length p) (p +:+ t) = t.
Proof. induction p as [|c p IH]; [by destruct t|]. by rewrite sapp_cons. Qed.

Lemma cut_Some pat s before after :
  Str.cut pat s = Some (before, after) -> s = before +:+ pat +:+ after.
Proof.
  revert before after; induction s as [|c s IH]; intros before after; simpl.
  - destruct (Str.startsWith pat "") eqn:E; [|done].
    intros [= <- <-]. destruct pat; [by destruct (String.length _)|done].
  - destruct (Str.startsWith pat (String c s)) eqn:E.
    + intros [= <- <-]. destruct (startsWith_inv _ _ E) as [t Ht].
      rewrite Ht at 2. by rewrite drop_length_app.
    + destruct (Str.cut pat s) as [[b a]|]; [|done].
      intros [= <- <-]. rewrite sapp_cons. f_equal. by apply IH.
Qed.

(** no occurrence of [pat] starts before the one [cut] finds *)
Lemma cut_first pat s before after :
  Str.cut pat s = Some (before, after) ->
  forall before' after', s = before' +:+ pat +:+ after' ->
  String.length before <= String.length before'.
Proof.
  revert before; induction s as [|c s IH]; intros before; simpl.
  - destruct (Str.startsWith pat ""); [|done]. intros [= <- _] ? ? _. simpl. lia.
  - destruct (Str.startsWith pat (String c s)) eqn:E.
    + intros [= <- _] ? ? _. simpl. lia.
    + destruct (Str.cut pat s) as [[b a]|] eqn:C; [|done].
      intros [= <- <-] before' after' Hs.
      destruct before' as [|c' before'].
      * rewrite Hs in E. change ("" +:+ pat +:+ after') with (pat +:+ after') in E.
        by rewrite startsWith_app in E.
      * rewrite sapp_cons in Hs. injection Hs as -> Hs. simpl.
        specialize (IH b eq_refl _ _ Hs). lia.
Qed.

Lemma getSubstitution_literal matched before after replacement :
  dollarFree replacement = true ->
  Str.getSubstitution matched before after replacement = replacement.
Proof.
  induction replacement as [|c r IH]; [done|]. simpl.
  destruct (Ascii.eqb c "$"); simpl; [done|]. intros H. by rewrite IH.
Qed.

Lemma assoc_setEntry s n es : Fs.assoc s (Fs.setEntry s n es) = Some n.
Proof.
  induction es as [|[k old] es IH]; simpl.
  - by rewrite String.eqb_refl.
  - destruct (String.eqb k s) eqn:E; simpl; by rewrite E.
Qed.

(** writing over a regular file succeeds and leaves the new content there *)
Lemma writeAt_existing full p disk old new :
  Fs.lookup p disk = Some (File old) ->
  exists disk', Fs.writeAt full p new disk = inr disk'
                /\ Fs.lookup p disk' = Some (File new).
Proof.
  revert disk; induction p as [|s p IH]; intros disk; simpl.
  - intros [= ->]. eauto.
  - destruct disk as [|es]; [done|].
    destruct (Fs.assoc s es) as [child|] eqn:E; [|done].
    intros H. destruct (IH _ H) as (child' & -> & L).
    eexists. split; [done|]. simpl. by rewrite assoc_setEntry.
Qed.

(** [edit_file] with a replacement text free of [$]: the first occurrence
    of the old text (see [cut_Some] and [cut_first]) is replaced by the new
    text, verbatim, and the result is written back. *)
Lemma editFile_literal root args disk filePath content before after :
  let path := Js.ToString (Js.prop args "path") in
  let oldString := Js.ToString (Js.prop args "old_string") in
  let newString := Js.ToString (Js.prop args "new_string") in
  resolvePath root path disk = (inr filePath, disk) ->
  Fs.lookup filePath disk = Some (File content) ->
  Str.cut oldString content = Some (before, after) ->
  dollarFree newString = true ->
  exists disk',
    editFile root args disk = (Output ("File edited: " +:+ path), disk')
    /\ Fs.lookup filePath disk' = Some (File (before +:+ newString +:+ after)).
Proof.
  intros path oldString newString Hacc Hfile Hcut Hfree.
  destruct (writeAt_existing filePath filePath disk _
              (before +:+ newString +:+ after) Hfile) as (disk' & W & L).
  exists disk'. split; [|done].
  unfold editFile, tryCatch, bind. fold path oldString newString. rewrite Hacc.
  unfold FsOps.existsSync, FsOps.readFileSync, FsOps.writeFileSync.
  rewrite bool_decide_eq_true_2 by (rewrite Hfile; eauto). simpl. rewrite Hfile.
  unfold Str.includes, Str.replace. rewrite Hcut. simpl.
  rewrite getSubstitution_literal by done. by rewrite W.
Qed.

Lemma exactlyOne_Output s : exactlyOne (Output s).
Proof. left. split; [by eexists | done]. Qed.
Lemma exactlyOne_Err s : exactlyOne (Err s).
Proof. right. split; [done | by eexists]. Qed.
#[local] Hint Resolve exactlyOne_Output exactlyOne_Err : core.

(** a [try] block whose every [return] builds an output or an error *)
Lemma tryCatch_exactlyOne (body : Exec ToolResult) disk :
  (forall r disk', body disk = (inr r, disk') -> exactlyOne r) ->
  exactlyOne (tryCatch body caught disk).1.
Proof.
  intros H. unfold tryCatch. destruct (body disk) as [[e|r] disk'] eqn:E; simpl.
  - apply exactlyOne_Err.
  - eauto.
Qed.

Ltac exec_cases :=
  repeat match goal with
         | H : bind _ _ _ = _ |- _ => unfold bind at 1 in H
         | H : context [match ?m ?d with _ => _ end] |- _ =>
             let E := fresh "E" in destruct (m d) as [[?|?] ?] eqn:E
         | H : (if ?b then _ else _) _ = _ |- _ => destruct b
         | H : (if ?b then _ else _) = _ |- _ => destruct b
         | H : ret _ _ = _ |- _ => unfold ret in H
         | H : (inr _, _) = (inr _, _) |- _ => inversion H; subst; clear H
         | H : (inl _, _) = (inr _, _) |- _ => discriminate H
         end.

Lemma executeTool_exactlyOne shell root name args disk :
  exactlyOne (executeTool shell root name args disk).1.
Proof.
  unfold executeTool.
  repeat match goal with |- context [if ?b then _ else _] => destruct b end;
    try (apply tryCatch_exactlyOne; intros r disk' H; exec_cases; auto).
  - unfold runCommand.
    destruct (shell _ _ _) as [[out|out err msg] disk']; simpl; [auto|].
    destruct (_ || _); simpl; auto.
  - simpl. auto.
Qed.

(** C5. For a file of [k] lines and a requested count [n] of at least one
    (or no count, and [n] is the default of 100), [head_file] returns the
    first [min n k] lines and [tail_file] the last [min n k] lines, joined
    with newlines; when [n >= k] both return the whole content, not an
    error. *)
Theorem head_tail_lines shell root args disk filePath content n :
  resolvePath root (Js.ToString (Js.prop args "path")) disk = (inr filePath, disk) ->
  Fs.lookup filePath disk = Some (File content) ->
  requestedLines (Js.prop args "lines") n ->
  let fileLines := Str.split "010"%char content in
  let k := length fileLines in
  executeTool shell root "head_file" args disk
  = (Output (Str.join Str.nl (take (Nat.min n k) fileLines)), disk)
  /\ executeTool shell root "tail_file" args disk
     = (Output (Str.join Str.nl (drop (k - Nat.min n k) fileLines)), disk)
  /\ (k <= n ->
      executeTool shell root "head_file" args disk = (Output content, disk)
      /\ executeTool shell root "tail_file" args disk = (Output content, disk)).
Proof.
  intros Hacc Hfile Hn fileLines k.
  assert (Hz := requestedLines_numberOr _ _ Hn).
  assert (1 <= n) as Hpos by (destruct Hn as [[_ ?]|[_ ->]]; lia).
  assert (Hhead : executeTool shell root "head_file" args disk
    = (Output (Str.join Str.nl (take (Nat.min n k) fileLines)), disk)).
  { change (executeTool shell root "head_file" args disk) with (headFile root args disk).
    rewrite (headFile_found _ _ _ _ _ Hacc Hfile), Hz, slice_head. done. }
  assert (Htail : executeTool shell root "tail_file" args disk
    = (Output (Str.join Str.nl (drop (k - Nat.min n k) fileLines)), disk)).
  { change (executeTool shell root "tail_file" args disk) with (tailFile root args disk).
    rewrite (tailFile_found _ _ _ _ _ Hacc Hfile), Hz, slice_tail by done. done. }
  split; [done|]. split; [done|].
  intros Hk. rewrite Hhead, Htail.
  rewrite Nat.min_r by done. rewrite Nat.sub_diag, drop_0.
  unfold k. rewrite firstn_all. unfold fileLines.
  change Str.nl with (String "010"%char ""). by rewrite join_split.
Qed.

Lemma head_tail_lines_witness :
  executeTool Sample.quietShell Sample.root "head_file"
    [("path", JString "notes.txt"); ("lines", JNumber (Int 2))] Sample.disk
  = (Output ("one" +:+ Str.nl +:+ "two"), Sample.disk)
  /\ executeTool Sample.quietShell Sample.root "tail_file"
       [("path", JString "notes.txt"); ("lines", JNumber (Int 2))] Sample.disk
     = (Output ("two" +:+ Str.nl +:+ "three"), Sample.disk).
Proof.
  destruct (head_tail_lines Sample.quietShell Sample.root
              [("path", JString "notes.txt"); ("lines", JNumber (Int 2))]
              Sample.disk ["proj"; "notes.txt"] Sample.threeLines 2
              eq_refl eq_refl (or_introl (conj eq_refl (le_S 1 1 (le_n 1)))))
    as (Hh & Ht & _).
  split; [exact Hh | exact Ht].
Defined.

(** C5, as stated, fails for a requested count of zero: [head_file] on the
    three lines of [notes.txt] with [lines = 0] returns all three lines, not
    the first [min 0 3 = 0] of them. *)
Lemma head_zero_lines_counterexample :
  length (Str.split "010"%char Sample.threeLines) = 3
  /\ executeTool Sample.quietShell Sample.root "head_file"
       [("path", JString "notes.txt"); ("lines", JNumber (Int 0))] Sample.disk
     = (Output Sample.threeLines, Sample.disk)
  /\ Output Sample.threeLines
     <> Output (Str.join Str.nl
                  (take (Nat.min 0 3) (Str.split "010"%char Sample.threeLines))).
Proof. split; [reflexivity | split; [reflexivity | discriminate]]. Qed.

(** the scenario of the design document: [foo] becomes [bar] in [foobaz] *)
Example editFile_foobaz :
  exists disk',
    executeTool Sample.quietShell Sample.root "edit_file"
      [("path", JString "a.txt"); ("old_string", JString "foo");
       ("new_string", JString "bar")] Sample.disk
    = (Output "File edited: a.txt", disk')
    /\ Fs.lookup ["proj"; "a.txt"] disk' = Some (File "barbaz").
Proof. eexists. split; reflexivity. Qed.

(** C4. [edit_file] hands the new text to [String.prototype.replace] as a
    replacement pattern: asked to put [$$5] in place of [X] in the file
    [price: X], it confirms the edit and leaves [price: $5] in the file, not
    [price: $$5]. *)
Theorem editFile_dollar_pattern :
  exists disk',
    executeTool Sample.quietShell Sample.root "edit_file"
      [("path", JString "price.txt"); ("old_string", JString "X");
       ("new_string", JString "$$5")] Sample.disk
    = (Output "File edited: price.txt", disk')
    /\ Fs.lookup ["proj"; "price.txt"] disk' = Some (File "price: $5")
    /\ Str.cut "X" "price: X" = Some ("price: ", "")
    /\ "price: $5" <> "price: " +:+ "$$5" +:+ "".
Proof.
  eexists. split; [reflexivity|]. split; [reflexivity|]. split; [reflexivity|].
  discriminate.
Qed.

(** ** The shape of results *)

Lemma head_of_blank z : Str.join Str.nl (Str.slice [""] 0 z) = "".
Proof.
  unfold Str.slice. simpl length.
  generalize (Str.clampIndex 1 z - Str.clampIndex 1 0). intros [|[|n]]; reflexivity.
Qed.

Lemma tail_of_blank z : Str.join Str.nl (Str.sliceFrom [""] z) = "".
Proof.
  unfold Str.sliceFrom. simpl length.
  generalize (Str.clampIndex 1 z). intros [|n]; [reflexivity|]. by destruct n.
Qed.

(** C9. Every result of [executeTool] holds exactly one of an output and an
    error. The empty content of a file is returned as the explicit empty
    string by [read_file], [head_file] and [tail_file]; [list_dir] and
    [run_command] put the texts [(empty directory)] and [(no output)] in the
    place of an empty result. *)
Theorem result_shape shell root :
  (forall name args disk, exactlyOne (executeTool shell root name args disk).1)
  /\ (forall name args disk filePath,
        In name [TOOL_NAMES.READ_FILE; TOOL_NAMES.HEAD_FILE; TOOL_NAMES.TAIL_FILE] ->
        resolvePath root (Js.ToString (Js.prop args "path")) disk = (inr filePath, disk) ->
        Fs.lookup filePath disk = Some (File "") ->
        executeTool shell root name args disk = (Output "", disk))
  /\ (forall args disk dirPath,
        resolvePath root (Js.ToString (Js.prop args "path")) disk = (inr dirPath, disk) ->
        Fs.lookup dirPath disk = Some (Dir []) ->
        executeTool shell root "list_dir" args disk = (Output "(empty directory)", disk))
  /\ (forall args disk disk',
        shell (Js.ToString (Js.prop args "command")) root disk = (ExecOk "", disk') ->
        executeTool shell root "run_command" args disk = (Output "(no output)", disk')).
Proof.
  split; [intros; apply executeTool_exactlyOne|].
  split; [|split].
  - intros name args disk filePath Hname Hacc Hfile. simpl in Hname.
    destruct Hname as [<-|[<-|[<-|[]]]].
    + change (readFile root args disk = (Output "", disk)).
      by rewrite (readFile_found _ _ _ _ _ Hacc Hfile).
    + change (headFile root args disk = (Output "", disk)).
      rewrite (headFile_found _ _ _ _ _ Hacc Hfile).
      change (Str.split "010" "") with [""]. by rewrite head_of_blank.
    + change (tailFile root args disk = (Output "", disk)).
      rewrite (tailFile_found _ _ _ _ _ Hacc Hfile).
      change (Str.split "010" "") with [""]. by rewrite tail_of_blank.
  - intros args disk dirPath Hacc Hdir.
    change (listDir root args disk = (Output "(empty directory)", disk)).
    unfold listDir, tryCatch, bind. rewrite Hacc.
    unfold FsOps.existsSync, FsOps.readdirSync.
    rewrite bool_decide_eq_true_2 by (rewrite Hdir; eauto). simpl. by rewrite Hdir.
  - intros args disk disk' Hsh.
    change (runCommand shell root args disk = (Output "(no output)", disk')).
    unfold runCommand. by rewrite Hsh.
Qed.

Lemma result_shape_witness :
  executeTool Sample.quietShell Sample.root "read_file"
    [("path", JString "blank.txt")] Sample.disk = (Output "", Sample.disk)
  /\ executeTool Sample.quietShell Sample.root "list_dir"
       [("path", JString "empty")] Sample.disk
     = (Output "(empty directory)", Sample.disk)
  /\ executeTool Sample.quietShell Sample.root "run_command"
       [("command", JString "true")] Sample.disk
     = (Output "(no output)", Sample.disk).
Proof.
  destruct (result_shape Sample.quietShell Sample.root) as (_ & Hread & Hlist & Hrun).
  split; [|split].
  - apply (Hread _ _ _ ["proj"; "blank.txt"]); [simpl; tauto | reflexivity | reflexivity].
  - apply (Hlist _ _ ["proj"; "empty"]); reflexivity.
  - apply Hrun. reflexivity.
Defined.

(** C9, as stated, fails for the listing of an empty directory and for a
    command without output: the result is not the empty string but a text
    standing in for it. *)
Lemma empty_result_counterexample :
  listRecursive false (Dir []) "" = []
  /\ output (executeTool Sample.quietShell Sample.root "list_dir"
               [("path", JString "empty")] Sample.disk).1
     = Some "(empty directory)"
  /\ output (executeTool Sample.quietShell Sample.root "run_command"
               [("command", JString "true")] Sample.disk).1
     = Some "(no output)"
  /\ Some "(empty directory)" <> Some ""
  /\ Some "(no output)" <> Some "".
Proof.
  split; [reflexivity|]. split; [reflexivity|]. split; [reflexivity|].
  split; discriminate.
Qed.

(** ** Compaction: the two loops of [summarizeToolCalls] *)

Lemma plainTurns_all l : forallb isPlain l = true -> plainTurns l = l.
Proof.
  induction l as [|m l IH]; [done|]. simpl.
  intros [Hm Hl]%andb_true_iff. rewrite Hm. f_equal. by apply IH.
Qed.

Lemma toolTurns_all_plain l : forallb isPlain l = true -> toolTurns l = [].
Proof.
  induction l as [|m l IH]; [done|]. simpl.
  intros [Hm Hl]%andb_true_iff. unfold isPlain in Hm.
  destruct (hasToolCall m); [done|]. by apply IH.
Qed.

Lemma plainTurns_app l1 l2 : plainTurns (l1 ++ l2) = plainTurns l1 ++ plainTurns l2.
Proof. apply List.filter_app. Qed.

Lemma toolTurns_app l1 l2 : toolTurns (l1 ++ l2) = toolTurns l1 ++ toolTurns l2.
Proof. apply List.filter_app. Qed.

Lemma turns_length l : length l = length (toolTurns l) + length (plainTurns l).
Proof.
  induction l as [|m l IH]; [done|]. simpl. unfold isPlain.
  destruct (hasToolCall m); simpl; lia.
Qed.

(** a conversation with a tool turn splits at its last tool turn *)
Lemma last_tool_split l :
  toolTurns l <> [] ->
  exists pre t post,
    l = pre ++ t :: post /\ hasToolCall t = true /\ forallb isPlain post = true.
Proof.
  induction l as [|m l IH]; [done|]. intros H.
  destruct (toolTurns l) as [|t0 ts] eqn:E.
  - simpl in H. destruct (hasToolCall m) eqn:Hm; [|by rewrite E in H].
    exists [], m, l. split; [done|]. split; [done|].
    clear -E. induction l as [|x l IH]; [done|]. simpl in *.
    unfold isPlain. destruct (hasToolCall x); [done|]. simpl. by apply IH.
  - destruct IH as (pre & t & post & -> & Ht & Hpost); [done|].
    by exists (m :: pre), t, post.
Qed.

(** *** The first loop *)

Lemma classifyFrom_turns i l :
  (classifyFrom i l).1 = (toolTurns l, plainTurns l).
Proof.
  revert i; induction l as [|m l IH]; intros i; [done|]. simpl.
  specialize (IH (S i)). destruct (classifyFrom (S i) l) as [[ts os] idx].
  simpl in IH. injection IH as -> ->. unfold isPlain.
  by destruct (hasToolCall m).
Qed.

Lemma classifyFrom_indices_length i l :
  length (classifyFrom i l).2 = length (toolTurns l).
Proof.
  revert i; induction l as [|m l IH]; intros i; [done|]. simpl.
  specialize (IH (S i)). destruct (classifyFrom (S i) l) as [[ts os] idx].
  simpl in IH. destruct (hasToolCall m); simpl; by rewrite IH.
Qed.

Lemma classifyFrom_indices_ge i l j :
  j < i -> existsb (Nat.eqb j) (classifyFrom i l).2 = false.
Proof.
  revert i; induction l as [|m l IH]; intros i Hj; [done|]. simpl.
  specialize (IH (S i) ltac:(lia)). destruct (classifyFrom (S i) l) as [[ts os] idx].
  simpl in IH. destruct (hasToolCall m); simpl; [|done].
  rewrite IH. destruct (Nat.eqb_spec j i); [lia|done].
Qed.

(** the index of a turn is recorded exactly when the turn is a tool turn *)
Lemma classifyFrom_indices_mem i l k m :
  l !! k = Some m ->
  existsb (Nat.eqb (i + k)) (classifyFrom i l).2 = hasToolCall m.
Proof.
  revert i k; induction l as [|x l IH]; intros i k; [done|]. simpl.
  destruct k as [|k]; simpl.
  - intros [= ->]. rewrite Nat.add_0_r.
    pose proof (classifyFrom_indices_ge (S i) l i ltac:(lia)) as G.
    destruct (classifyFrom (S i) l) as [[ts os] idx]. simpl in G.
    destruct (hasToolCall m); simpl; [|done].
    by rewrite Nat.eqb_refl.
  - intros Hk. specialize (IH (S i) k Hk).
    replace (S i + k) with (i + S k) in IH by lia.
    destruct (classifyFrom (S i) l) as [[ts os] idx]. simpl in IH.
    destruct (hasToolCall x); simpl; [|done].
    rewrite IH. destruct (Nat.eqb_spec (i + S k) i); [lia|done].
Qed.

Lemma classifyFrom_indices_last i pre t post d :
  hasToolCall t = true -> forallb isPlain post = true ->
  List.last (classifyFrom i (pre ++ t :: post)).2 d = i + length pre.
Proof.
  intros Ht Hpost. revert i; induction pre as [|m pre IH]; intros i.
  - simpl. pose proof (classifyFrom_indices_length (S i) post) as L.
    rewrite (toolTurns_all_plain _ Hpost) in L.
    destruct (classifyFrom (S i) post) as [[ts os] idx]. simpl in L.
    rewrite Ht. simpl. destruct idx; [|done]. simpl. lia.
  - simpl. specialize (IH (S i)).
    pose proof (classifyFrom_indices_length (S i) (pre ++ t :: post)) as L.
    rewrite toolTurns_app in L. simpl in L. rewrite Ht in L.
    rewrite length_app in L. simpl in L.
    destruct (classifyFrom (S i) (pre ++ t :: post)) as [[ts os] idx].
    simpl in IH, L. destruct (hasToolCall m); simpl.
    + destruct idx as [|j idx]; [simpl in L; lia|]. rewrite IH. lia.
    + rewrite IH. lia.
Qed.

(** *** The second loop *)

Section Splice.
Variable idx : list nat.
Variable s : Content.

Lemma marks_tail i m l : marks idx i (m :: l) -> marks idx (S i) l.
Proof.
  intros H k x Hk. replace (S i + k) with (i + S k) by lia. by apply H.
Qed.

Lemma marks_head i m l : marks idx i (m :: l) -> existsb (Nat.eqb i) idx = hasToolCall m.
Proof. intros H. specialize (H 0 m eq_refl). by rewrite Nat.add_0_r in H. Qed.

Lemma marks_app_r i l1 l2 : marks idx i (l1 ++ l2) -> marks idx (i + length l1) l2.
Proof.
  intros H k x Hk. replace (i + length l1 + k) with (i + (length l1 + k)) by lia.
  apply H. by rewrite lookup_app_r, Nat.add_comm, Nat.add_sub by lia.
Qed.

Lemma marks_app_l i l1 l2 : marks idx i (l1 ++ l2) -> marks idx i l1.
Proof. intros H k x Hk. apply H. by apply lookup_app_l_Some. Qed.

Lemma spliceFrom_app i l1 l2 added :
  spliceFrom i (l1 ++ l2) idx s added
  = let '(r1, a1) := spliceFrom i l1 idx s added in
    let '(r2, a2) := spliceFrom (i + length l1) l2 idx s a1 in
    (r1 ++ r2, a2).
Proof.
  revert i added; induction l1 as [|m l1 IH]; intros i added; simpl.
  - rewrite Nat.add_0_r. by destruct (spliceFrom i l2 idx s added).
  - replace (i + S (length l1)) with (S i + length l1) by lia.
    destruct (negb (existsb (Nat.eqb i) idx)).
    + rewrite IH.
      destruct (spliceFrom (S i) l1 idx s _) as [r1 a1].
      destruct (spliceFrom (S i + length l1) l2 idx s a1) as [r2 a2].
      by rewrite <- app_assoc.
    + apply IH.
Qed.

(** up to the last tool turn: plain turns are kept, nothing is added *)
Lemma spliceFrom_before i l :
  marks idx i l -> i + length l <= S (List.last idx 0) ->
  spliceFrom i l idx s false = (plainTurns l, false).
Proof.
  revert i; induction l as [|m l IH]; intros i Hm Hlen; [done|]. simpl in *.
  rewrite (marks_head _ _ _ Hm). unfold isPlain.
  destruct (hasToolCall m); simpl.
  - apply IH; [by eapply marks_tail | lia].
  - destruct (Nat.ltb_spec (List.last idx 0) i); [lia|].
    rewrite andb_false_r. simpl.
    rewrite IH; [done | by eapply marks_tail | lia].
Qed.

(** once the summary is in, the plain turns that remain are kept *)
Lemma spliceFrom_added i l :
  marks idx i l -> forallb isPlain l = true ->
  spliceFrom i l idx s true = (l, true).
Proof.
  revert i; induction l as [|m l IH]; intros i Hm Hp; [done|]. simpl in *.
  apply andb_true_iff in Hp as [Hp1 Hp2].
  rewrite (marks_head _ _ _ Hm). unfold isPlain in Hp1.
  destruct (hasToolCall m); [done|]. simpl.
  rewrite IH; [done | by eapply marks_tail | done].
Qed.

(** after the last tool turn: the summary goes in front of the first plain turn *)
Lemma spliceFrom_after i l :
  marks idx i l -> forallb isPlain l = true ->
  0 < length idx -> List.last idx 0 < i ->
  spliceFrom i l idx s false
  = match l with [] => ([], false) | _ :: _ => (s :: l, true) end.
Proof.
  intros Hm Hp Hidx Hlast. destruct l as [|m l]; [done|]. simpl in *.
  apply andb_true_iff in Hp as [Hp1 Hp2].
  rewrite (marks_head _ _ _ Hm). unfold isPlain in Hp1.
  destruct (hasToolCall m); [done|]. simpl.
  destruct (Nat.ltb_spec 0 (length idx)); [|lia].
  destruct (Nat.ltb_spec (List.last idx 0) i); [|lia]. simpl.
  rewrite spliceFrom_added; [done | by eapply marks_tail | done].
Qed.
End Splice.

(** The conversation after the two loops: the plain turns in order, the
    summary right where the last tool turn was. *)
Lemma spliceSummary_spec pre t post s :
  hasToolCall t = true -> forallb isPlain post = true ->
  spliceSummary (pre ++ t :: post) (classifyFrom 0 (pre ++ t :: post)).2 s
  = plainTurns pre ++ s :: post.
Proof.
  intros Ht Hpost. set (l := pre ++ t :: post). set (idx := (classifyFrom 0 l).2).
  assert (Hm : marks idx 0 l) by (intros k m Hk; by apply classifyFrom_indices_mem).
  assert (Hlast : List.last idx 0 = length pre)
    by (unfold idx, l; by rewrite classifyFrom_indices_last).
  assert (Hlen : 0 < length idx).
  { unfold idx. rewrite classifyFrom_indices_length. unfold l.
    rewrite toolTurns_app, length_app. simpl. rewrite Ht. simpl. lia. }
  unfold spliceSummary, l. rewrite spliceFrom_app.
  rewrite spliceFrom_before; [|by eapply marks_app_l | lia].
  change (t :: post) with ([t] ++ post). rewrite spliceFrom_app. simpl.
  assert (Ht' : existsb (Nat.eqb (length pre)) idx = true).
  { rewrite <- Ht. rewrite <- (Nat.add_0_l (length pre)).
    apply (Hm (length pre) t). unfold l. by rewrite list_lookup_middle. }
  fold idx l. rewrite Ht'. simpl.
  assert (Hmp : marks idx (length pre + 1) post).
  { pose proof (marks_app_r idx 0 (pre ++ [t]) post) as Hm'.
    rewrite length_app, <- app_assoc in Hm'. by apply Hm'. }
  rewrite spliceFrom_after; [|done|done|done|lia].
  destruct post; simpl; by rewrite ?app_nil_r.
Qed.

(** ** Worlds and traces *)

Lemma appendTrace_app evs1 evs2 w :
  appendTrace evs2 (appendTrace evs1 w) = appendTrace (evs1 ++ evs2) w.
Proof. unfold appendTrace. simpl. by rewrite app_assoc. Qed.

Lemma logEvent_appendTrace e w : logEvent e w = appendTrace [e] w.
Proof. reflexivity. Qed.

Lemma countEvents_app f l1 l2 : countEvents f (l1 ++ l2) = countEvents f l1 + countEvents f l2.
Proof. unfold countEvents. by rewrite List.filter_app, length_app. Qed.

(** ** The retry wrapper *)

Section Retry.
Variable env : Env.
Variable params : GenerateContentParams.

Lemma ai_generateContent_settles w :
  ai_generateContent env params w
  = (settle (generateContent env (countEvents isGenerate (trace w)) params),
     appendTrace [EvGenerate params] w).
Proof. unfold ai_generateContent. by destruct (generateContent env _ params). Qed.

Lemma generateContentAttempts_protocol n j w :
  j <= n ->
  (forall i, i < j ->
     rateLimited (generateContent env (countEvents isGenerate (trace w) + i) params) = true) ->
  (j < n ->
     rateLimited (generateContent env (countEvents isGenerate (trace w) + j) params) = false) ->
  generateContentAttempts env n params w
  = (settle (generateContent env (countEvents isGenerate (trace w) + j) params),
     appendTrace (retryEvents params j ++ [EvGenerate params]) w).
Proof.
  revert j w; induction n as [|n IH]; intros j w Hj Hbefore Hat.
  - assert (j = 0) as -> by lia. simpl. rewrite Nat.add_0_r.
    apply ai_generateContent_settles.
  - simpl. rewrite ai_generateContent_settles.
    destruct j as [|j].
    + rewrite Nat.add_0_r in *. specialize (Hat ltac:(lia)).
      destruct (generateContent env _ params) as [r|e|]; simpl in *; [done| |done].
      by rewrite Hat.
    + pose proof (Hbefore 0 ltac:(lia)) as H0. rewrite Nat.add_0_r in H0.
      destruct (generateContent env (countEvents isGenerate (trace w)) params)
        as [r|e|]; simpl in H0; try done.
      simpl. rewrite H0. unfold abind, sleep, emit. rewrite !logEvent_appendTrace.
      rewrite appendTrace_app. simpl.
      assert (Hc : countEvents isGenerate
                     (trace (appendTrace [EvGenerate params; EvSleep 60000] w))
                   = S (countEvents isGenerate (trace w))).
      { simpl. rewrite countEvents_app. simpl. unfold countEvents at 2. simpl. lia. }
      rewrite (IH j).
      * rewrite Hc, appendTrace_app.
        replace (S (countEvents isGenerate (trace w)) + j)
          with (countEvents isGenerate (trace w) + S j) by lia.
        done.
      * lia.
      * intros i Hi. rewrite Hc.
        replace (S (countEvents isGenerate (trace w)) + i)
          with (countEvents isGenerate (trace w) + S i) by lia.
        apply Hbefore. lia.
      * intros Hlt. rewrite Hc.
        replace (S (countEvents isGenerate (trace w)) + j)
          with (countEvents isGenerate (trace w) + S j) by lia.
        apply Hat. lia.
Qed.

(** whatever the replies, the wrapper only adds events, the last of them
    a call of the API *)
Lemma generateContentAttempts_trace n w :
  exists evs,
    (generateContentAttempts env n params w).2
    = appendTrace (evs ++ [EvGenerate params]) w
    /\ Forall (fun e => e = EvGenerate params \/ e = EvSleep 60000) evs.
Proof.
  revert w; induction n as [|n IH]; intros w; simpl.
  - exists []. by rewrite ai_generateContent_settles.
  - rewrite ai_generateContent_settles.
    destruct (settle _) as [r|e|]; simpl; try (by exists []).
    destruct (isRateLimit e); [|by exists []].
    unfold abind, sleep, emit. simpl. rewrite !logEvent_appendTrace, appendTrace_app.
    destruct (IH (appendTrace ([EvGenerate params] ++ [EvSleep 60000]) w))
      as (evs & -> & Hevs).
    exists ([EvGenerate params; EvSleep 60000] ++ evs).
    rewrite appendTrace_app. split.
    + f_equal; by rewrite <- ?app_assoc.
    + apply Forall_app. split; [|done].
      constructor; [by left|]. constructor; [by right|]. constructor.
Qed.
End Retry.

(** C8. A call through [generateContentWithRetry] retries exactly the errors
    recognised as rate limiting, each after a pause of 60000 ms, at most three
    times: with [j] the first attempt whose reply is not such an error
    (or [j = 3], the cap), the wrapper makes [j + 1] calls and [j] pauses and
    ends as the reply of attempt [j] does: it returns its response or throws
    its error, be it the first error of another kind (no retry) or the
    rate-limit error left once the cap is reached. *)
Theorem retry_protocol env params w j :
  let replyAt i := generateContent env (countEvents isGenerate (trace w) + i) params in
  j <= 3 ->
  (forall i, i < j -> rateLimited (replyAt i) = true) ->
  (j < 3 -> rateLimited (replyAt j) = false) ->
  generateContentWithRetry env params 3 w
  = (settle (replyAt j), appendTrace (retryEvents params j ++ [EvGenerate params]) w).
Proof. intros replyAt. apply generateContentAttempts_protocol. Qed.

(** ** Compaction, as [summarizeToolCalls] performs it *)

Lemma hasToolCall_iff msg :
  hasToolCall msg = true
  <-> exists p, p ∈ default [] (parts msg)
                /\ (is_Some (functionCall p) \/ is_Some (functionResponse p)).
Proof.
  unfold hasToolCall. rewrite existsb_exists. split.
  - intros (p & Hin & Hp). exists p. split; [by apply list_elem_of_In|].
    unfold isToolPart in Hp.
    destruct (functionCall p); [left; eauto|].
    destruct (functionResponse p); [right; eauto | done].
  - intros (p & Hin & Hp). exists p. split; [by apply list_elem_of_In|].
    unfold isToolPart. destruct Hp as [[x ->]|[x ->]]; [done|].
    by destruct (functionCall p).
Qed.

Section Summarize.
Variable env : Env.
Variables (contents : Ref) (w : World).


Lemma summarizeToolCalls_skips :
  length (toolTurns (deref w contents)) < 4 ->
  summarizeToolCalls env contents w = (Returned contents, w).
Proof.
  intros Hlt. unfold summarizeToolCalls, abind, readArray.
  pose proof (classifyFrom_turns 0 (deref w contents)) as E.
  destruct (classifyFrom 0 (deref w contents)) as [[ts os] idx]. simpl in E. injection E as -> ->.
  destruct (Nat.ltb_spec (length (toolTurns (deref w contents))) 4); [done|lia].
Qed.

Lemma summarizeToolCalls_fires resp w1 pre t post :
  4 <= length (toolTurns (deref w contents)) ->
  generateContentWithRetry env (summarizeParams (model (settings w)) (toolTurns (deref w contents))) 3 w = (Returned resp, w1) ->
  (deref w contents) = pre ++ t :: post -> hasToolCall t = true -> forallb isPlain post = true ->
  summarizeToolCalls env contents w
  = (Returned (length (heap w1)),
     setHeap (heap w1 ++ [plainTurns pre ++ summaryContentOf resp :: post]) w1)
  /\ heap w1 = heap w
  /\ exists evs, trace w1 = trace w ++ evs ++ [EvGenerate (summarizeParams (model (settings w)) (toolTurns (deref w contents)))].
Proof.
  intros Hge Hcall Harr Ht Hpost.
  destruct (generateContentAttempts_trace env (summarizeParams (model (settings w)) (toolTurns (deref w contents))) 3 w) as (evs & Hw1 & _).
  unfold generateContentWithRetry in Hcall. rewrite Hcall in Hw1. simpl in Hw1.
  split; [|split; [by rewrite Hw1 | exists evs; by rewrite Hw1]].
  unfold summarizeToolCalls, abind, readArray.
  pose proof (classifyFrom_turns 0 (deref w contents)) as E.
  pose proof (spliceSummary_spec pre t post (summaryContentOf resp) Ht Hpost) as S.
  rewrite <- Harr in S.
  destruct (classifyFrom 0 (deref w contents)) as [[ts os] idx]. simpl in E, S. injection E as -> ->.
  destruct (Nat.ltb_spec (length (toolTurns (deref w contents))) 4); [lia|].
  unfold SettingsStore.getModel, SettingsManager.getModel, withTimeout.
  unfold generateContentWithRetry. rewrite Hcall.
  assert (deref w1 contents = (deref w contents)) as -> by (by rewrite Hw1).
  unfold newArray. by rewrite S.
Qed.
End Summarize.

Lemma deref_new h x w : deref (setHeap (h ++ [x]) w) (length h) = x.
Proof. unfold deref. simpl. by rewrite list_lookup_middle. Qed.

(** C3. With fewer than four tool turns [summarizeToolCalls] returns the
    conversation it was given, untouched and without a call of the model.
    With four or more, and the summary call answered, the conversation splits
    at its last tool turn [t] into [pre ++ t :: post], and the compacted
    conversation is the plain turns of [pre], one summary turn, then [post]:
    every plain turn kept in order, all tool turns gone, the summary standing
    where the last tool turn was, and fewer turns than before. *)
Theorem compaction_shape env contents w :
  let arr := deref w contents in
  (length (toolTurns arr) < 4 ->
   summarizeToolCalls env contents w = (Returned contents, w))
  /\ (4 <= length (toolTurns arr) ->
      forall resp w1,
        generateContentWithRetry env
          (summarizeParams (model (settings w)) (toolTurns arr)) 3 w
        = (Returned resp, w1) ->
        exists pre t post,
          arr = pre ++ t :: post /\ hasToolCall t = true /\ forallb isPlain post = true
          /\ let result := plainTurns pre ++ summaryContentOf resp :: post in
             let w' := setHeap (heap w1 ++ [result]) w1 in
             summarizeToolCalls env contents w = (Returned (length (heap w1)), w')
             /\ deref w' (length (heap w1)) = result
             /\ plainTurns arr = plainTurns pre ++ post
             /\ plainTurns result = plainTurns pre ++ summaryContentOf resp :: post
             /\ toolTurns result = []
             /\ length result < length arr).
Proof.
  intros arr. split; [apply summarizeToolCalls_skips|].
  intros Hge resp w1 Hcall.
  destruct (last_tool_split arr) as (pre & t & post & Harr & Ht & Hpost).
  { intros E. rewrite E in Hge. simpl in Hge. lia. }
  exists pre, t, post. split; [done|]. split; [done|]. split; [done|].
  destruct (summarizeToolCalls_fires env contents w resp w1 pre t post
              Hge Hcall Harr Ht Hpost) as (Hrun & Hheap & _).
  cbv zeta. split; [done|]. split; [apply deref_new|].
  assert (Hplain : plainTurns arr = plainTurns pre ++ post).
  { rewrite Harr, plainTurns_app. simpl. unfold isPlain at 1. rewrite Ht. simpl.
    by rewrite (plainTurns_all _ Hpost). }
  split; [done|].
  assert (Hpp : plainTurns (plainTurns pre) = plainTurns pre).
  { unfold plainTurns. clear. induction pre as [|m l IH]; [done|]. simpl.
    destruct (isPlain m) eqn:E; simpl; rewrite ?E; by rewrite IH. }
  split.
  { rewrite plainTurns_app, Hpp. simpl. by rewrite (plainTurns_all _ Hpost). }
  split.
  { rewrite toolTurns_app. simpl. rewrite (toolTurns_all_plain _ Hpost).
    rewrite app_nil_r. unfold toolTurns, plainTurns. clear.
    induction pre as [|m l IH]; [done|]. simpl. unfold isPlain at 1.
    destruct (hasToolCall m) eqn:E; simpl; rewrite ?E; done. }
  pose proof (turns_length arr) as L. rewrite Hplain in L.
  rewrite !length_app in *. simpl. lia.
Qed.

Lemma plainTurns_elem msg l : msg ∈ plainTurns l <-> msg ∈ l /\ hasToolCall msg = false.
Proof.
  unfold plainTurns. rewrite !list_elem_of_In, List.filter_In. unfold isPlain.
  by rewrite negb_true_iff.
Qed.

Lemma forallb_isPlain_elem msg l :
  forallb isPlain l = true -> msg ∈ l -> hasToolCall msg = false.
Proof.
  rewrite forallb_forall, list_elem_of_In. intros H Hin.
  specialize (H _ Hin). unfold isPlain in H. by apply negb_true_iff.
Qed.

(** C10. A turn counts as a tool turn as soon as one of its parts is a
    function call or a function response. When compaction fires, no such turn
    is left in the conversation, whatever text parts it also carries: every
    turn of the result is the summary or a plain turn of the original. The
    dropped turns reach the model once more, serialised in the summary
    request. *)
Theorem tool_turns_are_dropped env contents w :
  let arr := deref w contents in
  let request := summarizeParams (model (settings w)) (toolTurns arr) in
  (forall msg,
     hasToolCall msg = true
     <-> exists p, p ∈ default [] (parts msg)
                   /\ (is_Some (functionCall p) \/ is_Some (functionResponse p)))
  /\ (4 <= length (toolTurns arr) ->
      forall resp w1,
        generateContentWithRetry env request 3 w = (Returned resp, w1) ->
        exists r w',
          summarizeToolCalls env contents w = (Returned r, w')
          /\ (forall msg, msg ∈ arr -> hasToolCall msg = true -> msg ∉ deref w' r)
          /\ (forall msg, msg ∈ deref w' r ->
                msg = summaryContentOf resp \/ (msg ∈ arr /\ hasToolCall msg = false))
          /\ (exists evs, trace w' = trace w ++ evs ++ [EvGenerate request])
          /\ gp_contents request
             = [{| role := Some "user";
                   parts := Some [textPart
                     (SUMMARIZE_PROMPT +:+ Str.nl +:+ Str.nl
                        +:+ Str.join (Str.nl +:+ Str.nl)
                              (map JSON.stringify (toolTurns arr)))] |}]).
Proof.
  intros arr request. split; [apply hasToolCall_iff|].
  intros Hge resp w1 Hcall.
  destruct (last_tool_split arr) as (pre & t & post & Harr & Ht & Hpost).
  { intros E. rewrite E in Hge. simpl in Hge. lia. }
  destruct (summarizeToolCalls_fires env contents w resp w1 pre t post
              Hge Hcall Harr Ht Hpost) as (Hrun & Hheap & Htrace).
  eexists _, _. split; [exact Hrun|]. rewrite deref_new.
  assert (Hin : forall msg,
             msg ∈ plainTurns pre ++ summaryContentOf resp :: post ->
             msg = summaryContentOf resp \/ (msg ∈ arr /\ hasToolCall msg = false)).
  { intros msg [H|H]%elem_of_app.
    - apply plainTurns_elem in H as [H1 H2]. right. split; [|done].
      rewrite Harr. apply elem_of_app. by left.
    - apply elem_of_cons in H as [->|H]; [by left|]. right. split.
      + rewrite Harr. apply elem_of_app. right. by apply elem_of_cons; right.
      + by eapply forallb_isPlain_elem. }
  split; [|split; [exact Hin|split; [exact Htrace|done]]].
  intros msg _ Htool Hres. destruct (Hin _ Hres) as [->|[_ Hplain]].
  - discriminate Htool.
  - congruence.
Qed.

(** ** The permission gate never forgets a grant *)

Section AllowStays.
Variable k : string.

Lemma allowStays_refl w : allowStays k w w.
Proof. intros H. split; [done|]. exists []. by rewrite app_nil_r. Qed.

Lemma allowStays_trans w1 w2 w3 :
  allowStays k w1 w2 -> allowStays k w2 w3 -> allowStays k w1 w3.
Proof.
  intros H12 H23 H1. destruct (H12 H1) as (H2 & evs1 & E1 & F1).
  destruct (H23 H2) as (H3 & evs2 & E2 & F2). split; [done|].
  exists (evs1 ++ evs2). split; [by rewrite E2, E1, app_assoc|].
  by apply Forall_app.
Qed.

(** a step that leaves the settings alone and logs harmless events *)
Lemma allowStays_events w w' evs :
  settings w' = settings w -> trace w' = trace w ++ evs ->
  Forall (notPromptFor k) evs -> allowStays k w w'.
Proof. intros Hs Ht Hf H. rewrite Hs. eauto. Qed.

Lemma keeps_aret {A} (a : A) : keeps (allowStays k) (aret a).
Proof. intros w. apply allowStays_refl. Qed.

Lemma keeps_abind {A B} (m : Agent A) (f : A -> Agent B) :
  keeps (allowStays k) m -> (forall a, keeps (allowStays k) (f a)) ->
  keeps (allowStays k) (abind m f).
Proof.
  intros Hm Hf w. unfold abind. specialize (Hm w).
  destruct (m w) as [[a|e|] w1]; simpl in *; [|done|done].
  eapply allowStays_trans; [exact Hm | apply Hf].
Qed.

Lemma keeps_withTimeout {A} (m : Agent A) ms msg :
  keeps (allowStays k) m -> keeps (allowStays k) (withTimeout m ms msg).
Proof.
  intros Hm w. unfold withTimeout. specialize (Hm w).
  by destruct (m w) as [[a|e|] w1].
Qed.

Lemma keeps_if {A} (b : bool) (m1 m2 : Agent A) :
  keeps (allowStays k) m1 -> keeps (allowStays k) m2 ->
  keeps (allowStays k) (if b then m1 else m2).
Proof. by destruct b. Qed.

Lemma keeps_emit e : notPromptFor k e -> keeps (allowStays k) (emit e).
Proof.
  intros He w. apply (allowStays_events _ _ [e]); [done|done|].
  by constructor.
Qed.

Lemma keeps_quiet {A} (m : Agent A) :
  (forall w, settings (m w).2 = settings w /\ trace (m w).2 = trace w) ->
  keeps (allowStays k) m.
Proof.
  intros H w. destruct (H w) as [Hs Ht].
  apply (allowStays_events _ _ []); [done| by rewrite app_nil_r |constructor].
Qed.

Lemma keeps_readArray r : keeps (allowStays k) (readArray r).
Proof. by apply keeps_quiet. Qed.

Lemma keeps_newArray l : keeps (allowStays k) (newArray l).
Proof. by apply keeps_quiet. Qed.

Lemma keeps_push r msg : keeps (allowStays k) (push r msg).
Proof. by apply keeps_quiet. Qed.

Lemma keeps_addMessage msg : keeps (allowStays k) (HistoryManager.addMessage msg).
Proof.
  intros w. unfold HistoryManager.addMessage.
  destruct (currentSession w); [|apply allowStays_refl].
  apply keeps_abind; [apply keeps_push | intros _; by apply keeps_emit].
Qed.

Lemma keeps_setCurrentSessionMessages r :
  keeps (allowStays k) (HistoryManager.setCurrentSessionMessages r).
Proof.
  intros w. unfold HistoryManager.setCurrentSessionMessages.
  destruct (currentSession w); [|apply allowStays_refl].
  apply (allowStays_events _ _ [EvSave HISTORY_FILE]); [done|done|].
  by constructor.
Qed.

Lemma keeps_getMessages : keeps (allowStays k) HistoryManager.getMessages.
Proof.
  intros w. unfold HistoryManager.getMessages.
  destruct (currentSession w); [apply allowStays_refl | apply keeps_newArray].
Qed.

Lemma keeps_getModel : keeps (allowStays k) SettingsStore.getModel.
Proof. by apply keeps_quiet. Qed.

Lemma isAllowed_setPermission s tool :
  SettingsManager.isAllowed s k = true ->
  SettingsManager.isAllowed
    (SettingsManager.setPermission s tool {| mode := allow; allowed := None |}) k = true.
Proof.
  unfold SettingsManager.isAllowed, SettingsManager.getPermission. simpl.
  destruct (decide (tool = k)) as [->|Hne].
  - by rewrite lookup_insert_eq.
  - by rewrite lookup_insert_ne.
Qed.

Lemma keeps_setPermission tool :
  keeps (allowStays k)
    (SettingsStore.setPermission tool {| mode := allow; allowed := None |}).
Proof.
  intros w H. split; [by apply isAllowed_setPermission|].
  exists [EvSave SETTINGS_FILE]. split; [done|]. by constructor.
Qed.

Section WithEnv.
Variable env : Env.

Lemma keeps_ai_generateContent params :
  keeps (allowStays k) (ai_generateContent env params).
Proof.
  intros w. rewrite ai_generateContent_settles. simpl.
  apply (allowStays_events _ _ [EvGenerate params]); [done|done|by constructor].
Qed.

Lemma keeps_generateContentAttempts n params :
  keeps (allowStays k) (generateContentAttempts env n params).
Proof.
  induction n as [|n IH]; [apply keeps_ai_generateContent|].
  intros w. simpl. pose proof (keeps_ai_generateContent params w) as H.
  destruct (ai_generateContent env params w) as [[r|e|] w1]; simpl in *; try done.
  destruct (isRateLimit e); simpl; [|done].
  eapply allowStays_trans; [exact H|].
  apply (keeps_abind (sleep 60000)); [by apply keeps_emit | intros _; apply IH].
Qed.

Lemma keeps_summarizeToolCalls contents :
  keeps (allowStays k) (summarizeToolCalls env contents).
Proof.
  unfold summarizeToolCalls.
  apply keeps_abind; [apply keeps_readArray|]. intros arr.
  destruct (classifyFrom 0 arr) as [[ts os] idx].
  apply keeps_if; [apply keeps_aret|].
  apply keeps_abind; [apply keeps_getModel|]. intros m.
  apply keeps_abind; [apply keeps_withTimeout, keeps_generateContentAttempts|].
  intros resp. apply keeps_abind; [apply keeps_readArray|]. intros arr'.
  apply keeps_newArray.
Qed.

Lemma keeps_runTool name args : keeps (allowStays k) (runTool env name args).
Proof.
  intros w. unfold runTool.
  destruct (executeTool _ _ _ _ _) as [result fs'].
  apply (allowStays_events _ _ [EvExecute name args]); [done|done|by constructor].
Qed.

Lemma keeps_dispatch cur fc : keeps (allowStays k) (dispatch env cur fc).
Proof.
  intros w Hk. revert Hk. change (allowStays k w (dispatch env cur fc w).2).
  unfold dispatch.
  set (args := default [] (fc_args fc)).
  set (toolName := default "unknown" (fc_name fc)).
  set (key := default toolName (TOOL_PERMISSIONS toolName)).
  unfold abind at 1. unfold SettingsStore.isAllowed at 1.
  destruct (SettingsManager.isAllowed (settings w) key) eqn:Hkey; simpl negb; cbv iota.
  - (* the class is allowed: no prompt *)
    unfold abind at 1. unfold aret at 1. simpl.
    apply keeps_abind; [apply keeps_runTool|]. intros result.
    apply keeps_abind; [apply keeps_addMessage | intros _; apply keeps_push].
  - (* a prompt, for a class that is not allowed *)
    intros Hk.
    assert (key <> k) as Hne by (intros E; rewrite E in Hkey; congruence).
    revert Hk.
    change (allowStays k w
      (abind
         (abind (promptPermission env key args (getToolDescription toolName args))
            (fun permResponse =>
               abind (if granted permResponse && alwaysAllow permResponse
                      then SettingsStore.setPermission key {| mode := allow; allowed := None |}
                      else aret tt)
                 (fun _ => aret (granted permResponse))))
         (fun granted0 : bool =>
            if negb granted0
            then abind (HistoryManager.addMessage (denialMessage toolName))
                   (fun _ => push cur (denialMessage toolName))
            else abind (runTool env toolName args)
                   (fun result =>
                      abind (HistoryManager.addMessage (toolResponse toolName result))
                        (fun _ => push cur (toolResponse toolName result)))) w).2).
    apply keeps_abind.
    + apply keeps_abind.
      * intros w0. unfold promptPermission. simpl.
        apply (allowStays_events _ _ [EvPrompt key args (getToolDescription toolName args)]);
          [done|done|by constructor].
      * intros resp. apply keeps_abind; [|intros _; apply keeps_aret].
        apply keeps_if; [apply keeps_setPermission | apply keeps_aret].
    + intros g. apply keeps_if.
      * apply keeps_abind; [apply keeps_addMessage | intros _; apply keeps_push].
      * apply keeps_abind; [apply keeps_runTool|]. intros result.
        apply keeps_abind; [apply keeps_addMessage | intros _; apply keeps_push].
Qed.

Lemma keeps_dispatchAll cur fcs : keeps (allowStays k) (dispatchAll env cur fcs).
Proof.
  induction fcs as [|fc fcs IH]; simpl; [apply keeps_aret|].
  apply keeps_abind; [apply keeps_dispatch | intros _; apply IH].
Qed.

Lemma keeps_agenticLoopFrom remaining hops cur :
  keeps (allowStays k) (agenticLoopFrom env remaining hops cur).
Proof.
  revert hops cur; induction remaining as [|n IH]; intros hops cur;
    cbn [agenticLoopFrom]; [apply keeps_aret|].
  apply keeps_abind.
  { unfold logContextSize. apply keeps_abind; [apply keeps_readArray|].
    intros arr. by apply keeps_emit. }
  intros _. apply keeps_abind; [apply keeps_readArray|]. intros arr.
  apply keeps_abind.
  { apply keeps_if; [|apply keeps_aret].
    apply keeps_abind; [apply keeps_summarizeToolCalls|]. intros r.
    apply keeps_abind; [apply keeps_setCurrentSessionMessages|].
    intros _. apply keeps_aret. }
  intros cur'. apply keeps_abind; [by apply keeps_quiet|]. intros plan.
  apply keeps_abind; [apply keeps_getModel|]. intros m.
  apply keeps_abind; [apply keeps_readArray|]. intros arr'.
  apply keeps_abind; [apply keeps_withTimeout, keeps_generateContentAttempts|].
  intros response.
  destruct (resp_functionCalls response) as [[|fc fcs]|]; try apply keeps_aret.
  apply keeps_abind.
  { destruct (modelContentOf response); [|apply keeps_aret].
    apply keeps_abind; [apply keeps_addMessage | intros _; apply keeps_push]. }
  intros _. apply keeps_abind; [apply keeps_dispatchAll | intros _; apply IH].
Qed.

Lemma keeps_processMessage userMessage :
  keeps (allowStays k) (processMessage env userMessage).
Proof.
  unfold processMessage.
  apply keeps_abind; [apply keeps_addMessage|]. intros _.
  apply keeps_abind; [apply keeps_getMessages|]. intros contents.
  apply keeps_abind.
  { unfold agenticLoop. apply keeps_abind; [apply keeps_readArray|]. intros arr.
    apply keeps_abind; [apply keeps_newArray|]. intros cur.
    apply keeps_agenticLoopFrom. }
  intros result. apply keeps_abind; [apply keeps_addMessage|]. intros _.
  apply keeps_aret.
Qed.
End WithEnv.
End AllowStays.

(** ** Recording a message in the session and in the loop's array *)

Lemma deref_alter_eq (h : list (list Content)) r msg :
  r < length h ->
  default [] (alter (fun l => l ++ [msg]) r h !! r) = default [] (h !! r) ++ [msg].
Proof.
  intros Hr. rewrite list_lookup_alter_eq.
  destruct (h !! r) eqn:E; [done|]. apply lookup_ge_None in E. lia.
Qed.

Lemma deref_alter_ne (h : list (list Content)) r r' msg :
  r <> r' ->
  default [] (alter (fun l => l ++ [msg]) r h !! r') = default [] (h !! r').
Proof. intros Hne. by rewrite list_lookup_alter_ne. Qed.

Lemma record_message msg cur w :
  cur < length (heap w) ->
  exists w',
    (HistoryManager.addMessage msg;; push cur msg)%agent w = (Returned tt, w')
    /\ fs w' = fs w /\ settings w' = settings w
    /\ currentSession w' = currentSession w
    /\ trace w' = trace w ++ savedHistory w
    /\ deref w' cur = deref w cur ++ pushedOn cur w msg
    /\ (forall s, currentSession w = Some s -> s < length (heap w) -> s <> cur ->
        deref w' s = deref w s ++ [msg]).
Proof.
  intros Hcur. unfold abind, HistoryManager.addMessage, savedHistory, pushedOn.
  destruct (currentSession w) as [s|] eqn:Hs.
  - unfold abind, push, HistoryManager.save, emit. simpl.
    eexists. split; [done|]. simpl. rewrite Hs.
    split; [done|]. split; [done|]. split; [done|]. split; [done|].
    assert (Hlen : cur < length (alter (fun l => l ++ [msg]) s (heap w)))
      by (by rewrite length_alter).
    split.
    + unfold deref. simpl. rewrite (deref_alter_eq _ _ _ Hlen).
      case_decide as Hd.
      * injection Hd as ->. rewrite (deref_alter_eq _ _ _ Hcur).
        by rewrite <- app_assoc.
      * rewrite deref_alter_ne by congruence. done.
    + intros s' [= <-] Hlt Hne. unfold deref. simpl.
      rewrite deref_alter_ne by done. by rewrite deref_alter_eq.
  - unfold push. simpl. eexists. split; [done|]. simpl. rewrite Hs.
    split; [done|]. split; [done|]. split; [done|]. split; [by rewrite app_nil_r|].
    split; [|done]. unfold deref. simpl.
    rewrite ?decide_False by done. by rewrite deref_alter_eq.
Qed.

Lemma isAllowed_false_iff s key :
  SettingsManager.isAllowed s key = false
  <-> (permissions s !! key = None
       \/ exists p, permissions s !! key = Some p /\ mode p = ask).
Proof.
  unfold SettingsManager.isAllowed, SettingsManager.getPermission.
  destruct (permissions s !! key) as [p|]; [|by split; [left|]].
  destruct (mode p) eqn:E; split; try done.
  - intros _. right. eauto.
  - intros [|(p' & [= <-] & Hp)]; congruence.
Qed.

Section Dispatch.
Variable env : Env.
Variables (cur : Ref) (fc : FunctionCall) (w : World).

Lemma dispatch_denied :
  SettingsManager.isAllowed (settings w) (default (default "unknown" (fc_name fc)) (TOOL_PERMISSIONS (default "unknown" (fc_name fc)))) = false ->
  granted (onPermissionPrompt env (countEvents isPrompt (trace w)) (default (default "unknown" (fc_name fc)) (TOOL_PERMISSIONS (default "unknown" (fc_name fc)))) (default [] (fc_args fc)) (getToolDescription (default "unknown" (fc_name fc)) (default [] (fc_args fc))))
  = false ->
  dispatch env cur fc w
  = (HistoryManager.addMessage (denialMessage (default "unknown" (fc_name fc)));;
     push cur (denialMessage (default "unknown" (fc_name fc))))%agent
      (logEvent (EvPrompt (default (default "unknown" (fc_name fc)) (TOOL_PERMISSIONS (default "unknown" (fc_name fc)))) (default [] (fc_args fc)) (getToolDescription (default "unknown" (fc_name fc)) (default [] (fc_args fc)))) w).
Proof.
  intros Hkey Hdenied. unfold dispatch.
  unfold abind at 1. unfold SettingsStore.isAllowed at 1. rewrite Hkey.
  simpl negb. cbv iota. unfold abind at 1. unfold abind at 1.
  unfold promptPermission at 1. unfold abind at 1. rewrite Hdenied. done.
Qed.

Lemma dispatch_allowed :
  SettingsManager.isAllowed (settings w) (default (default "unknown" (fc_name fc)) (TOOL_PERMISSIONS (default "unknown" (fc_name fc)))) = true ->
  dispatch env cur fc w
  = (let* result := runTool env (default "unknown" (fc_name fc)) (default [] (fc_args fc)) in
     HistoryManager.addMessage (toolResponse (default "unknown" (fc_name fc)) result);;
     push cur (toolResponse (default "unknown" (fc_name fc)) result))%agent w.
Proof.
  intros Hkey. unfold dispatch.
  unfold abind at 1. unfold SettingsStore.isAllowed at 1. rewrite Hkey. done.
Qed.
End Dispatch.

(** the answer [always allow] puts the class of the call in mode [allow] *)
Lemma dispatch_always_allow env cur fc w :
  let toolName := default "unknown" (fc_name fc) in
  let args := default [] (fc_args fc) in
  let key := default toolName (TOOL_PERMISSIONS toolName) in
  SettingsManager.isAllowed (settings w) key = false ->
  onPermissionPrompt env (countEvents isPrompt (trace w)) key args
    (getToolDescription toolName args)
  = {| granted := true; alwaysAllow := true |} ->
  SettingsManager.isAllowed (settings (dispatch env cur fc w).2) key = true.
Proof.
  intros toolName args key Hkey Hans.
  set (w1 := (SettingsStore.setPermission key {| mode := allow; allowed := None |}
                (logEvent (EvPrompt key args (getToolDescription toolName args)) w)).2).
  assert (H1 : SettingsManager.isAllowed (settings w1) key = true).
  { unfold w1, SettingsManager.isAllowed, SettingsManager.getPermission. simpl.
    by rewrite lookup_insert_eq. }
  assert (E : dispatch env cur fc w
              = (let* result := runTool env toolName args in
                 HistoryManager.addMessage (toolResponse toolName result);;
                 push cur (toolResponse toolName result))%agent w1).
  { unfold dispatch. fold toolName args key.
    unfold abind at 1. unfold SettingsStore.isAllowed at 1. rewrite Hkey.
    simpl negb. cbv iota. unfold abind at 1. unfold abind at 1.
    unfold promptPermission at 1. rewrite Hans. done. }
  rewrite E.
  assert (K : keeps (allowStays key)
                (let* result := runTool env toolName args in
                 HistoryManager.addMessage (toolResponse toolName result);;
                 push cur (toolResponse toolName result))%agent).
  { apply keeps_abind; [apply keeps_runTool|]. intros result.
    apply keeps_abind; [apply keeps_addMessage | intros _; apply keeps_push]. }
  by destruct (K w1 H1).
Qed.

(** C7. A class without a record, or with a record in mode [ask], is not
    allowed, so the loop asks. When the answer is not granted, the dispatch
    of the call returns after the prompt and the saving of the history alone:
    no tool is executed, the file system and the settings are as before, and
    the synthetic result [Permission denied by user] is at the end of the
    conversation (pushed twice when the session holds the loop's array). *)
Theorem denied_action_is_not_executed env cur fc w :
  let toolName := default "unknown" (fc_name fc) in
  let args := default [] (fc_args fc) in
  let key := default toolName (TOOL_PERMISSIONS toolName) in
  let description := getToolDescription toolName args in
  let denial := denialMessage toolName in
  (SettingsManager.isAllowed (settings w) key = false
   <-> (permissions (settings w) !! key = None
        \/ exists p, permissions (settings w) !! key = Some p /\ mode p = ask))
  /\ (cur < length (heap w) ->
      SettingsManager.isAllowed (settings w) key = false ->
      granted (onPermissionPrompt env (countEvents isPrompt (trace w))
                 key args description) = false ->
      exists w',
        dispatch env cur fc w = (Returned tt, w')
        /\ fs w' = fs w
        /\ settings w' = settings w
        /\ trace w' = trace w ++ EvPrompt key args description :: savedHistory w
        /\ deref w' cur = deref w cur ++ pushedOn cur w denial
        /\ parts denial
           = Some [functionResponsePart toolName
                     [("error", JString "Permission denied by user")]]).
Proof.
  intros toolName args key description denial.
  split; [apply isAllowed_false_iff|].
  intros Hcur Hkey Hdenied.
  rewrite (dispatch_denied env cur fc w Hkey Hdenied).
  destruct (record_message denial cur (logEvent (EvPrompt key args description) w) Hcur)
    as (w' & Hrun & Hfs & Hset & _ & Htr & Harr & _).
  exists w'. split; [exact Hrun|]. split; [exact Hfs|]. split; [exact Hset|].
  split; [|split; [exact Harr | done]].
  rewrite Htr. simpl. by rewrite <- app_assoc.
Qed.

(** C6. A capability class [k] becomes allowed by the answer [always allow].
    Once it is allowed, a requested action of that class is executed at once,
    without the prompt being invoked for it; the class is still allowed after
    any [processMessage], and after any number of them, and no prompt for
    [k] is made in between: the grant holds for all later actions of the
    process. *)
Theorem allow_is_sticky env k :
  (forall cur fc w,
     let toolName := default "unknown" (fc_name fc) in
     let args := default [] (fc_args fc) in
     default toolName (TOOL_PERMISSIONS toolName) = k ->
     SettingsManager.isAllowed (settings w) k = false ->
     onPermissionPrompt env (countEvents isPrompt (trace w)) k args
       (getToolDescription toolName args)
     = {| granted := true; alwaysAllow := true |} ->
     SettingsManager.isAllowed (settings (dispatch env cur fc w).2) k = true)
  /\ (forall cur fc w,
        let toolName := default "unknown" (fc_name fc) in
        let args := default [] (fc_args fc) in
        default toolName (TOOL_PERMISSIONS toolName) = k ->
        cur < length (heap w) ->
        SettingsManager.isAllowed (settings w) k = true ->
        exists w',
          dispatch env cur fc w = (Returned tt, w')
          /\ fs w'
             = (executeTool (shell env) (projectRoot env) toolName args (fs w)).2
          /\ settings w' = settings w
          /\ trace w' = trace w ++ EvExecute toolName args :: savedHistory w)
  /\ (forall userMessage w,
        SettingsManager.isAllowed (settings w) k = true ->
        let w' := (processMessage env userMessage w).2 in
        SettingsManager.isAllowed (settings w') k = true
        /\ exists evs, trace w' = trace w ++ evs /\ Forall (notPromptFor k) evs)
  /\ (forall msgs w,
        SettingsManager.isAllowed (settings w) k = true ->
        let w' := chat env msgs w in
        SettingsManager.isAllowed (settings w') k = true
        /\ exists evs, trace w' = trace w ++ evs /\ Forall (notPromptFor k) evs).
Proof.
  split; [|split; [|split]].
  - intros cur fc w toolName args <-. apply dispatch_always_allow.
  - intros cur fc w toolName args Hk Hcur Hallowed. rewrite <- Hk in Hallowed.
    rewrite (dispatch_allowed env cur fc w Hallowed).
    unfold abind at 1. unfold runTool at 1. fold toolName args.
    destruct (executeTool (shell env) (projectRoot env) toolName args (fs w))
      as [result fs'] eqn:E.
    set (w1 := logEvent (EvExecute toolName args) (setFs fs' w)).
    destruct (record_message (toolResponse toolName result) cur w1 Hcur)
      as (w' & Hrun & Hfs & Hset & _ & Htr & _).
    exists w'. split; [exact Hrun|]. split; [by rewrite Hfs|]. split; [exact Hset|].
    rewrite Htr. simpl. by rewrite <- app_assoc.
  - intros userMessage w Hallowed. by apply keeps_processMessage.
  - intros msgs. change (forall w, allowStays k w (chat env msgs w)).
    induction msgs as [|m msgs IH]; intros w; [apply allowStays_refl|].
    apply (allowStays_trans k w (processMessage env m w).2);
      [apply keeps_processMessage | apply IH].
Qed.

(** ** The hop bound *)

Lemma countEvents_generate evs :
  countEvents isGenerate evs = countEvents isMainCall evs + countEvents isSummaryCall evs.
Proof.
  unfold countEvents. induction evs as [|e evs IH]; [done|]. simpl.
  destruct e as [p| | | | |]; simpl; try done.
  destruct (gp_config p); simpl; lia.
Qed.

Section Returns.
Context {A B : Type}.

Lemma returns_bind a1 b1 a2 b2 hs1 hs2 (Q : A -> Prop) (Q' : B -> Prop)
    (m : Agent A) (f : A -> Agent B) :
  returnsWith a1 b1 hs1 Q m ->
  (forall x, Q x -> returnsWith a2 b2 hs2 Q' (f x)) ->
  returnsWith (a1 + a2) (b1 + b2) (hs1 ++ hs2) Q' (abind m f).
Proof.
  intros Hm Hf w. destruct (Hm w) as (x & w1 & evs1 & E1 & Hx & T1 & A1 & B1 & H1).
  destruct (Hf x Hx w1) as (y & w2 & evs2 & E2 & Hy & T2 & A2 & B2 & H2).
  exists y, w2, (evs1 ++ evs2). unfold abind. rewrite E1, E2.
  split; [done|]. split; [done|]. split; [by rewrite T2, T1, app_assoc|].
  rewrite !countEvents_app. unfold hopsLogged in *. rewrite omap_app, H1, H2.
  repeat split; lia.
Qed.

Lemma returns_weaken a b b' hs (Q Q' : A -> Prop) (m : Agent A) :
  b <= b' -> (forall x, Q x -> Q' x) ->
  returnsWith a b hs Q m -> returnsWith a b' hs Q' m.
Proof.
  intros Hb HQ Hm w. destruct (Hm w) as (x & w1 & evs & E & Hx & T & Ha & Hb' & Hh).
  exists x, w1, evs. repeat split; auto. lia.
Qed.
End Returns.

Lemma returns_then {A B} a b hs (Q : A -> Prop) (Q' : B -> Prop)
    (m : Agent A) (f : A -> Agent B) :
  returnsWith 0 0 [] Q m ->
  (forall x, Q x -> returnsWith a b hs Q' (f x)) ->
  returnsWith a b hs Q' (abind m f).
Proof. intros Hm Hf. by apply (returns_bind 0 0 a b [] hs Q Q'). Qed.

(** a step that returns and logs neither a call of the model nor a hop *)
Lemma returns_silent {A} (m : Agent A) :
  (forall w, exists x w' evs,
      m w = (Returned x, w') /\ trace w' = trace w ++ evs
      /\ Forall (fun e => silent e = true) evs) ->
  returnsWith 0 0 [] (fun _ => True) m.
Proof.
  intros H w. destruct (H w) as (x & w' & evs & E & T & F).
  exists x, w', evs. split; [done|]. split; [done|]. split; [done|].
  assert (countEvents isGenerate evs = 0 /\ hopsLogged evs = []) as [Z Hh].
  { unfold countEvents, hopsLogged. clear -F.
    induction F as [|e evs He _ [IH1 IH2]]; [done|].
    destruct e; simpl in *; try done. }
  rewrite countEvents_generate in Z. split; [lia|]. split; [lia | done].
Qed.

Lemma returns_aret {A} (x : A) (Q : A -> Prop) : Q x -> returnsWith 0 0 [] Q (aret x).
Proof.
  intros Hx w. exists x, w, []. rewrite app_nil_r. repeat split; auto.
Qed.

Lemma returns_emit e : silent e = true -> returnsWith 0 0 [] (fun _ => True) (emit e).
Proof.
  intros He. apply returns_silent. intros w. exists tt, (logEvent e w), [e].
  repeat split; auto.
Qed.

Lemma returns_readArray r : returnsWith 0 0 [] (fun _ => True) (readArray r).
Proof. intros w. exists (deref w r), w, []. rewrite app_nil_r. repeat split; auto. Qed.

Lemma returns_newArray l : returnsWith 0 0 [] (fun _ => True) (newArray l).
Proof.
  intros w. eexists _, _, []. split; [reflexivity|]. simpl. rewrite app_nil_r.
  repeat split; auto.
Qed.

Lemma returns_push r msg : returnsWith 0 0 [] (fun _ => True) (push r msg).
Proof.
  intros w. eexists _, _, []. split; [reflexivity|]. simpl. rewrite app_nil_r.
  repeat split; auto.
Qed.

Lemma returns_if {A} a b hs (Q : A -> Prop) (c : bool) (m1 m2 : Agent A) :
  returnsWith a b hs Q m1 -> returnsWith a b hs Q m2 ->
  returnsWith a b hs Q (if c then m1 else m2).
Proof. by destruct c. Qed.

Lemma returns_addMessage msg :
  returnsWith 0 0 [] (fun _ => True) (HistoryManager.addMessage msg).
Proof.
  intros w. unfold HistoryManager.addMessage. destruct (currentSession w).
  - apply (returns_then 0 0 [] (fun _ => True)); [apply returns_push|].
    intros _ _. by apply returns_emit.
  - by apply returns_aret.
Qed.

Lemma returns_record msg cur :
  returnsWith 0 0 [] (fun _ => True)
    (HistoryManager.addMessage msg;; push cur msg)%agent.
Proof.
  apply (returns_then 0 0 [] (fun _ => True)); [apply returns_addMessage|].
  intros _ _. apply returns_push.
Qed.

Lemma returns_setCurrentSessionMessages r :
  returnsWith 0 0 [] (fun _ => True) (HistoryManager.setCurrentSessionMessages r).
Proof.
  intros w. unfold HistoryManager.setCurrentSessionMessages.
  destruct (currentSession w).
  - eexists tt, _, [EvSave HISTORY_FILE]. split; [reflexivity|]. repeat split; auto.
  - by apply returns_aret.
Qed.

Lemma returns_getMessages : returnsWith 0 0 [] (fun _ => True) HistoryManager.getMessages.
Proof.
  intros w. unfold HistoryManager.getMessages. destruct (currentSession w).
  - by apply returns_aret.
  - apply returns_newArray.
Qed.

Lemma returns_getModel : returnsWith 0 0 [] (fun _ => True) SettingsStore.getModel.
Proof. intros w. eexists _, w, []. rewrite app_nil_r. repeat split; auto. Qed.

Section Busy.
Variable env : Env.
Hypothesis busy : forall k params, requestsAction (generateContent env k params).

(** a model that answers needs no retry *)
Lemma generateContentWithRetry_responds params w :
  exists r fc rest,
    generateContentWithRetry env params 3 w
    = (Returned r, appendTrace [EvGenerate params] w)
    /\ resp_functionCalls r = Some (fc :: rest).
Proof.
  destruct (busy (countEvents isGenerate (trace w)) params) as (r & fc & rest & E & F).
  exists r, fc, rest. split; [|done].
  unfold generateContentWithRetry. simpl. rewrite ai_generateContent_settles.
  by rewrite E.
Qed.

Lemma returns_mainCall model contents plan :
  returnsWith 1 0 []
    (fun r => exists fc rest, resp_functionCalls r = Some (fc :: rest))
    (withTimeout (generateContentWithRetry env (mainParams model contents plan) 3)
       API_TIMEOUT_MS "API request timed out after 600 seconds").
Proof.
  intros w.
  destruct (generateContentWithRetry_responds (mainParams model contents plan) w)
    as (r & fc & rest & E & F).
  exists r, (appendTrace [EvGenerate (mainParams model contents plan)] w),
    [EvGenerate (mainParams model contents plan)].
  unfold withTimeout. rewrite E. repeat split; eauto.
Qed.

Lemma returns_summaryCall model turns :
  returnsWith 0 1 [] (fun _ => True)
    (withTimeout (generateContentWithRetry env (summarizeParams model turns) 3)
       API_TIMEOUT_MS "Summarization timed out").
Proof.
  intros w.
  destruct (generateContentWithRetry_responds (summarizeParams model turns) w)
    as (r & fc & rest & E & F).
  exists r, (appendTrace [EvGenerate (summarizeParams model turns)] w),
    [EvGenerate (summarizeParams model turns)].
  unfold withTimeout. rewrite E. repeat split; eauto.
Qed.

Lemma returns_summarizeToolCalls contents :
  returnsWith 0 1 [] (fun _ => True) (summarizeToolCalls env contents).
Proof.
  unfold summarizeToolCalls.
  apply (returns_then 0 1 [] (fun _ => True)); [apply returns_readArray|]. intros arr _.
  destruct (classifyFrom 0 arr) as [[ts os] idx].
  apply returns_if.
  { eapply returns_weaken; [| |by apply (returns_aret contents (fun _ => True))]; auto. }
  apply (returns_then 0 1 [] (fun _ => True)); [apply returns_getModel|]. intros m _.
  apply (returns_bind 0 1 0 0 [] [] (fun _ => True)); [apply returns_summaryCall|].
  intros resp _.
  apply (returns_then 0 0 [] (fun _ => True)); [apply returns_readArray|]. intros arr' _.
  apply returns_newArray.
Qed.

Lemma returns_dispatch cur fc : returnsWith 0 0 [] (fun _ => True) (dispatch env cur fc).
Proof.
  unfold dispatch.
  apply (returns_then 0 0 [] (fun _ => True)).
  { intros w. eexists _, w, []. rewrite app_nil_r. repeat split; auto. }
  intros hasPermission _.
  apply (returns_then 0 0 [] (fun _ => True)).
  { apply returns_if; [|by apply returns_aret].
    apply (returns_then 0 0 [] (fun _ => True)).
    { apply returns_silent. intros w. eexists _, _, [_].
      split; [reflexivity|]. split; [reflexivity|]. by constructor. }
    intros resp _. apply (returns_then 0 0 [] (fun _ => True)); [|by intros; apply returns_aret].
    apply returns_if; [|by apply returns_aret].
    intros w. eexists tt, _, [EvSave SETTINGS_FILE].
    split; [reflexivity|]. repeat split; auto. }
  intros g _. apply returns_if; [apply returns_record|].
  apply (returns_then 0 0 [] (fun _ => True)); [|intros; apply returns_record].
  apply returns_silent. intros w. unfold runTool.
  destruct (executeTool _ _ _ _ _) as [result fs'].
  eexists _, _, [_]. split; [reflexivity|]. split; [reflexivity|]. by constructor.
Qed.

Lemma returns_dispatchAll cur fcs :
  returnsWith 0 0 [] (fun _ => True) (dispatchAll env cur fcs).
Proof.
  induction fcs as [|fc fcs IH]; simpl; [by apply returns_aret|].
  apply (returns_then 0 0 [] (fun _ => True)); [apply returns_dispatch|]. by intros.
Qed.

Lemma returns_logContextSize cur hop :
  returnsWith 0 0 [hop] (fun _ => True) (logContextSize cur hop).
Proof.
  intros w. unfold logContextSize, abind, readArray, emit.
  eexists tt, _, [_]. split; [reflexivity|]. repeat split; auto.
Qed.

Lemma returns_agenticLoopFrom remaining hops cur :
  returnsWith remaining remaining (seq (S hops) remaining)
    (fun s => s = EXHAUSTED_MESSAGE)
    (agenticLoopFrom env remaining hops cur).
Proof.
  revert hops cur; induction remaining as [|n IH]; intros hops cur;
    cbn [agenticLoopFrom]; [by apply returns_aret|].
  apply (returns_bind 0 0 (S n) (S n) [S hops] (seq (S (S hops)) n) (fun _ => True));
    [apply returns_logContextSize|].
  intros _ _.
  apply (returns_then (S n) (S n) _ (fun _ => True)); [apply returns_readArray|].
  intros arr _.
  apply (returns_bind 0 1 (S n) n [] _ (fun _ => True)).
  { apply returns_if.
    - apply (returns_bind 0 1 0 0 [] [] (fun _ => True));
        [apply returns_summarizeToolCalls|].
      intros r _.
      apply (returns_then 0 0 [] (fun _ => True));
        [apply returns_setCurrentSessionMessages|].
      intros _ _. by apply returns_aret.
    - eapply returns_weaken; [| |by apply (returns_aret cur (fun _ => True))]; auto. }
  intros cur' _.
  apply (returns_then (S n) n _ (fun _ => True)).
  { intros w. eexists _, w, []. rewrite app_nil_r. repeat split; auto. }
  intros plan _.
  apply (returns_then (S n) n _ (fun _ => True)); [apply returns_getModel|]. intros m _.
  apply (returns_then (S n) n _ (fun _ => True)); [apply returns_readArray|].
  intros arr' _.
  apply (returns_bind 1 0 n n [] _ _ _ _ _ (returns_mainCall m arr' plan)).
  intros response (fc & rest & ->).
  apply (returns_then n n _ (fun _ => True)).
  { destruct (modelContentOf response); [apply returns_record | by apply returns_aret]. }
  intros _ _.
  apply (returns_then n n _ (fun _ => True)); [apply returns_dispatchAll|].
  intros _ _. apply IH.
Qed.

Lemma returns_processMessage userMessage :
  returnsWith MAX_HOPS MAX_HOPS (seq 1 MAX_HOPS) (fun s => s = EXHAUSTED_MESSAGE)
    (processMessage env userMessage).
Proof.
  unfold processMessage.
  apply (returns_then _ _ _ (fun _ => True)); [apply returns_addMessage|]. intros _ _.
  apply (returns_then _ _ _ (fun _ => True)); [apply returns_getMessages|].
  intros contents _.
  rewrite <- (app_nil_r (seq 1 MAX_HOPS)).
  apply (returns_bind MAX_HOPS MAX_HOPS 0 0 _ [] (fun s => s = EXHAUSTED_MESSAGE)).
  { unfold agenticLoop.
    apply (returns_then _ _ _ (fun _ => True)); [apply returns_readArray|]. intros arr _.
    apply (returns_then _ _ _ (fun _ => True)); [apply returns_newArray|]. intros cur _.
    apply returns_agenticLoopFrom. }
  intros result ->.
  apply (returns_then 0 0 [] (fun _ => True)); [apply returns_addMessage|]. intros _ _.
  by apply returns_aret.
Qed.
End Busy.

(** C2. When every reply of the model requests at least one action,
    [processMessage] returns the exhaustion message after exactly [MAX_HOPS]
    (25) hops, numbered 1 to 25, each with one call of the loop proper.
    Compaction adds at most one summary call per hop, so the calls of the
    model number 25 plus the summary calls, 50 at most. *)
Theorem hop_bound env userMessage w :
  (forall k params, requestsAction (generateContent env k params)) ->
  exists w' evs,
    processMessage env userMessage w = (Returned EXHAUSTED_MESSAGE, w')
    /\ trace w' = trace w ++ evs
    /\ hopsLogged evs = seq 1 MAX_HOPS
    /\ countEvents isMainCall evs = MAX_HOPS
    /\ countEvents isSummaryCall evs <= MAX_HOPS
    /\ countEvents isGenerate evs = MAX_HOPS + countEvents isSummaryCall evs.
Proof.
  intros busy.
  destruct (returns_processMessage env busy userMessage w)
    as (x & w' & evs & E & -> & T & Ha & Hb & Hh).
  exists w', evs. rewrite countEvents_generate, Ha.
  replace (MAX_HOPS + 0) with MAX_HOPS in Hb by lia.
  repeat split; auto.
Qed.

(** ** Instances *)

Lemma retry_protocol_witness :
  generateContentWithRetry Sample.flakyEnv Sample.plainParams 3 Sample.freshWorld
  = (Returned Sample.summaryResponse,
     appendTrace (retryEvents Sample.plainParams 2 ++ [EvGenerate Sample.plainParams])
       Sample.freshWorld).
Proof.
  apply (retry_protocol Sample.flakyEnv Sample.plainParams Sample.freshWorld 2).
  - lia.
  - intros [|[|i]] Hi; [reflexivity | reflexivity | lia].
  - intros _. reflexivity.
Defined.

Lemma compaction_shape_witness :
  exists r w',
    summarizeToolCalls Sample.summaryEnv 0 Sample.talkWorld = (Returned r, w')
    /\ toolTurns (deref w' r) = []
    /\ length (deref w' r) < length (deref Sample.talkWorld 0).
Proof.
  destruct (proj2 (compaction_shape Sample.summaryEnv 0 Sample.talkWorld)
              ltac:(vm_compute; lia) Sample.summaryResponse _ eq_refl)
    as (pre & t & post & Harr & Ht & Hpost & Hrun & Hres & _ & _ & Htools & Hlen).
  eexists _, _. split; [exact Hrun|]. rewrite Hres. split; [exact Htools | exact Hlen].
Defined.

Lemma tool_turns_are_dropped_witness :
  exists r w',
    summarizeToolCalls Sample.summaryEnv 0 Sample.talkWorld = (Returned r, w')
    /\ Sample.callTurn ∉ deref w' r.
Proof.
  destruct (proj2 (tool_turns_are_dropped Sample.summaryEnv 0 Sample.talkWorld)
              ltac:(vm_compute; lia) Sample.summaryResponse _ eq_refl)
    as (r & w' & Hrun & Hgone & _).
  exists r, w'. split; [exact Hrun|].
  apply Hgone; [|reflexivity].
  apply list_elem_of_In. simpl. tauto.
Defined.

Lemma denied_action_is_not_executed_witness :
  exists w',
    dispatch Sample.busyEnv 1 Sample.readCall Sample.midLoop = (Returned tt, w')
    /\ fs w' = Sample.disk
    /\ trace w'
       = [EvPrompt "read_file" [("path", JString "a.txt")] "Read file: a.txt";
          EvSave HISTORY_FILE]
    /\ deref w' 1 = [denialMessage "read_file"].
Proof.
  destruct (proj2 (denied_action_is_not_executed Sample.busyEnv 1 Sample.readCall
                     Sample.midLoop)
              ltac:(simpl; lia) eq_refl eq_refl)
    as (w' & Hrun & Hfs & _ & Htr & Harr & _).
  exists w'. split; [exact Hrun|]. split; [exact Hfs|]. split; [exact Htr | exact Harr].
Defined.

(** Once the context check of the loop has run [setCurrentSessionMessages],
    the session and the loop hold one array; [history.addMessage] and
    [currentContents.push] then both push on it, and a result is recorded
    twice. *)
Example result_recorded_twice_when_shared :
  exists w',
    dispatch Sample.busyEnv 0 Sample.readCall Sample.freshWorld = (Returned tt, w')
    /\ deref w' 0 = [denialMessage "read_file"; denialMessage "read_file"].
Proof. eexists. split; reflexivity. Qed.

Lemma allow_is_sticky_witness :
  (exists w',
     dispatch Sample.busyEnv 1 Sample.readCall Sample.readingAllowed = (Returned tt, w')
     /\ trace w'
        = [EvExecute "read_file" [("path", JString "a.txt")]; EvSave HISTORY_FILE])
  /\ SettingsManager.isAllowed
       (settings (processMessage Sample.busyEnv "hi" Sample.readingAllowed).2)
       "read_file" = true
  /\ SettingsManager.isAllowed
       (settings (chat Sample.busyEnv ["hi"; "again"] Sample.readingAllowed))
       "read_file" = true.
Proof.
  destruct (allow_is_sticky Sample.busyEnv "read_file")
    as (_ & Hstep & Hrun & Hchat).
  split; [|split].
  - destruct (Hstep 1 Sample.readCall Sample.readingAllowed eq_refl
                ltac:(simpl; lia) eq_refl) as (w' & Hd & _ & _ & Htr).
    exists w'. split; [exact Hd | exact Htr].
  - apply (Hrun "hi" Sample.readingAllowed eq_refl).
  - apply (Hchat ["hi"; "again"] Sample.readingAllowed eq_refl).
Defined.

Lemma hop_bound_witness :
  exists w' evs,
    processMessage Sample.busyEnv "hi" Sample.freshWorld
    = (Returned EXHAUSTED_MESSAGE, w')
    /\ trace w' = trace Sample.freshWorld ++ evs
    /\ hopsLogged evs = seq 1 MAX_HOPS
    /\ countEvents isMainCall evs = MAX_HOPS
    /\ countEvents isSummaryCall evs <= MAX_HOPS
    /\ countEvents isGenerate evs = MAX_HOPS + countEvents isSummaryCall evs.
Proof.
  apply hop_bound. intros k params.
  exists Sample.busyResponse, Sample.readCall, [Sample.readCall; Sample.readCall].
  split; reflexivity.
Defined.

(** C2, as stated, fails when the conversation is large: with a request of
    100001 characters and a model that asks for three actions in every
    reply, the loop still ends with the exhaustion message, but after 49
    calls of the model, 24 of them made by compaction. *)
Lemma hop_limit_calls_counterexample :
  generateContent Sample.busyEnv = (fun _ _ => Respond Sample.busyResponse)
  /\ resp_functionCalls Sample.busyResponse
     = Some [Sample.readCall; Sample.readCall; Sample.readCall]
  /\ (processMessage Sample.busyEnv Sample.longText Sample.freshWorld).1
     = Returned EXHAUSTED_MESSAGE
  /\ countEvents isGenerate
       (trace (processMessage Sample.busyEnv Sample.longText Sample.freshWorld).2)
     = 49
  /\ 49 <> MAX_HOPS.
Proof.
  split; [reflexivity|]. split; [reflexivity|].
  split; [vm_compute; reflexivity|]. split; [vm_compute; reflexivity|].
  unfold MAX_HOPS. lia.
Qed.

(** ** More on the file system *)

Lemma setEntry_again s n es : Fs.setEntry s n (Fs.setEntry s n es) = Fs.setEntry s n es.
Proof.
  induction es as [|[k old] es IH]; simpl.
  - by rewrite String.eqb_refl.
  - destruct (String.eqb k s) eqn:E; simpl; rewrite E; [done|]. by rewrite IH.
Qed.

(** a successful write leaves a regular file with the content at the path *)
Lemma writeAt_lookup full p content disk disk' :
  Fs.writeAt full p content disk = inr disk' ->
  Fs.lookup p disk' = Some (File content).
Proof.
  revert disk disk'; induction p as [|s p IH]; intros disk disk'; simpl.
  - destruct disk; [|done]. by intros [= <-].
  - destruct disk as [|es]; [done|].
    destruct (Fs.assoc s es) as [child|] eqn:E.
    + destruct (Fs.writeAt full p content child) as [e|child'] eqn:W; [done|].
      intros [= <-]. simpl. rewrite assoc_setEntry. by eapply IH.
    + destruct p; [|done]. intros [= <-]. simpl. by rewrite assoc_setEntry.
Qed.

(** writing the same content once more changes nothing *)
Lemma writeAt_again full p content disk disk' :
  Fs.writeAt full p content disk = inr disk' ->
  Fs.writeAt full p content disk' = inr disk'.
Proof.
  revert disk disk'; induction p as [|s p IH]; intros disk disk'; simpl.
  - destruct disk; [|done]. by intros [= <-].
  - destruct disk as [|es]; [done|].
    destruct (Fs.assoc s es) as [child|] eqn:E.
    + destruct (Fs.writeAt full p content child) as [e|child'] eqn:W; [done|].
      intros [= <-]. rewrite assoc_setEntry, (IH _ _ W). by rewrite setEntry_again.
    + destruct p; [|done]. intros [= <-]. rewrite assoc_setEntry. simpl.
      by rewrite setEntry_again.
Qed.

Lemma lookup_below p q disk :
  Fs.lookup (p ++ q) disk = Fs.lookup p disk ≫= Fs.lookup q.
Proof.
  revert disk; induction p as [|s p IH]; intros disk; simpl; [done|].
  destruct disk as [|es]; [done|]. destruct (Fs.assoc s es); [apply IH | done].
Qed.

(** what exists has a parent *)
Lemma lookup_dirname p disk :
  is_Some (Fs.lookup p disk) -> is_Some (Fs.lookup (Path.dirname p) disk).
Proof.
  unfold Path.dirname. destruct (decide (p = [])) as [->|Hne]; [done|].
  rewrite (app_removelast_last "" Hne) at 1. rewrite lookup_below.
  destruct (Fs.lookup (removelast p) disk); [eauto | by intros [? [=]]].
Qed.



(** the path check looks at the path only *)
Lemma resolvePath_disk root p disk r disk' :
  resolvePath root p disk = (r, disk') ->
  disk' = disk /\ forall d, resolvePath root p d = (r, d).
Proof.
  unfold resolvePath. destruct (_ || _); unfold throw, ret; intros [= <- <-]; done.
Qed.

(** [write_file], step by step *)
Lemma writeFile_inv root args disk out disk' :
  writeFile root args disk = (Output out, disk') ->
  exists filePath,
    resolvePath root (Js.ToString (Js.prop args "path")) disk = (inr filePath, disk)
    /\ Fs.writeAt filePath filePath (Js.ToString (Js.prop args "content")) disk' = inr disk'
    /\ Fs.lookup filePath disk' = Some (File (Js.ToString (Js.prop args "content")))
    /\ out = "File written: " +:+ Js.ToString (Js.prop args "path").
Proof.
  unfold writeFile, tryCatch, bind.
  destruct (resolvePath _ _ disk) as [[e|filePath] d0] eqn:R; [done|].
  destruct (resolvePath_disk _ _ _ _ _ R) as [-> _].
  unfold FsOps.existsSync, FsOps.mkdirSync, FsOps.writeFileSync, ret.
  set (content := Js.ToString (Js.prop args "content")).
  assert (forall d1, (match Fs.writeAt filePath filePath content d1 with
                      | inr fs' => (inr tt, fs') | inl e => (inl e, d1) end)
                     = (inr tt, disk') ->
                     Fs.writeAt filePath filePath content disk' = inr disk'
                     /\ Fs.lookup filePath disk' = Some (File content)) as Hw.
  { intros d1. destruct (Fs.writeAt _ _ _ d1) as [e|d2] eqn:W; [done|].
    intros [= <-]. split; [by eapply writeAt_again | by eapply writeAt_lookup]. }
  destruct (negb _).
  - destruct (Fs.mkdirAt _ _ disk) as [e|d1]; [done|].
    destruct (Fs.writeAt _ _ _ d1) as [e|d2] eqn:W; [done|].
    intros [= <- <-]. exists filePath. split; [done|].
    destruct (Hw d1) as [? ?]; [by rewrite W|]. done.
  - destruct (Fs.writeAt _ _ _ disk) as [e|d2] eqn:W; [done|].
    intros [= <- <-]. exists filePath. split; [done|].
    destruct (Hw disk) as [? ?]; [by rewrite W|]. done.
Qed.

(** X1. After a [write_file] that succeeded, [read_file] with the same
    arguments returns exactly the text that was written ([String(args.content)])
    and leaves the disk as the write left it. *)
Theorem write_then_read shell root args disk out disk' :
  executeTool shell root "write_file" args disk = (Output out, disk') ->
  executeTool shell root "read_file" args disk'
  = (Output (Js.ToString (Js.prop args "content")), disk').
Proof.
  change (executeTool shell root "write_file" args disk) with (writeFile root args disk).
  change (executeTool shell root "read_file" args disk') with (readFile root args disk').
  intros H. destruct (writeFile_inv _ _ _ _ _ H) as (filePath & R & _ & L & _).
  destruct (resolvePath_disk _ _ _ _ _ R) as [_ R'].
  by apply (readFile_found root args disk' filePath).
Qed.

(** X2. [write_file] is idempotent: repeated on the disk it has just
    written, it succeeds with the same message and changes nothing. *)
Theorem write_twice shell root args disk out disk' :
  executeTool shell root "write_file" args disk = (Output out, disk') ->
  executeTool shell root "write_file" args disk' = (Output out, disk').
Proof.
  change (executeTool shell root "write_file" args disk) with (writeFile root args disk).
  change (executeTool shell root "write_file" args disk') with (writeFile root args disk').
  intros H. destruct (writeFile_inv _ _ _ _ _ H) as (filePath & R & W & L & ->).
  destruct (resolvePath_disk _ _ _ _ _ R) as [_ R'].
  unfold writeFile, tryCatch, bind. rewrite R'.
  unfold FsOps.existsSync, FsOps.mkdirSync, FsOps.writeFileSync, ret.
  rewrite bool_decide_eq_true_2 by (apply lookup_dirname; rewrite L; eauto).
  simpl. by rewrite W.
Qed.

Ltac body_cases :=
  repeat match goal with
         | |- context [resolvePath ?r ?p ?d] =>
             let R := fresh "R" in
             destruct (resolvePath r p d) as [[?|?] ?] eqn:R;
             apply resolvePath_disk in R; destruct R as [-> _]
         | |- context [match Fs.lookup ?p ?d with _ => _ end] =>
             destruct (Fs.lookup p d) as [[?|?]|]
         | |- context [if ?b then _ else _] => destruct b
         end.

(** X3. [read_file], [head_file], [tail_file] and [list_dir] never change
    the disk, whatever their arguments and whatever they return. *)
Theorem reading_changes_nothing shell root name args disk :
  In name readTools ->
  (executeTool shell root name args disk).2 = disk.
Proof.
  unfold readTools. simpl. intros [<-|[<-|[<-|[<-|[]]]]].
  - change (executeTool shell root TOOL_NAMES.READ_FILE args disk) with (readFile root args disk).
    unfold readFile, tryCatch, bind, FsOps.existsSync, FsOps.readFileSync, ret.
    body_cases; done.
  - change (executeTool shell root TOOL_NAMES.HEAD_FILE args disk) with (headFile root args disk).
    unfold headFile, tryCatch, bind, FsOps.existsSync, FsOps.readFileSync, ret.
    body_cases; done.
  - change (executeTool shell root TOOL_NAMES.TAIL_FILE args disk) with (tailFile root args disk).
    unfold tailFile, tryCatch, bind, FsOps.existsSync, FsOps.readFileSync, ret.
    body_cases; done.
  - change (executeTool shell root TOOL_NAMES.LIST_DIR args disk) with (listDir root args disk).
    unfold listDir, tryCatch, bind, FsOps.existsSync, FsOps.readdirSync, ret.
    body_cases; done.
Qed.




(** X5. For an accepted path at which nothing exists, [read_file],
    [head_file], [tail_file] and [edit_file] return the error
    [File not found: <path>] and [list_dir] returns [Directory not found: <path>],
    the path quoted as it was given; the disk is unchanged. *)
Theorem missing_path_is_reported shell root args disk filePath :
  resolvePath root (Js.ToString (Js.prop args "path")) disk = (inr filePath, disk) ->
  Fs.lookup filePath disk = None ->
  (forall name, In name ["read_file"; "head_file"; "tail_file"; "edit_file"] ->
     executeTool shell root name args disk
     = (Err ("File not found: " +:+ Js.ToString (Js.prop args "path")), disk))
  /\ executeTool shell root "list_dir" args disk
     = (Err ("Directory not found: " +:+ Js.ToString (Js.prop args "path")), disk).
Proof.
  intros R L. split.
  - intros name. simpl. intros [<-|[<-|[<-|[<-|[]]]]].
    + change (executeTool shell root "read_file" args disk) with (readFile root args disk).
      unfold readFile, tryCatch, bind, FsOps.existsSync. rewrite R, L.
      rewrite bool_decide_eq_false_2 by (by intros [? [=]]). done.
    + change (executeTool shell root "head_file" args disk) with (headFile root args disk).
      unfold headFile, tryCatch, bind, FsOps.existsSync. rewrite R, L.
      rewrite bool_decide_eq_false_2 by (by intros [? [=]]). done.
    + change (executeTool shell root "tail_file" args disk) with (tailFile root args disk).
      unfold tailFile, tryCatch, bind, FsOps.existsSync. rewrite R, L.
      rewrite bool_decide_eq_false_2 by (by intros [? [=]]). done.
    + change (executeTool shell root "edit_file" args disk) with (editFile root args disk).
      unfold editFile, tryCatch, bind, FsOps.existsSync. rewrite R, L.
      rewrite bool_decide_eq_false_2 by (by intros [? [=]]). done.
  - change (executeTool shell root "list_dir" args disk) with (listDir root args disk).
    unfold listDir, tryCatch, bind, FsOps.existsSync. rewrite R, L.
    rewrite bool_decide_eq_false_2 by (by intros [? [=]]). done.
Qed.

(** X6. [edit_file] on a file that does not contain the old text returns
    the error [String not found in file: "<first 50 characters>..."] (the dots
    are there whatever the length of the old text) and leaves the disk
    unchanged. *)
Theorem edit_without_match shell root args disk filePath content :
  resolvePath root (Js.ToString (Js.prop args "path")) disk = (inr filePath, disk) ->
  Fs.lookup filePath disk = Some (File content) ->
  Str.includes (Js.ToString (Js.prop args "old_string")) content = false ->
  executeTool shell root "edit_file" args disk
  = (Err ("String not found in file: "
          +:+ String Str.dquote
                (Str.take 50 (Js.ToString (Js.prop args "old_string"))
                 +:+ "..." +:+ String Str.dquote "")), disk).
Proof.
  intros R L H.
  change (executeTool shell root "edit_file" args disk) with (editFile root args disk).
  unfold editFile, tryCatch, bind, FsOps.existsSync, FsOps.readFileSync. rewrite R, L.
  rewrite bool_decide_eq_true_2 by eauto. simpl. rewrite L. by rewrite H.
Qed.

(** X7. A negative line count [-m] is not rejected: [head_file] then
    returns all lines but the last [m], and [tail_file] all lines but the
    first [m]. *)
Theorem negative_line_count shell root args disk filePath content m :
  resolvePath root (Js.ToString (Js.prop args "path")) disk = (inr filePath, disk) ->
  Fs.lookup filePath disk = Some (File content) ->
  Js.prop args "lines" = JNumber (Int (- Z.of_nat m)) ->
  1 <= m ->
  let fileLines := Str.split "010"%char content in
  executeTool shell root "head_file" args disk
  = (Output (Str.join Str.nl (take (length fileLines - m) fileLines)), disk)
  /\ executeTool shell root "tail_file" args disk
     = (Output (Str.join Str.nl (drop m fileLines)), disk).
Proof.
  intros R L Hlines Hm fileLines.
  assert (Js.numberOr (Js.ToNumber (Js.prop args "lines")) 100 = (- Z.of_nat m)%Z) as Hz.
  { rewrite Hlines. simpl. destruct (Z.eqb_spec (- Z.of_nat m) 0); [lia | done]. }
  split.
  - change (executeTool shell root "head_file" args disk) with (headFile root args disk).
    rewrite (headFile_found _ _ _ _ _ R L), Hz. do 3 f_equal.
    unfold Str.slice, Str.clampIndex. simpl.
    destruct (Z.ltb_spec (- Z.of_nat m) 0); [|lia].
    fold fileLines. f_equal. lia.
  - change (executeTool shell root "tail_file" args disk) with (tailFile root args disk).
    rewrite (tailFile_found _ _ _ _ _ R L), Hz. do 3 f_equal.
    unfold Str.sliceFrom, Str.clampIndex. fold fileLines.
    destruct (Z.ltb_spec (- - Z.of_nat m) 0); [lia|].
    rewrite Z.opp_involutive, Nat2Z.id.
    destruct (Nat.min_spec m (length fileLines)) as [[_ ->]|[Hle ->]]; [done|].
    change (drop (length fileLines) fileLines = drop m fileLines).
    by rewrite !drop_ge by lia.
Qed.

Lemma cut_empty s : Str.cut "" s = Some ("", s).
Proof. by destruct s. Qed.

(** X8. [edit_file] with an empty old text never reports a missing
    match: the new text (free of [$]) is put in front of the content. *)
Theorem edit_with_empty_old_string shell root args disk filePath content :
  resolvePath root (Js.ToString (Js.prop args "path")) disk = (inr filePath, disk) ->
  Fs.lookup filePath disk = Some (File content) ->
  Js.ToString (Js.prop args "old_string") = "" ->
  dollarFree (Js.ToString (Js.prop args "new_string")) = true ->
  exists disk',
    executeTool shell root "edit_file" args disk
    = (Output ("File edited: " +:+ Js.ToString (Js.prop args "path")), disk')
    /\ Fs.lookup filePath disk'
       = Some (File (Js.ToString (Js.prop args "new_string") +:+ content)).
Proof.
  intros R L Hold Hfree.
  change (executeTool shell root "edit_file" args disk) with (editFile root args disk).
  apply (editFile_literal root args disk filePath content "" content); try done.
  rewrite Hold. apply cut_empty.
Qed.

Lemma split_slashFree s : slashFree s = true -> Str.split "/"%char s = [s].
Proof.
  induction s as [|c s IH]; [done|]. simpl.
  destruct (Ascii.eqb c "/"); simpl; [done|]. intros H. by rewrite IH.
Qed.

Lemma stripCommon_below root rest : Path.stripCommon root (root ++ rest) = ([], rest).
Proof.
  induction root as [|x root IH]; simpl; [by destruct rest|].
  by rewrite String.eqb_refl.
Qed.

Lemma insideRoot_app root rest : insideRoot root (root ++ rest) = true.
Proof. apply insideRoot_prefix. by apply prefix_app_r. Qed.

(** a rejected path: what every operation that takes a path returns *)
Lemma rejected_path shell root name args disk e :
  In name pathTools ->
  resolvePath root (Js.ToString (Js.prop args "path")) disk = (inl e, disk) ->
  executeTool shell root name args disk = (Err (errorToString e), disk).
Proof.
  intros Hname R. unfold pathTools in Hname. simpl in Hname.
  destruct Hname as [<-|[<-|[<-|[<-|[<-|[<-|[]]]]]]].
  - change (readFile root args disk = (Err (errorToString e), disk)).
    unfold readFile, tryCatch, bind. by rewrite R.
  - change (writeFile root args disk = (Err (errorToString e), disk)).
    unfold writeFile, tryCatch, bind. by rewrite R.
  - change (headFile root args disk = (Err (errorToString e), disk)).
    unfold headFile, tryCatch, bind. by rewrite R.
  - change (tailFile root args disk = (Err (errorToString e), disk)).
    unfold tailFile, tryCatch, bind. by rewrite R.
  - change (listDir root args disk = (Err (errorToString e), disk)).
    unfold listDir, tryCatch, bind. by rewrite R.
  - change (editFile root args disk = (Err (errorToString e), disk)).
    unfold editFile, tryCatch, bind. by rewrite R.
Qed.

(** X9. The path check is stricter than confinement: a plain name that
    begins with two dots (such as [..cache]) resolves to an entry directly
    below the project root, and is rejected as a traversal all the same by
    every operation that takes a path. *)
Theorem dotdot_name_is_rejected shell root name args disk s :
  In name pathTools ->
  Js.ToString (Js.prop args "path") = s ->
  Str.startsWith ".." s = true ->
  s <> ".." ->
  slashFree s = true ->
  Path.resolve root s = root ++ [s]
  /\ insideRoot root (Path.resolve root s) = true
  /\ executeTool shell root name args disk
     = (Err "Error: Path traversal not allowed", disk).
Proof.
  intros Hname Hs Hdots Hne Hfree.
  assert (Path.resolve root s = root ++ [s]) as Hres.
  { unfold Path.resolve. rewrite (split_slashFree _ Hfree).
    destruct (startsWith_inv _ _ Hdots) as [t Ht].
    change (".." +:+ t) with (String "." (String "." t)) in Ht.
    destruct t as [|c t]; [done|]. rewrite Ht.
    change (Path.isAbsolute (String "." (String "." (String c t)))) with false.
    cbn [Path.normalize].
    assert (String.eqb (String "." (String "." (String c t))) "" = false) as -> by done.
    assert (String.eqb (String "." (String "." (String c t))) "." = false) as -> by done.
    assert (String.eqb (String "." (String "." (String c t))) ".." = false) as ->
      by (by apply String.eqb_neq).
    simpl. by rewrite rev_involutive. }
  split; [done|]. rewrite Hres. split; [apply insideRoot_app|].
  apply (rejected_path shell root name args disk (Error "Path traversal not allowed"));
    [done|].
  rewrite Hs. unfold resolvePath. rewrite Hres.
  unfold Path.relative. rewrite stripCommon_below.
  cbn [length replicate app Str.join]. by rewrite Hdots.
Qed.




Lemma listRecursive_flat es pre :
  listRecursive false (Dir es) pre = map (displayName pre) es.
Proof.
  induction es as [|[name [c|sub]] es IH]; [done| |].
  - change (listRecursive false (Dir ((name, File c) :: es)) pre)
      with ((pre +:+ name) :: listRecursive false (Dir es) pre).
    by rewrite IH.
  - change (listRecursive false (Dir ((name, Dir sub) :: es)) pre)
      with (((pre +:+ name) +:+ "/") :: listRecursive false (Dir es) pre).
    by rewrite IH.
Qed.

Lemma listRecursive_length n pre :
  length (listRecursive true n pre) = descendants n.
Proof.
  revert pre. induction n as [c|es IH] using Node_nested_ind; intros pre; [done|].
  induction IH as [|[name entry] es Hentry _ IHes]; [done|].
  destruct entry as [c|sub].
  - change (listRecursive true (Dir ((name, File c) :: es)) pre)
      with ((pre +:+ name) :: listRecursive true (Dir es) pre).
    change (descendants (Dir ((name, File c) :: es)))
      with (S (descendants (File c)) + descendants (Dir es)).
    cbn [length]. by rewrite IHes.
  - change (listRecursive true (Dir ((name, Dir sub) :: es)) pre)
      with (((pre +:+ name) +:+ "/")
              :: listRecursive true (Dir sub) ((pre +:+ name) +:+ "/")
              ++ listRecursive true (Dir es) pre).
    change (descendants (Dir ((name, Dir sub) :: es)))
      with (S (descendants (Dir sub)) + descendants (Dir es)).
    cbn [snd] in Hentry. cbn [length]. rewrite length_app, Hentry, IHes. done.
Qed.

(** X11. [list_dir] on an accepted directory prints, joined by newlines
    (or [(empty directory)] when there is none), one line per entry in the
    order of the directory, a directory's name followed by [/], when it is
    not recursive; when it is recursive it prints one line for every file and
    directory below. The disk is unchanged. *)
Theorem list_dir_lines shell root args disk dirPath es :
  resolvePath root (Js.ToString (Js.prop args "path")) disk = (inr dirPath, disk) ->
  Fs.lookup dirPath disk = Some (Dir es) ->
  exists items,
    executeTool shell root "list_dir" args disk
    = (Output (Js.stringOr (Str.join Str.nl items) "(empty directory)"), disk)
    /\ (Js.ToBoolean (Js.prop args "recursive") = false -> items = map (displayName "") es)
    /\ (Js.ToBoolean (Js.prop args "recursive") = true ->
        length items = descendants (Dir es)).
Proof.
  intros R L.
  exists (listRecursive (Js.ToBoolean (Js.prop args "recursive")) (Dir es) "").
  split; [|split].
  - change (executeTool shell root "list_dir" args disk) with (listDir root args disk).
    unfold listDir, tryCatch, bind, FsOps.existsSync, FsOps.readdirSync. rewrite R, L.
    rewrite bool_decide_eq_true_2 by eauto. simpl. by rewrite L.
  - intros ->. apply listRecursive_flat.
  - intros ->. apply listRecursive_length.
Qed.

(** ** The settings *)

(** X12. What [setPermission] stores for a tool is what [getPermission]
    reads back, and the other tools keep what they had; [grantPermission]
    with [alwaysAllow] makes the tool allowed and without it changes nothing;
    a permission in mode [ask] is not allowed. *)
Theorem permission_set_then_read s tool permission :
  SettingsManager.getPermission (SettingsManager.setPermission s tool permission) tool
  = Some permission
  /\ (forall other, other <> tool ->
        SettingsManager.getPermission (SettingsManager.setPermission s tool permission) other
        = SettingsManager.getPermission s other)
  /\ SettingsManager.isAllowed (SettingsAdmin.grantPermission s tool true) tool = true
  /\ SettingsAdmin.grantPermission s tool false = s
  /\ SettingsManager.isAllowed
       (SettingsManager.setPermission s tool {| mode := ask; allowed := None |}) tool = false.
Proof.
  unfold SettingsManager.isAllowed, SettingsManager.getPermission,
    SettingsManager.setPermission, SettingsAdmin.grantPermission. simpl.
  rewrite !lookup_insert_eq. repeat split.
  intros other Hne. by rewrite lookup_insert_ne.
Qed.

(** X13. [setModel] changes the model and keeps every permission.
    [reset] leaves no tool allowed and also puts the model back to the
    default: the settings are those of a project without a settings file. *)
Theorem reset_forgets_everything s newModel tool :
  SettingsManager.isAllowed (SettingsAdmin.setModel s newModel) tool
  = SettingsManager.isAllowed s tool
  /\ SettingsManager.getModel (SettingsAdmin.setModel s newModel) = newModel
  /\ SettingsManager.isAllowed (SettingsManager.reset s) tool = false
  /\ SettingsManager.getModel (SettingsManager.reset s) = DEFAULT_MODEL
  /\ SettingsManager.reset s = SettingsAdmin.load None.
Proof.
  unfold SettingsManager.isAllowed, SettingsManager.getPermission. simpl.
  by rewrite lookup_empty.
Qed.

(** ** The history *)

Lemma lookup_last_snoc {A} (l : list A) x : (l ++ [x]) !! (length (l ++ [x]) - 1) = Some x.
Proof.
  rewrite length_app. simpl. replace (length l + 1 - 1) with (length l) by lia.
  by rewrite lookup_app_r, Nat.sub_diag.
Qed.

Lemma getLastSession_last h : Sessions.getLastSession h = last (hs_sessions h).
Proof.
  unfold Sessions.getLastSession. rewrite last_lookup.
  destruct (hs_sessions h) as [|s l]; [done|].
  by replace (length (s :: l) - 1) with (Nat.pred (length (s :: l))) by (simpl; lia).
Qed.

Lemma createSession_new id createdAt h :
  let session := {| sess_id := id; sess_createdAt := createdAt; sess_messages := [] |} in
  let h' := (Sessions.createSession id createdAt h).2 in
  (Sessions.createSession id createdAt h).1 = session
  /\ Sessions.getCurrentSession h' = Some session
  /\ Sessions.getLastSession h' = Some session
  /\ Sessions.getMessages h' = []
  /\ Sessions.getSessionCount h' = S (Sessions.getSessionCount h)
  /\ take (Sessions.getSessionCount h) (hs_sessions h') = hs_sessions h.
Proof.
  intros session h'.
  assert (Sessions.getCurrentSession h' = Some session) as Hcur.
  { unfold Sessions.getCurrentSession. simpl.
    by rewrite lookup_app_r, Nat.sub_diag. }
  split; [done|]. split; [done|]. split.
  { rewrite getLastSession_last. simpl. apply last_snoc. }
  split; [unfold Sessions.getMessages; by rewrite Hcur|].
  split.
  { unfold Sessions.getSessionCount. simpl. rewrite length_app. simpl. lia. }
  unfold Sessions.getSessionCount. simpl. by rewrite take_app_length.
Qed.

(** X14. [createSession] returns a session with no messages, makes it the
    current and the last session, and adds it after the sessions the history
    already held, which stay as they were. *)
Theorem createSession_opens_empty id createdAt h :
  let session := {| sess_id := id; sess_createdAt := createdAt; sess_messages := [] |} in
  let h' := (Sessions.createSession id createdAt h).2 in
  (Sessions.createSession id createdAt h).1 = session
  /\ Sessions.getCurrentSession h' = Some session
  /\ Sessions.getLastSession h' = Some session
  /\ Sessions.getMessages h' = []
  /\ Sessions.getSessionCount h' = S (Sessions.getSessionCount h)
  /\ take (Sessions.getSessionCount h) (hs_sessions h') = hs_sessions h.
Proof. apply createSession_new. Qed.


(** the two facts every call of the manager keeps *)
Lemma applyOp_keeps h op :
  currentIsLast h /\ hs_sessions (Sessions.load (hs_file h)) = hs_sessions h ->
  currentIsLast (applyOp h op)
  /\ hs_sessions (Sessions.load (hs_file (applyOp h op))) = hs_sessions (applyOp h op).
Proof.
  unfold currentIsLast.
  intros [Hlast Hfile]. destruct op as [id createdAt| |message|messages|]; simpl.
  - split; [|done]. intros i [= <-]. rewrite length_app. simpl. lia.
  - rewrite getLastSession_last.
    destruct (last (hs_sessions h)) as [s|] eqn:L; [|done]. simpl.
    split; [|done]. intros i [= <-].
    destruct (hs_sessions h); [done|]. simpl. lia.
  - unfold Sessions.addMessage. destruct (hs_current h) as [i|] eqn:C;
      [|split; [intros i; by rewrite C | done]].
    simpl. split; [|done]. intros j. rewrite length_alter. intros Hj.
    by apply Hlast.
  - unfold Sessions.setCurrentSessionMessages.
    destruct (hs_current h) as [i|] eqn:C;
      [|split; [intros i; by rewrite C | done]].
    simpl. split; [|done]. intros j. rewrite length_alter. intros Hj.
    by apply Hlast.
  - split; [|done]. intros i. simpl. done.
Qed.

Lemma afterOps_keeps file ops :
  currentIsLast (afterOps file ops)
  /\ hs_sessions (Sessions.load (hs_file (afterOps file ops)))
     = hs_sessions (afterOps file ops).
Proof.
  unfold afterOps.
  assert (currentIsLast (Sessions.load file)
          /\ hs_sessions (Sessions.load (hs_file (Sessions.load file)))
             = hs_sessions (Sessions.load file)) as H by (split; [by intros i|done]).
  revert H. generalize (Sessions.load file).
  induction ops as [|op ops IH]; intros h H; [done|].
  simpl. apply IH. by apply applyOp_keeps.
Qed.

(** X16. Whatever calls the manager has served since it was made, the
    history file holds the sessions it has in memory; and when a session is
    current, a new manager made from the file resumes exactly that session,
    messages included. *)
Theorem history_file_in_step file ops :
  let h := afterOps file ops in
  hs_sessions (Sessions.load (hs_file h)) = hs_sessions h
  /\ (forall session,
        Sessions.getCurrentSession h = Some session ->
        (Sessions.resumeLastSession (Sessions.load (hs_file h))).1 = Some session).
Proof.
  intros h. destruct (afterOps_keeps file ops) as [Hlast Hfile]. fold h in Hlast, Hfile.
  split; [done|].
  intros session. unfold Sessions.getCurrentSession.
  destruct (hs_current h) as [i|] eqn:C; [|done].
  destruct (Hlast i C) as [Hpos ->]. intros L.
  unfold Sessions.resumeLastSession, Sessions.getLastSession. simpl.
  change (match hs_file h with Stored sessions => sessions | _ => [] end)
    with (hs_sessions (Sessions.load (hs_file h))).
  rewrite Hfile. destruct (hs_sessions h); [simpl in Hpos; lia | done].
Qed.

(** X17. However the shell opens its session, a session is current
    afterwards. With [--resume] and a history that is not empty it is the last
    session and none is added; otherwise a new session without messages is
    added. *)
Theorem openSession_has_session resume id createdAt h :
  let h' := openSession resume id createdAt h in
  is_Some (Sessions.getCurrentSession h')
  /\ (resume = true -> hs_sessions h <> [] ->
      hs_sessions h' = hs_sessions h
      /\ Sessions.getCurrentSession h' = last (hs_sessions h))
  /\ (resume = false \/ hs_sessions h = [] ->
      Sessions.getSessionCount h' = S (Sessions.getSessionCount h)
      /\ Sessions.getMessages h' = []).
Proof.
  intros h'.
  assert (forall g, is_Some (Sessions.getCurrentSession (Sessions.createSession id createdAt g).2)
                    /\ Sessions.getSessionCount (Sessions.createSession id createdAt g).2
                       = S (Sessions.getSessionCount g)
                    /\ Sessions.getMessages (Sessions.createSession id createdAt g).2 = [])
    as Hnew.
  { intros g. destruct (createSession_new id createdAt g) as (_ & C & _ & M & N & _).
    split; [by rewrite C|]. done. }
  assert (hs_sessions h <> [] ->
          Sessions.resumeLastSession h
          = (last (hs_sessions h),
             {| hs_sessions := hs_sessions h;
                hs_current := Some (length (hs_sessions h) - 1);
                hs_file := hs_file h |})
          /\ is_Some (last (hs_sessions h))) as Hres.
  { intros Hne. unfold Sessions.resumeLastSession, Sessions.getLastSession.
    destruct (hs_sessions h) as [|s l] eqn:E; [done|].
    rewrite last_lookup. simpl. rewrite Nat.sub_0_r.
    destruct (lookup_lt_is_Some_2 (s :: l) (length l)) as [x Hx]; [simpl; lia|].
    rewrite Hx. split; [done|eauto]. }
  assert (hs_sessions h = [] -> Sessions.resumeLastSession h = (None, h)) as Hnone.
  { intros E. unfold Sessions.resumeLastSession, Sessions.getLastSession. by rewrite E. }
  subst h'. unfold openSession. split; [|split].
  - destruct resume; [|apply Hnew].
    destruct (decide (hs_sessions h = [])) as [E|Hne].
    + rewrite (Hnone E). apply Hnew.
    + destruct (Hres Hne) as [-> [x Hx]]. rewrite Hx.
      unfold Sessions.getCurrentSession. simpl.
      rewrite last_lookup in Hx.
      replace (length (hs_sessions h) - 1) with (Nat.pred (length (hs_sessions h))) by lia.
      rewrite Hx. eauto.
  - intros -> Hne. destruct (Hres Hne) as [-> [x Hx]]. rewrite Hx.
    split; [done|]. unfold Sessions.getCurrentSession. simpl.
    rewrite last_lookup in Hx.
    by replace (length (hs_sessions h) - 1) with (Nat.pred (length (hs_sessions h))) by lia.
  - intros [-> | E]; [apply Hnew|].
    destruct resume; [|apply Hnew]. rewrite (Hnone E). apply Hnew.
Qed.

(** ** One request, one reply *)

Lemma addMessage_run msg w s :
  currentSession w = Some s ->
  HistoryManager.addMessage msg w
  = (Returned tt,
     logEvent (EvSave HISTORY_FILE)
       (setHeap (alter (fun l => l ++ [msg]) s (heap w)) w)).
Proof. intros Hs. unfold HistoryManager.addMessage. by rewrite Hs. Qed.

(** a hop of the loop up to the reply of the model, for a context within
    the limit and a reply that is not a rate-limit error *)
Lemma hop_until_reply env n hops cur w :
  (calculateContentSize (deref w cur) <= MAX_CONTEXT_CHARS)%Z ->
  rateLimited
    (generateContent env (countEvents isGenerate (trace w))
       (mainParams (model (settings w)) (deref w cur) (planMode w))) = false ->
  agenticLoopFrom env (S n) hops cur w
  = let params := mainParams (model (settings w)) (deref w cur) (planMode w) in
    let w' := appendTrace
                [EvContextLog (S hops) (length (deref w cur))
                   (calculateContentSize (deref w cur))
                   ((calculateContentSize (deref w cur) + 3) / 4)%Z;
                 EvGenerate params] w in
    match generateContent env (countEvents isGenerate (trace w)) params with
    | Respond response =>
        match resp_functionCalls response with
        | None | Some [] =>
            (Returned (default "No response from agent." (resp_text response)), w')
        | Some funcCalls =>
            ((match modelContentOf response with
              | Some modelContent =>
                  HistoryManager.addMessage modelContent;;
                  push cur modelContent
              | None => aret tt
              end);;
             dispatchAll env cur funcCalls;;
             agenticLoopFrom env n (S hops) cur)%agent w'
        end
    | Reject e => (Threw e, w')
    | Stall => (Threw (Error "API request timed out after 600 seconds"), w')
    end.
Proof.
  intros Hsize Hreply. cbn [agenticLoopFrom].
  unfold abind at 1. unfold logContextSize, abind at 1, readArray at 1, emit.
  set (w0 := logEvent _ w).
  unfold abind at 1. unfold readArray at 1.
  change (deref w0 cur) with (deref w cur).
  destruct (Z.ltb_spec MAX_CONTEXT_CHARS (calculateContentSize (deref w cur))); [lia|].
  unfold abind at 1. unfold aret at 1.
  unfold abind at 1. unfold abind at 1.
  unfold SettingsStore.getModel at 1, SettingsManager.getModel.
  unfold abind at 1. unfold readArray at 1.
  change (deref w0 cur) with (deref w cur).
  change (planMode w0) with (planMode w). change (settings w0) with (settings w).
  unfold abind at 1. unfold withTimeout, generateContentWithRetry.
  rewrite (generateContentAttempts_protocol env _ 3 0 w0); [|lia|intros i Hi; lia|].
  2:{ intros _. rewrite Nat.add_0_r.
      assert (countEvents isGenerate (trace w0) = countEvents isGenerate (trace w)) as ->.
      { unfold w0. simpl. rewrite countEvents_app. unfold countEvents at 2. simpl. lia. }
      done. }
  rewrite Nat.add_0_r.
  assert (countEvents isGenerate (trace w0) = countEvents isGenerate (trace w)) as ->.
  { unfold w0. simpl. rewrite countEvents_app. unfold countEvents at 2. simpl. lia. }
  unfold w0. rewrite logEvent_appendTrace, appendTrace_app. simpl.
  destruct (generateContent env _ _) as [response|e|]; simpl; [|done|done].
  destruct (resp_functionCalls response) as [[|fc fcs]|]; done.
Qed.

(** [processMessage] up to the first reply of the model *)
Lemma processMessage_first_hop env userMessage w s :
  currentSession w = Some s ->
  s < length (heap w) ->
  let contents := deref w s ++ [userTurn userMessage] in
  let w2 := setHeap (alter (fun l => l ++ [userTurn userMessage]) s (heap w) ++ [contents])
              (logEvent (EvSave HISTORY_FILE) w) in
  processMessage env userMessage w
  = (let* result := agenticLoopFrom env MAX_HOPS 0 (length (heap w)) in
     HistoryManager.addMessage (modelTurn result);;
     aret result)%agent w2
  /\ deref w2 (length (heap w)) = contents
  /\ deref w2 s = contents.
Proof.
  intros Hs Hlt contents w2.
  assert (deref w2 (length (heap w)) = contents) as Hcur.
  { unfold w2, deref. simpl.
    rewrite <- (length_alter (fun l => l ++ [userTurn userMessage]) (heap w) s) at 1.
    by rewrite list_lookup_middle. }
  assert (deref w2 s = contents) as Hses.
  { unfold w2, deref. simpl. rewrite lookup_app_l by (by rewrite length_alter).
    by rewrite deref_alter_eq. }
  split; [|done].
  unfold processMessage. unfold abind at 1.
  rewrite (addMessage_run _ _ s Hs).
  unfold abind at 1. unfold HistoryManager.getMessages at 1. simpl currentSession.
  rewrite Hs. unfold abind at 1. unfold agenticLoop, abind at 1, readArray at 1.
  unfold abind at 1. unfold newArray at 1.
  match goal with
  | |- context [agenticLoopFrom env MAX_HOPS 0 ?c ?x] =>
      replace c with (length (heap w)) by (simpl; by rewrite length_alter);
      replace x with w2; [done|]
  end.
  unfold w2, contents, setHeap, logEvent, deref. simpl.
  by rewrite deref_alter_eq.
Qed.

(** X18. A request whose context stays within the limit and whose first
    reply requests no action is answered after that one call: [processMessage]
    returns the text of the reply (or [No response from agent.]), the session
    holds the user's turn and then the model's turn, the history is saved
    twice, and neither the disk nor the settings change. *)
Theorem plain_answer env userMessage w s response :
  let contents := deref w s ++ [userTurn userMessage] in
  let params := mainParams (model (settings w)) contents (planMode w) in
  let answer := default "No response from agent." (resp_text response) in
  currentSession w = Some s ->
  s < length (heap w) ->
  (calculateContentSize contents <= MAX_CONTEXT_CHARS)%Z ->
  generateContent env (countEvents isGenerate (trace w)) params = Respond response ->
  resp_functionCalls response = None \/ resp_functionCalls response = Some [] ->
  exists w',
    processMessage env userMessage w = (Returned answer, w')
    /\ deref w' s = contents ++ [modelTurn answer]
    /\ currentSession w' = Some s
    /\ fs w' = fs w
    /\ settings w' = settings w
    /\ trace w'
       = trace w ++ [EvSave HISTORY_FILE;
                     EvContextLog 1 (length contents) (calculateContentSize contents)
                       ((calculateContentSize contents + 3) / 4)%Z;
                     EvGenerate params;
                     EvSave HISTORY_FILE].
Proof.
  intros contents params answer Hs Hlt Hsize Hreply Hcalls.
  destruct (processMessage_first_hop env userMessage w s Hs Hlt) as (-> & Hcur & Hses).
  fold contents in Hcur, Hses.
  set (w2 := setHeap _ _) in *.
  assert (countEvents isGenerate (trace w2) = countEvents isGenerate (trace w)) as Hcount.
  { unfold w2. simpl. rewrite countEvents_app. unfold countEvents at 2. simpl. lia. }
  pose proof (hop_until_reply env 24 0 (length (heap w)) w2) as Hhop.
  cbv zeta in Hhop. rewrite Hcur, Hcount in Hhop.
  change (settings w2) with (settings w) in Hhop.
  change (planMode w2) with (planMode w) in Hhop.
  fold params in Hhop. rewrite Hreply in Hhop.
  specialize (Hhop Hsize eq_refl).
  unfold abind at 1. change MAX_HOPS with (S 24). rewrite Hhop. clear Hhop.
  assert (match resp_functionCalls response with
          | None | Some [] => true | _ => false end = true) as Hnone
    by (by destruct Hcalls as [-> | ->]).
  destruct (resp_functionCalls response) as [[|fc fcs]|]; try done.
  all: fold answer; unfold abind at 1;
    rewrite (addMessage_run _ _ s) by done; unfold aret;
    eexists; (split; [reflexivity|]);
    (split; [unfold deref; cbn [heap setHeap logEvent appendTrace];
             rewrite deref_alter_eq
               by (unfold w2; simpl; rewrite length_app, length_alter; lia);
             exact (f_equal (fun l => l ++ [modelTurn answer]) Hses)|]);
    (split; [done|]); (split; [done|]); (split; [done|]);
    simpl; by rewrite <- !app_assoc.
Qed.


(** ** Bounds that hold whatever the model replies *)

Lemma settles_aret {A} (a : A) : settlesWithin 0 (aret a).
Proof. intros w. split; [done|]. exists []. by rewrite app_nil_r. Qed.

Lemma settles_abind {A B} a b n (m : Agent A) (f : A -> Agent B) :
  settlesWithin a m -> (forall x, settlesWithin b (f x)) -> a + b <= n ->
  settlesWithin n (abind m f).
Proof.
  intros Hm Hf Hn w. unfold abind. destruct (Hm w) as (Hp & evs1 & T1 & C1).
  destruct (m w) as [[x|e|] w1]; simpl in *.
  - destruct (Hf x w1) as (Hq & evs2 & T2 & C2). split; [done|].
    exists (evs1 ++ evs2). rewrite T2, T1, app_assoc, countEvents_app.
    split; [done|lia].
  - split; [done|]. exists evs1. split; [done|lia].
  - done.
Qed.

(** a step that returns and logs no call of the model *)
Lemma settles_quiet {A} (m : Agent A) :
  (forall w, exists x w' evs,
      m w = (Returned x, w') /\ trace w' = trace w ++ evs
      /\ countEvents isGenerate evs = 0) ->
  settlesWithin 0 m.
Proof.
  intros H w. destruct (H w) as (x & w' & evs & -> & T & C).
  split; [done|]. exists evs. split; [done|lia].
Qed.

Lemma settles_if {A} n (c : bool) (m1 m2 : Agent A) :
  settlesWithin n m1 -> settlesWithin n m2 -> settlesWithin n (if c then m1 else m2).
Proof. by destruct c. Qed.

Lemma settles_weaken {A} a n (m : Agent A) :
  a <= n -> settlesWithin a m -> settlesWithin n m.
Proof.
  intros Hn Hm w. destruct (Hm w) as (Hp & evs & T & C).
  split; [done|]. exists evs. split; [done|lia].
Qed.

Lemma settles_emit e : isGenerate e = false -> settlesWithin 0 (emit e).
Proof.
  intros He. apply settles_quiet. intros w. exists tt, (logEvent e w), [e].
  split; [done|]. split; [done|]. unfold countEvents. simpl. by rewrite He.
Qed.

Lemma settles_readArray r : settlesWithin 0 (readArray r).
Proof.
  apply settles_quiet. intros w. exists (deref w r), w, []. by rewrite app_nil_r.
Qed.

Lemma settles_newArray l : settlesWithin 0 (newArray l).
Proof.
  apply settles_quiet. intros w. eexists _, _, []. split; [reflexivity|].
  simpl. by rewrite app_nil_r.
Qed.

Lemma settles_push r msg : settlesWithin 0 (push r msg).
Proof.
  apply settles_quiet. intros w. eexists _, _, []. split; [reflexivity|].
  simpl. by rewrite app_nil_r.
Qed.

Lemma settles_addMessage msg : settlesWithin 0 (HistoryManager.addMessage msg).
Proof.
  intros w. unfold HistoryManager.addMessage. destruct (currentSession w).
  - apply (settles_abind 0 0); [apply settles_push | intros _; by apply settles_emit | lia].
  - apply settles_aret.
Qed.

Lemma settles_record msg cur :
  settlesWithin 0 (HistoryManager.addMessage msg;; push cur msg)%agent.
Proof.
  apply (settles_abind 0 0); [apply settles_addMessage | intros _; apply settles_push | lia].
Qed.

Lemma settles_setCurrentSessionMessages r :
  settlesWithin 0 (HistoryManager.setCurrentSessionMessages r).
Proof.
  intros w. unfold HistoryManager.setCurrentSessionMessages. destruct (currentSession w).
  - split; [done|]. by exists [EvSave HISTORY_FILE].
  - apply settles_aret.
Qed.

Lemma settles_getMessages : settlesWithin 0 HistoryManager.getMessages.
Proof.
  intros w. unfold HistoryManager.getMessages. destruct (currentSession w).
  - apply settles_aret.
  - apply settles_newArray.
Qed.

Lemma settles_getModel : settlesWithin 0 SettingsStore.getModel.
Proof. apply settles_quiet. intros w. eexists _, w, []. by rewrite app_nil_r. Qed.

Section AnyReplies.
Variable env : Env.

Lemma calls_generateContentAttempts n params :
  callsWithin (S n) (generateContentAttempts env n params).
Proof.
  induction n as [|n IH]; intros w; simpl.
  - rewrite ai_generateContent_settles. by exists [EvGenerate params].
  - rewrite ai_generateContent_settles.
    destruct (settle _) as [r|e|]; simpl; try (exists [EvGenerate params]; split; [done|]; unfold countEvents; simpl; lia).
    destruct (isRateLimit e); simpl;
      [|exists [EvGenerate params]; split; [done|]; unfold countEvents; simpl; lia].
    unfold abind, sleep, emit. simpl.
    destruct (IH (logEvent (EvSleep 60000) (appendTrace [EvGenerate params] w)))
      as (evs & -> & C).
    exists ([EvGenerate params; EvSleep 60000] ++ evs). simpl.
    split; [by rewrite <- !app_assoc|].
    change (EvGenerate params :: EvSleep 60000 :: evs)
      with ([EvGenerate params; EvSleep 60000] ++ evs).
    rewrite countEvents_app. unfold countEvents at 1. simpl. lia.
Qed.

Lemma settles_withTimeout {A} n (m : Agent A) ms msg :
  callsWithin n m -> settlesWithin n (withTimeout m ms msg).
Proof.
  intros Hm w. unfold withTimeout. specialize (Hm w).
  by destruct (m w) as [[a|e|] w1].
Qed.

Lemma settles_call params ms msg :
  settlesWithin 4 (withTimeout (generateContentWithRetry env params 3) ms msg).
Proof. apply settles_withTimeout, calls_generateContentAttempts. Qed.

Lemma settles_summarizeToolCalls contents :
  settlesWithin 4 (summarizeToolCalls env contents).
Proof.
  unfold summarizeToolCalls.
  apply (settles_abind 0 4); [apply settles_readArray| |lia]. intros arr.
  destruct (classifyFrom 0 arr) as [[ts os] idx].
  apply settles_if; [apply (settles_weaken 0); [lia|apply settles_aret]|].
  apply (settles_abind 0 4); [apply settles_getModel| |lia]. intros m.
  apply (settles_abind 4 0); [apply settles_call| |lia].
  intros resp. apply (settles_abind 0 0); [apply settles_readArray| |lia].
  intros arr'. apply settles_newArray.
Qed.

Lemma settles_runTool name args : settlesWithin 0 (runTool env name args).
Proof.
  apply settles_quiet. intros w. unfold runTool.
  destruct (executeTool _ _ _ _ _) as [result fs'].
  by eexists _, _, [EvExecute name args].
Qed.

Lemma settles_dispatch cur fc : settlesWithin 0 (dispatch env cur fc).
Proof.
  unfold dispatch.
  apply (settles_abind 0 0); [| |lia].
  { apply settles_quiet. intros w. eexists _, w, []. by rewrite app_nil_r. }
  intros hasPermission. apply (settles_abind 0 0); [| |lia].
  - apply settles_if; [|apply settles_aret].
    apply (settles_abind 0 0); [| |lia].
    + apply settles_quiet. intros w. unfold promptPermission.
      by eexists _, _, [EvPrompt _ _ _].
    + intros resp. apply (settles_abind 0 0); [|intros _; apply settles_aret|lia].
      apply settles_if; [|apply settles_aret].
      apply settles_quiet. intros w. by eexists tt, _, [EvSave SETTINGS_FILE].
  - intros g. apply settles_if; [apply settles_record|].
    apply (settles_abind 0 0); [apply settles_runTool| |lia].
    intros result. apply settles_record.
Qed.

Lemma settles_dispatchAll cur fcs : settlesWithin 0 (dispatchAll env cur fcs).
Proof.
  induction fcs as [|fc fcs IH]; simpl; [apply settles_aret|].
  apply (settles_abind 0 0); [apply settles_dispatch | intros _; apply IH | lia].
Qed.

Lemma settles_agenticLoopFrom remaining hops cur :
  settlesWithin (8 * remaining) (agenticLoopFrom env remaining hops cur).
Proof.
  revert hops cur; induction remaining as [|n IH]; intros hops cur;
    cbn [agenticLoopFrom]; [apply settles_aret|].
  apply (settles_abind 0 (8 * S n)); [| |lia].
  { unfold logContextSize. apply (settles_abind 0 0); [apply settles_readArray| |lia].
    intros arr. by apply settles_emit. }
  intros _. apply (settles_abind 0 (8 * S n)); [apply settles_readArray| |lia].
  intros arr. apply (settles_abind 4 (4 + 8 * n)); [| |lia].
  { apply settles_if; [|apply (settles_weaken 0); [lia|apply settles_aret]].
    apply (settles_abind 4 0); [apply settles_summarizeToolCalls| |lia]. intros r.
    apply (settles_abind 0 0); [apply settles_setCurrentSessionMessages| |lia].
    intros _. apply settles_aret. }
  intros cur'. apply (settles_abind 0 (4 + 8 * n)); [| |lia].
  { apply settles_quiet. intros w. eexists _, w, []. by rewrite app_nil_r. }
  intros plan. apply (settles_abind 0 (4 + 8 * n)); [apply settles_getModel| |lia].
  intros m. apply (settles_abind 0 (4 + 8 * n)); [apply settles_readArray| |lia].
  intros arr'. apply (settles_abind 4 (8 * n)); [apply settles_call| |lia].
  intros response.
  destruct (resp_functionCalls response) as [[|fc fcs]|];
    try (apply (settles_weaken 0); [lia|apply settles_aret]).
  apply (settles_abind 0 (8 * n)); [| |lia].
  { destruct (modelContentOf response); [apply settles_record | apply settles_aret]. }
  intros _. apply (settles_abind 0 (8 * n)); [apply settles_dispatchAll | intros _; apply IH | lia].
Qed.

Lemma settles_processMessage userMessage :
  settlesWithin 200 (processMessage env userMessage).
Proof.
  unfold processMessage.
  apply (settles_abind 0 200); [apply settles_addMessage| |lia]. intros _.
  apply (settles_abind 0 200); [apply settles_getMessages| |lia]. intros contents.
  apply (settles_abind 200 0); [| |lia].
  { unfold agenticLoop. apply (settles_abind 0 200); [apply settles_readArray| |lia].
    intros arr. apply (settles_abind 0 200); [apply settles_newArray| |lia].
    intros cur. apply (settles_agenticLoopFrom MAX_HOPS). }
  intros result. apply (settles_abind 0 0); [apply settles_addMessage| |lia].
  intros _. apply settles_aret.
Qed.
End AnyReplies.

(** X20. Whatever the model replies and whatever the user answers (a
    prompt being answered and a command ending, as everywhere here),
    [processMessage] returns or throws: it never stays pending, both calls of
    the model being under a time-out. It makes at most [2 * 4 * MAX_HOPS]
    calls of the model. *)
Theorem request_always_settles env userMessage w :
  (processMessage env userMessage w).1 <> Pending
  /\ exists evs,
       trace (processMessage env userMessage w).2 = trace w ++ evs
       /\ countEvents isGenerate evs <= 2 * 4 * MAX_HOPS.
Proof. apply settles_processMessage. Qed.

(** ** What a dispatch records and what it changes *)

(** every path through [dispatch] ends by recording one result turn *)
Lemma dispatch_shape env cur fc w :
  let toolName := default "unknown" (fc_name fc) in
  let args := default [] (fc_args fc) in
  let key := default toolName (TOOL_PERMISSIONS toolName) in
  let response := onPermissionPrompt env (countEvents isPrompt (trace w)) key args
                    (getToolDescription toolName args) in
  exists w0 msg,
    dispatch env cur fc w
    = (HistoryManager.addMessage msg;; push cur msg)%agent w0
    /\ answers fc msg
    /\ heap w0 = heap w
    /\ currentSession w0 = currentSession w
    /\ settings w0
       = (if negb (SettingsManager.isAllowed (settings w) key)
             && granted response && alwaysAllow response
          then SettingsManager.setPermission (settings w) key
                 {| mode := allow; allowed := None |}
          else settings w)
    /\ trace w0
       = trace w
         ++ (if SettingsManager.isAllowed (settings w) key then []
             else [EvPrompt key args (getToolDescription toolName args)])
         ++ (if negb (SettingsManager.isAllowed (settings w) key)
                && granted response && alwaysAllow response
             then [EvSave SETTINGS_FILE] else [])
         ++ (if SettingsManager.isAllowed (settings w) key || granted response
             then [EvExecute toolName args] else [])
    /\ (SettingsManager.isAllowed (settings w) key || granted response = false ->
        fs w0 = fs w).
Proof.
  intros toolName args key response.
  destruct (SettingsManager.isAllowed (settings w) key) eqn:Hkey.
  - rewrite dispatch_allowed by done. fold toolName args.
    unfold abind at 1. unfold runTool at 1.
    destruct (executeTool (shell env) (projectRoot env) toolName args (fs w))
      as [result fs'].
    eexists _, _. split; [reflexivity|]. split; [by eexists|]. done.
  - destruct (granted response) eqn:Hg.
    + assert (exists w1,
                 dispatch env cur fc w
                 = (let* result := runTool env toolName args in
                    HistoryManager.addMessage (toolResponse toolName result);;
                    push cur (toolResponse toolName result))%agent w1
                 /\ heap w1 = heap w /\ currentSession w1 = currentSession w
                 /\ settings w1
                    = (if alwaysAllow response
                       then SettingsManager.setPermission (settings w) key
                              {| mode := allow; allowed := None |}
                       else settings w)
                 /\ trace w1
                    = trace w ++ [EvPrompt key args (getToolDescription toolName args)]
                      ++ (if alwaysAllow response then [EvSave SETTINGS_FILE] else []))
        as (w1 & -> & H1 & H2 & H3 & H4).
      { unfold dispatch. fold toolName args key.
        unfold abind at 1. unfold SettingsStore.isAllowed at 1. rewrite Hkey.
        simpl negb. cbv iota. unfold abind at 1. unfold abind at 1.
        unfold promptPermission at 1. fold response.
        destruct response as [g a]. simpl in Hg. subst g.
        destruct a; eexists; (split; [reflexivity|]); simpl;
          by rewrite <- ?app_assoc. }
      unfold abind at 1. unfold runTool at 1.
      destruct (executeTool (shell env) (projectRoot env) toolName args (fs w1))
        as [result fs'].
      eexists _, _. split; [reflexivity|]. split; [by eexists|].
      simpl. rewrite H4. destruct (alwaysAllow response); simpl;
        by rewrite <- ?app_assoc.
    + rewrite dispatch_denied by done. fold toolName args key.
      eexists _, _. split; [reflexivity|]. split; [by eexists|]. done.
Qed.

(** recording a message leaves the disk, the settings and the size of the
    heap alone *)
Lemma record_message_frame msg cur w :
  settings ((HistoryManager.addMessage msg;; push cur msg)%agent w).2 = settings w
  /\ length (heap ((HistoryManager.addMessage msg;; push cur msg)%agent w).2)
     = length (heap w)
  /\ fs ((HistoryManager.addMessage msg;; push cur msg)%agent w).2 = fs w
  /\ trace ((HistoryManager.addMessage msg;; push cur msg)%agent w).2
     = trace w ++ savedHistory w.
Proof.
  unfold abind, HistoryManager.addMessage, HistoryManager.save, push, emit, savedHistory.
  destruct (currentSession w); simpl; by rewrite !length_alter, ?app_nil_r.
Qed.

(** the settings and the events of one dispatch *)
Lemma dispatch_events env cur fc w :
  let toolName := default "unknown" (fc_name fc) in
  let args := default [] (fc_args fc) in
  let key := default toolName (TOOL_PERMISSIONS toolName) in
  let response := onPermissionPrompt env (countEvents isPrompt (trace w)) key args
                    (getToolDescription toolName args) in
  let allowedBefore := SettingsManager.isAllowed (settings w) key in
  let persist := negb allowedBefore && granted response && alwaysAllow response in
  settings (dispatch env cur fc w).2
  = (if persist
     then SettingsManager.setPermission (settings w) key {| mode := allow; allowed := None |}
     else settings w)
  /\ trace (dispatch env cur fc w).2
     = trace w
       ++ (if allowedBefore then []
           else [EvPrompt key args (getToolDescription toolName args)])
       ++ (if persist then [EvSave SETTINGS_FILE] else [])
       ++ (if allowedBefore || granted response then [EvExecute toolName args] else [])
       ++ savedHistory w
  /\ (allowedBefore || granted response = false -> fs (dispatch env cur fc w).2 = fs w).
Proof.
  intros toolName args key response allowedBefore persist.
  destruct (dispatch_shape env cur fc w)
    as (w0 & msg & -> & _ & _ & Hses & Hset & Htrace & Hfs).
  destruct (record_message_frame msg cur w0) as (-> & _ & -> & ->).
  split; [exact Hset|]. split; [|exact Hfs].
  fold toolName args key response allowedBefore persist in Htrace.
  rewrite Htrace. unfold savedHistory. rewrite Hses. by rewrite <- !app_assoc.
Qed.

(** X21. One dispatch, in full: a prompt exactly when the class is not
    allowed yet; the settings changed, and saved, exactly when the answer to
    that prompt both grants and asks to remember; the tool executed exactly
    when the class was allowed or the answer grants; and the result recorded
    last. *)
Theorem dispatch_protocol env cur fc w :
  let toolName := default "unknown" (fc_name fc) in
  let args := default [] (fc_args fc) in
  let key := default toolName (TOOL_PERMISSIONS toolName) in
  let response := onPermissionPrompt env (countEvents isPrompt (trace w)) key args
                    (getToolDescription toolName args) in
  let allowedBefore := SettingsManager.isAllowed (settings w) key in
  let persist := negb allowedBefore && granted response && alwaysAllow response in
  settings (dispatch env cur fc w).2
  = (if persist
     then SettingsManager.setPermission (settings w) key {| mode := allow; allowed := None |}
     else settings w)
  /\ trace (dispatch env cur fc w).2
     = trace w
       ++ (if allowedBefore then []
           else [EvPrompt key args (getToolDescription toolName args)])
       ++ (if persist then [EvSave SETTINGS_FILE] else [])
       ++ (if allowedBefore || granted response then [EvExecute toolName args] else [])
       ++ savedHistory w.
Proof.
  intros toolName args key response allowedBefore persist.
  destruct (dispatch_events env cur fc w) as (H1 & H2 & _). by split.
Qed.

(** X22. With the answers of the shell's prompt: [yes] executes the
    action and leaves the settings alone, [always] puts the class in mode
    [allow], saves the settings and executes, [no] executes nothing and
    leaves disk and settings alone. *)
Theorem choice_decides env cur fc w choice :
  let toolName := default "unknown" (fc_name fc) in
  let args := default [] (fc_args fc) in
  let key := default toolName (TOOL_PERMISSIONS toolName) in
  let prompt := EvPrompt key args (getToolDescription toolName args) in
  SettingsManager.isAllowed (settings w) key = false ->
  onPermissionPrompt env (countEvents isPrompt (trace w)) key args
    (getToolDescription toolName args) = permissionResponse choice ->
  match choice with
  | yes =>
      settings (dispatch env cur fc w).2 = settings w
      /\ trace (dispatch env cur fc w).2
         = trace w ++ [prompt; EvExecute toolName args] ++ savedHistory w
  | always =>
      settings (dispatch env cur fc w).2
      = SettingsManager.setPermission (settings w) key {| mode := allow; allowed := None |}
      /\ trace (dispatch env cur fc w).2
         = trace w ++ [prompt; EvSave SETTINGS_FILE; EvExecute toolName args]
           ++ savedHistory w
  | no =>
      settings (dispatch env cur fc w).2 = settings w
      /\ fs (dispatch env cur fc w).2 = fs w
      /\ trace (dispatch env cur fc w).2 = trace w ++ [prompt] ++ savedHistory w
  end.
Proof.
  intros toolName args key prompt Hkey Hans.
  destruct (dispatch_events env cur fc w) as (H1 & H2 & H3).
  fold toolName args key in H1, H2, H3. rewrite Hkey, Hans in H1, H2, H3.
  destruct choice; simpl in *.
  - split; [exact H1 | exact H2].
  - split; [exact H1 | exact H2].
  - split; [exact H1|]. split; [by apply H3 | exact H2].
Qed.

Lemma dispatch_records env cur fc w :
  cur < length (heap w) ->
  exists msg w',
    dispatch env cur fc w = (Returned tt, w')
    /\ answers fc msg
    /\ deref w' cur = deref w cur ++ pushedOn cur w msg
    /\ currentSession w' = currentSession w
    /\ length (heap w') = length (heap w).
Proof.
  intros Hcur.
  destruct (dispatch_shape env cur fc w) as (w0 & msg & E & Hans & Hheap & Hses & _).
  destruct (record_message msg cur w0) as (w' & R & _ & _ & Hses' & _ & Hd & _);
    [by rewrite Hheap|].
  destruct (record_message_frame msg cur w0) as (_ & Hlen & _). rewrite R in Hlen.
  simpl in Hlen.
  exists msg, w'. rewrite E, R. split; [done|]. split; [done|].
  split; [|split; [congruence | by rewrite Hlen, Hheap]].
  rewrite Hd. unfold deref, pushedOn. by rewrite Hheap, Hses.
Qed.

(** X23. The dispatches of one hop add to the loop's conversation one
    result turn per requested action, in the order of the requests, each
    carrying the name of its action (each turn twice when the session holds
    that very array). *)
Theorem results_in_order env cur funcCalls w :
  cur < length (heap w) ->
  exists msgs w',
    dispatchAll env cur funcCalls w = (Returned tt, w')
    /\ Forall2 answers funcCalls msgs
    /\ deref w' cur = deref w cur ++ concat (map (pushedOn cur w) msgs).
Proof.
  revert w; induction funcCalls as [|fc fcs IH]; intros w Hcur.
  - exists [], w. simpl. by rewrite app_nil_r.
  - destruct (dispatch_records env cur fc w Hcur) as (msg & w1 & E & Hans & Hd & Hs & Hl).
    destruct (IH w1) as (msgs & w' & E' & Hall & Hd'); [by rewrite Hl|].
    exists (msg :: msgs), w'. simpl. unfold abind. rewrite E, E'.
    split; [done|]. split; [by constructor|].
    rewrite Hd', Hd, <- app_assoc. do 2 f_equal.
    unfold pushedOn. by rewrite Hs.
Qed.

(** ** The size of the context *)

Lemma partSize_nonneg p : (0 <= partSize p)%Z.
Proof.
  unfold partSize.
  destruct (text p) as [t|]; [destruct (Js.stringTruthy t)|];
    destruct (functionCall p); destruct (functionResponse p); lia.
Qed.

Lemma partsSize_acc ps acc :
  fold_left (fun totalChars p => (totalChars + partSize p)%Z) ps acc
  = (acc + fold_left (fun totalChars p => (totalChars + partSize p)%Z) ps 0)%Z.
Proof.
  revert acc; induction ps as [|p ps IH]; intros acc; cbn [fold_left]; [lia|].
  rewrite (IH (acc + partSize p)%Z), (IH (0 + partSize p)%Z). lia.
Qed.

Lemma partsSize_nonneg ps :
  (0 <= fold_left (fun totalChars p => (totalChars + partSize p)%Z) ps 0)%Z.
Proof.
  induction ps as [|p ps IH]; cbn [fold_left]; [lia|].
  rewrite partsSize_acc. pose proof (partSize_nonneg p). lia.
Qed.

Lemma contentSize_acc l acc :
  fold_left (fun totalChars msg =>
               fold_left (fun totalChars p => (totalChars + partSize p)%Z)
                         (default [] (parts msg)) totalChars) l acc
  = (acc + calculateContentSize l)%Z.
Proof.
  unfold calculateContentSize.
  revert acc; induction l as [|msg l IH]; intros acc; cbn [fold_left]; [lia|].
  rewrite IH, (IH (fold_left _ _ 0%Z)), (partsSize_acc _ acc). lia.
Qed.

(** X24. The size of a conversation is the sum of the sizes of its
    parts: it adds up over concatenation, is never negative, and never
    shrinks when turns are appended. *)
Theorem context_size_adds_up l1 l2 :
  calculateContentSize (l1 ++ l2)
  = (calculateContentSize l1 + calculateContentSize l2)%Z
  /\ (0 <= calculateContentSize l1)%Z
  /\ (calculateContentSize l1 <= calculateContentSize (l1 ++ l2))%Z.
Proof.
  assert (forall l, (0 <= calculateContentSize l)%Z) as Hpos.
  { induction l as [|msg l IH]; [done|].
    unfold calculateContentSize. cbn [fold_left]. rewrite contentSize_acc.
    pose proof (partsSize_nonneg (default [] (parts msg))). lia. }
  assert (calculateContentSize (l1 ++ l2)
          = (calculateContentSize l1 + calculateContentSize l2)%Z) as Hadd.
  { unfold calculateContentSize at 1. rewrite fold_left_app, contentSize_acc. done. }
  split; [done|]. split; [apply Hpos|]. rewrite Hadd. pose proof (Hpos l2). lia.
Qed.

(** ** Compaction, once more *)

Lemma toolTurns_plainTurns l : toolTurns (plainTurns l) = [].
Proof.
  apply toolTurns_all_plain. unfold plainTurns.
  induction l as [|m l IH]; [done|]. simpl.
  destruct (isPlain m) eqn:E; simpl; by rewrite ?E.
Qed.

(** X25. A conversation that [summarizeToolCalls] has compacted holds no
    tool turn, so compacting it again returns it as it is, without a call of
    the model. *)
Theorem compaction_is_stable env contents w resp w1 :
  4 <= length (toolTurns (deref w contents)) ->
  generateContentWithRetry env
    (summarizeParams (model (settings w)) (toolTurns (deref w contents))) 3 w
  = (Returned resp, w1) ->
  exists compacted w',
    summarizeToolCalls env contents w = (Returned compacted, w')
    /\ toolTurns (deref w' compacted) = []
    /\ summarizeToolCalls env compacted w' = (Returned compacted, w').
Proof.
  intros Hge Hcall.
  destruct (last_tool_split (deref w contents)) as (pre & t & post & Harr & Ht & Hpost).
  { intros E. rewrite E in Hge. simpl in Hge. lia. }
  destruct (summarizeToolCalls_fires env contents w resp w1 pre t post
              Hge Hcall Harr Ht Hpost) as (Hrun & _ & _).
  eexists _, _. split; [exact Hrun|].
  assert (toolTurns (deref (setHeap (heap w1 ++ [plainTurns pre ++ summaryContentOf resp :: post]) w1)
                       (length (heap w1))) = []) as Hnone.
  { rewrite deref_new, toolTurns_app, toolTurns_plainTurns. simpl.
    by apply toolTurns_all_plain. }
  split; [done|].
  apply summarizeToolCalls_skips. rewrite Hnone. simpl. lia.
Qed.

(** ** Which errors count as rate limiting *)

Lemma includes_iff pat s :
  Str.includes pat s = true <-> exists before after, s = before +:+ pat +:+ after.
Proof.
  unfold Str.includes. split.
  - destruct (Str.cut pat s) as [[before after]|] eqn:E; [|done].
    intros _. exists before, after. by apply cut_Some.
  - intros (before & after & ->).
    induction before as [|c before IH].
    + change ("" +:+ pat +:+ after) with (pat +:+ after).
      destruct (pat +:+ after) eqn:E; simpl.
      * destruct pat; [done|]. by rewrite sapp_cons in E.
      * rewrite <- E. by rewrite startsWith_app.
    + rewrite sapp_cons. simpl.
      destruct (Str.startsWith pat _); [done|].
      by destruct (Str.cut pat (before +:+ pat +:+ after)) as [[b a]|].
Qed.

(** X26. An error counts as rate limiting exactly when its status or its
    error code is 429, or its message contains [429] or [RESOURCE_EXHAUSTED]
    anywhere. *)
Theorem rate_limit_recognition e :
  isRateLimit e = true
  <-> exn_status e = Some 429%Z
      \/ exn_error_code e = Some 429%Z
      \/ (exists before after, exn_message e = before +:+ "429" +:+ after)
      \/ (exists before after, exn_message e = before +:+ "RESOURCE_EXHAUSTED" +:+ after).
Proof.
  unfold isRateLimit.
  rewrite !orb_true_iff, !bool_decide_eq_true, !includes_iff. tauto.
Qed.

(** ** What a request may change *)

Lemma effects_refl w : effectsLogged w w.
Proof. split; [done|]. exists []. by rewrite app_nil_r. Qed.

Lemma effects_trans w1 w2 w3 :
  effectsLogged w1 w2 -> effectsLogged w2 w3 -> effectsLogged w1 w3.
Proof.
  intros (P1 & evs1 & T1 & F1 & S1) (P2 & evs2 & T2 & F2 & S2).
  split; [congruence|]. exists (evs1 ++ evs2).
  split; [by rewrite T2, T1, app_assoc|].
  rewrite !countEvents_app. split; intros H.
  - rewrite F2, F1; [done|lia|lia].
  - rewrite S2, S1; [done|lia|lia].
Qed.

(** a step that changes neither plan mode, nor the disk, nor the settings *)
Lemma effects_none w w' evs :
  planMode w' = planMode w -> fs w' = fs w -> settings w' = settings w ->
  trace w' = trace w ++ evs -> effectsLogged w w'.
Proof. intros HP HF HS HT. split; [done|]. exists evs. done. Qed.

Lemma logged_aret {A} (a : A) : keeps effectsLogged (aret a).
Proof. intros w. apply effects_refl. Qed.

Lemma logged_abind {A B} (m : Agent A) (f : A -> Agent B) :
  keeps effectsLogged m -> (forall a, keeps effectsLogged (f a)) ->
  keeps effectsLogged (abind m f).
Proof.
  intros Hm Hf w. unfold abind. specialize (Hm w).
  destruct (m w) as [[a|e|] w1]; simpl in *; [|done|done].
  eapply effects_trans; [exact Hm | apply Hf].
Qed.

Lemma logged_withTimeout {A} (m : Agent A) ms msg :
  keeps effectsLogged m -> keeps effectsLogged (withTimeout m ms msg).
Proof.
  intros Hm w. unfold withTimeout. specialize (Hm w).
  by destruct (m w) as [[a|e|] w1].
Qed.

Lemma logged_if {A} (b : bool) (m1 m2 : Agent A) :
  keeps effectsLogged m1 -> keeps effectsLogged m2 ->
  keeps effectsLogged (if b then m1 else m2).
Proof. by destruct b. Qed.

Lemma logged_emit e : keeps effectsLogged (emit e).
Proof. intros w. by apply (effects_none _ _ [e]). Qed.

Lemma logged_quiet {A} (m : Agent A) :
  (forall w, planMode (m w).2 = planMode w /\ fs (m w).2 = fs w
             /\ settings (m w).2 = settings w /\ trace (m w).2 = trace w) ->
  keeps effectsLogged m.
Proof.
  intros H w. destruct (H w) as (HP & HF & HS & HT).
  apply (effects_none _ _ []); [done|done|done|by rewrite app_nil_r].
Qed.

Lemma logged_addMessage msg : keeps effectsLogged (HistoryManager.addMessage msg).
Proof.
  intros w. unfold HistoryManager.addMessage.
  destruct (currentSession w); [|apply effects_refl].
  apply logged_abind; [by apply logged_quiet | intros _; apply logged_emit].
Qed.

Lemma logged_record msg cur :
  keeps effectsLogged (HistoryManager.addMessage msg;; push cur msg)%agent.
Proof. apply logged_abind; [apply logged_addMessage | intros _; by apply logged_quiet]. Qed.

Lemma logged_setCurrentSessionMessages r :
  keeps effectsLogged (HistoryManager.setCurrentSessionMessages r).
Proof.
  intros w. unfold HistoryManager.setCurrentSessionMessages.
  destruct (currentSession w); [|apply effects_refl].
  by apply (effects_none _ _ [EvSave HISTORY_FILE]).
Qed.

Lemma logged_getMessages : keeps effectsLogged HistoryManager.getMessages.
Proof.
  intros w. unfold HistoryManager.getMessages.
  destruct (currentSession w); [apply effects_refl | by apply logged_quiet].
Qed.

Section WithEnv.
Variable env : Env.

Lemma logged_generateContentAttempts n params :
  keeps effectsLogged (generateContentAttempts env n params).
Proof.
  intros w. destruct (generateContentAttempts_trace env params n w) as (evs & -> & _).
  by apply (effects_none _ _ (evs ++ [EvGenerate params])).
Qed.

Lemma logged_summarizeToolCalls contents :
  keeps effectsLogged (summarizeToolCalls env contents).
Proof.
  unfold summarizeToolCalls.
  apply logged_abind; [by apply logged_quiet|]. intros arr.
  destruct (classifyFrom 0 arr) as [[ts os] idx].
  apply logged_if; [apply logged_aret|].
  apply logged_abind; [by apply logged_quiet|]. intros m.
  apply logged_abind; [apply logged_withTimeout, logged_generateContentAttempts|].
  intros resp. apply logged_abind; [by apply logged_quiet|]. intros arr'.
  by apply logged_quiet.
Qed.

Lemma logged_runTool name args : keeps effectsLogged (runTool env name args).
Proof.
  intros w. unfold runTool.
  destruct (executeTool _ _ _ _ _) as [result fs'].
  split; [done|]. exists [EvExecute name args]. split; [done|]. split; [|done].
  unfold countEvents. simpl. lia.
Qed.

Lemma logged_setPermission tool permission :
  keeps effectsLogged (SettingsStore.setPermission tool permission).
Proof.
  intros w. split; [done|]. exists [EvSave SETTINGS_FILE]. split; [done|].
  split; [done|]. unfold countEvents. simpl. lia.
Qed.

Lemma logged_dispatch cur fc : keeps effectsLogged (dispatch env cur fc).
Proof.
  unfold dispatch.
  apply logged_abind; [by apply logged_quiet|]. intros hasPermission.
  apply logged_abind.
  - apply logged_if; [|apply logged_aret].
    apply logged_abind.
    + intros w. unfold promptPermission. simpl.
      eapply effects_none; [done|done|done|reflexivity].
    + intros resp. apply logged_abind; [|intros _; apply logged_aret].
      apply logged_if; [apply logged_setPermission | apply logged_aret].
  - intros g. apply logged_if; [apply logged_record|].
    apply logged_abind; [apply logged_runTool|]. intros result. apply logged_record.
Qed.

Lemma logged_dispatchAll cur fcs : keeps effectsLogged (dispatchAll env cur fcs).
Proof.
  induction fcs as [|fc fcs IH]; simpl; [apply logged_aret|].
  apply logged_abind; [apply logged_dispatch | intros _; apply IH].
Qed.

Lemma logged_agenticLoopFrom remaining hops cur :
  keeps effectsLogged (agenticLoopFrom env remaining hops cur).
Proof.
  revert hops cur; induction remaining as [|n IH]; intros hops cur;
    cbn [agenticLoopFrom]; [apply logged_aret|].
  apply logged_abind.
  { unfold logContextSize. apply logged_abind; [by apply logged_quiet|].
    intros arr. apply logged_emit. }
  intros _. apply logged_abind; [by apply logged_quiet|]. intros arr.
  apply logged_abind.
  { apply logged_if; [|apply logged_aret].
    apply logged_abind; [apply logged_summarizeToolCalls|]. intros r.
    apply logged_abind; [apply logged_setCurrentSessionMessages|].
    intros _. apply logged_aret. }
  intros cur'. apply logged_abind; [by apply logged_quiet|]. intros plan.
  apply logged_abind; [by apply logged_quiet|]. intros m.
  apply logged_abind; [by apply logged_quiet|]. intros arr'.
  apply logged_abind; [apply logged_withTimeout, logged_generateContentAttempts|].
  intros response.
  destruct (resp_functionCalls response) as [[|fc fcs]|]; try apply logged_aret.
  apply logged_abind.
  { destruct (modelContentOf response); [apply logged_record | apply logged_aret]. }
  intros _. apply logged_abind; [apply logged_dispatchAll | intros _; apply IH].
Qed.

Lemma logged_processMessage userMessage :
  keeps effectsLogged (processMessage env userMessage).
Proof.
  unfold processMessage.
  apply logged_abind; [apply logged_addMessage|]. intros _.
  apply logged_abind; [apply logged_getMessages|]. intros contents.
  apply logged_abind.
  { unfold agenticLoop. apply logged_abind; [by apply logged_quiet|]. intros arr.
    apply logged_abind; [by apply logged_quiet|]. intros cur.
    apply logged_agenticLoopFrom. }
  intros result. apply logged_abind; [apply logged_addMessage|]. intros _.
  apply logged_aret.
Qed.
End WithEnv.

(** X27. Over a whole request plan mode stays as [setPlanMode] set it,
    the disk changes only if a tool was executed, and the settings change
    only if they were saved. *)
Theorem request_effects env userMessage enabled w :
  let w' := (processMessage env userMessage (setPlanMode enabled w).2).2 in
  (isPlanMode w').1 = Returned enabled
  /\ exists evs,
       trace w' = trace w ++ evs
       /\ (countEvents isExecute evs = 0 -> fs w' = fs w)
       /\ (countEvents isSettingsSave evs = 0 -> settings w' = settings w).
Proof.
  intros w'.
  destruct (logged_processMessage env userMessage (setPlanMode enabled w).2)
    as (HP & evs & HT & HF & HS).
  fold w' in HP, HT, HF, HS. split; [unfold isPlanMode; simpl; by rewrite HP|].
  by exists evs.
Qed.

(** ** The example project *)

Lemma wrapLong_small z :
  (- 2 ^ 63 <= z <= Java.Long_MAX_VALUE)%Z -> Java.wrapLong z = z.
Proof.
  unfold Java.wrapLong, Java.Long_MAX_VALUE. intros H.
  rewrite Z.mod_small by lia. lia.
Qed.

Lemma wrapLong_range z : (- 2 ^ 63 <= Java.wrapLong z <= Java.Long_MAX_VALUE)%Z.
Proof.
  unfold Java.wrapLong, Java.Long_MAX_VALUE.
  pose proof (Z.mod_pos_bound (z + 2 ^ 63) (2 ^ 64) ltac:(lia)). lia.
Qed.

Lemma wrapLong_add a b :
  Java.wrapLong (Java.wrapLong a + Java.wrapLong b) = Java.wrapLong (a + b).
Proof.
  unfold Java.wrapLong. f_equal.
  replace ((a + 2 ^ 63) mod 2 ^ 64 - 2 ^ 63 + ((b + 2 ^ 63) mod 2 ^ 64 - 2 ^ 63) + 2 ^ 63)%Z
    with ((a + 2 ^ 63) mod 2 ^ 64 + ((b + 2 ^ 63) mod 2 ^ 64 - 2 ^ 63))%Z by lia.
  rewrite Zplus_mod_idemp_l.
  replace (a + 2 ^ 63 + ((b + 2 ^ 63) mod 2 ^ 64 - 2 ^ 63))%Z
    with ((b + 2 ^ 63) mod 2 ^ 64 + a)%Z by lia.
  rewrite Zplus_mod_idemp_l. f_equal. lia.
Qed.

Lemma Ziter_nat {A} (k : nat) (f : A -> A) (x : A) :
  Z.iter (Z.of_nat k) f x = Nat.iter k f x.
Proof.
  rewrite iter_nat_of_Z by lia. by rewrite Zabs2Nat.id.
Qed.

Lemma factorialOf_pos n : (1 <= factorialOf n)%Z.
Proof. induction n as [|n IH]; [done|]. cbn [factorialOf]. nia. Qed.

Lemma factorialOf_mono a b : a <= b -> (factorialOf a <= factorialOf b)%Z.
Proof.
  induction 1 as [|b Hab IH]; [lia|].
  cbn [factorialOf]. pose proof (factorialOf_pos b). nia.
Qed.

Lemma factorial_loop k :
  k <= 19 ->
  Nat.iter k Java.factorialStep (2%Z, 1%Z) = (Z.of_nat (k + 2), factorialOf (k + 1)).
Proof.
  induction k as [|k IH]; [done|]. intros Hk.
  rewrite Nat.iter_succ, IH by lia. unfold Java.factorialStep.
  f_equal; [lia|].
  replace (factorialOf (k + 1) * Z.of_nat (k + 2))%Z with (factorialOf (S k + 1)).
  - apply wrapLong_small. pose proof (factorialOf_pos (S k + 1)).
    pose proof (factorialOf_mono (S k + 1) 20 ltac:(lia)) as Hle.
    assert (factorialOf 20 = 2432902008176640000%Z) as E20 by (by vm_compute).
    unfold Java.Long_MAX_VALUE. lia.
  - replace (S k + 1) with (S (k + 1)) by lia. cbn [factorialOf]. lia.
Qed.

(** X28. [factorial(n)] returns [n!] exactly for [0 <= n <= 20] and throws
    for every other [n]; the bound is the right one, since [20!] fits a [long]
    and [21!] does not. *)
Theorem factorial_is_exact n :
  ((0 <= n <= 20)%Z -> Java.factorial n = inr (factorialOf (Z.to_nat n)))
  /\ ((n < 0)%Z -> Java.factorial n = inl "n must be non-negative")
  /\ ((20 < n)%Z ->
      Java.factorial n = inl "n must be 20 or less to avoid long overflow")
  /\ (factorialOf 20 <= Java.Long_MAX_VALUE < factorialOf 21)%Z.
Proof.
  unfold Java.factorial. split; [|split; [|split]].
  - intros Hn.
    destruct (Z.ltb_spec n 0); [lia|]. destruct (Z.ltb_spec 20 n); [lia|].
    f_equal. destruct (decide (n = 0%Z)) as [->|Hne]; [done|].
    replace (n - 1)%Z with (Z.of_nat (Z.to_nat n - 1)) by lia.
    rewrite Ziter_nat, factorial_loop by lia. simpl. f_equal. lia.
  - intros Hn. by destruct (Z.ltb_spec n 0); [|lia].
  - intros Hn. destruct (Z.ltb_spec n 0); [lia|]. by destruct (Z.ltb_spec 20 n); [|lia].
  - by vm_compute.
Qed.

Lemma fibonacciPair_spec n :
  fibonacciPair n = (fibonacciNumber n, fibonacciNumber (S n)).
Proof.
  induction n as [|n IH]; [done|].
  cbn [fibonacciPair]. rewrite IH. f_equal.
  change (fibonacciNumber (S (S n))) with (fibonacciNumber (S n) + fibonacciNumber n)%Z.
  lia.
Qed.

Lemma fibonacciNumber_step n :
  fibonacciNumber (S (S n)) = (fibonacciNumber (S n) + fibonacciNumber n)%Z.
Proof. reflexivity. Qed.

Lemma fibonacciNumber_nonneg n : (0 <= fibonacciNumber n)%Z.
Proof.
  induction (lt_wf n) as [n _ IH].
  destruct n as [|[|n]]; [done|done|].
  rewrite fibonacciNumber_step.
  pose proof (IH (S n) ltac:(lia)). pose proof (IH n ltac:(lia)). lia.
Qed.

Lemma fibonacciNumber_mono a b : a <= b -> (fibonacciNumber a <= fibonacciNumber b)%Z.
Proof.
  induction 1 as [|b Hab IH]; [lia|].
  destruct b as [|b]; [by assert (a = 0) as -> by lia|].
  rewrite fibonacciNumber_step. pose proof (fibonacciNumber_nonneg b). lia.
Qed.

(** the loop of [fibonacci] computes modulo [2 ^ 64] *)
Lemma fibonacci_loop k :
  Nat.iter k Java.fibonacciStep (1%Z, 1%Z)
  = (Java.wrapLong (fibonacciNumber (k + 2)), Java.wrapLong (fibonacciNumber (k + 1))).
Proof.
  induction k as [|k IH]; [done|].
  rewrite Nat.iter_succ, IH. unfold Java.fibonacciStep.
  replace (S k + 2) with (S (S (k + 1))) by lia.
  replace (S k + 1) with (k + 2) by lia.
  rewrite fibonacciNumber_step, wrapLong_add.
  by replace (S (k + 1)) with (k + 2) by lia.
Qed.

Lemma fibonacci_92 :
  fibonacciNumber 92 = 7540113804746346429%Z
  /\ fibonacciNumber 93 = 12200160415121876738%Z.
Proof.
  assert (fibonacciPair 92 = (7540113804746346429%Z, 12200160415121876738%Z)) as E
    by (vm_compute; reflexivity).
  rewrite fibonacciPair_spec in E.
  exact (proj1 (pair_equal_spec _ _ _ _) E).
Qed.

Lemma fibonacciUnguarded_wraps n :
  (0 <= n)%Z ->
  Java.fibonacciUnguarded n = inr (Java.wrapLong (fibonacciNumber (Z.to_nat n))).
Proof.
  intros Hn. unfold Java.fibonacciUnguarded.
  destruct (Z.ltb_spec n 0); [lia|].
  destruct (Z.leb_spec n 1).
  - assert (n = 0 \/ n = 1)%Z as [-> | ->] by lia; done.
  - replace (n - 2)%Z with (Z.of_nat (Z.to_nat n - 2)) by lia.
    rewrite Ziter_nat, fibonacci_loop. simpl. do 3 f_equal. lia.
Qed.

(** X29. [fibonacci(n)] returns the [n]-th Fibonacci number exactly for
    [0 <= n <= 92] and throws for every other [n]; the bound is the right one,
    since the 92nd number fits a [long] and the 93rd does not. *)
Theorem fibonacci_is_exact n :
  ((0 <= n <= 92)%Z -> Java.fibonacci n = inr (fibonacciNumber (Z.to_nat n)))
  /\ ((n < 0)%Z -> Java.fibonacci n = inl "n must be non-negative")
  /\ ((92 < n)%Z ->
      Java.fibonacci n = inl "n must be 92 or less to avoid long overflow")
  /\ (fibonacciNumber 92 <= Java.Long_MAX_VALUE < fibonacciNumber 93)%Z.
Proof.
  split; [|split; [|split]].
  - intros Hn. pose proof (fibonacciUnguarded_wraps n ltac:(lia)) as H.
    unfold Java.fibonacci, Java.fibonacciUnguarded in *.
    destruct (Z.ltb_spec n 0); [lia|]. destruct (Z.ltb_spec 92 n); [lia|].
    rewrite H. f_equal. apply wrapLong_small.
    pose proof (fibonacciNumber_nonneg (Z.to_nat n)).
    pose proof (fibonacciNumber_mono (Z.to_nat n) 92 ltac:(lia)).
    pose proof (proj1 fibonacci_92).
    unfold Java.Long_MAX_VALUE. lia.
  - intros Hn. unfold Java.fibonacci. destruct (Z.ltb_spec n 0); [reflexivity|lia].
  - intros Hn. unfold Java.fibonacci.
    destruct (Z.ltb_spec n 0); [lia|]. destruct (Z.ltb_spec 92 n); [reflexivity|lia].
  - rewrite (proj1 fibonacci_92), (proj2 fibonacci_92).
    unfold Java.Long_MAX_VALUE. lia.
Qed.

(** X30. Without the upper bound, [fibonacci(n)] returns the [n]-th
    Fibonacci number reduced modulo [2 ^ 64] into the range of [long]: the
    right number up to [n = 92], and a wrong one from [n = 93] on. *)
Theorem fibonacciUnguarded_overflows n :
  (0 <= n)%Z ->
  Java.fibonacciUnguarded n = inr (Java.wrapLong (fibonacciNumber (Z.to_nat n)))
  /\ ((n <= 92)%Z -> Java.fibonacciUnguarded n = inr (fibonacciNumber (Z.to_nat n)))
  /\ ((93 <= n)%Z -> Java.fibonacciUnguarded n <> inr (fibonacciNumber (Z.to_nat n))).
Proof.
  intros Hn.
  pose proof (fibonacciUnguarded_wraps n Hn) as H. split; [exact H|]. split.
  - intros Hle. rewrite H. f_equal. apply wrapLong_small.
    pose proof (fibonacciNumber_nonneg (Z.to_nat n)).
    pose proof (fibonacciNumber_mono (Z.to_nat n) 92 ltac:(lia)).
    pose proof (proj1 fibonacci_92).
    unfold Java.Long_MAX_VALUE. lia.
  - intros Hge. rewrite H. intros E. injection E as E.
    pose proof (wrapLong_range (fibonacciNumber (Z.to_nat n))) as R. rewrite E in R.
    pose proof (fibonacciNumber_mono 93 (Z.to_nat n) ltac:(lia)).
    pose proof (proj2 fibonacci_92).
    unfold Java.Long_MAX_VALUE in R. lia.
Qed.

(** ** Further instances *)

Lemma write_then_read_witness :
  executeTool Sample.quietShell Sample.root "read_file" Cases.writeArgs
    (executeTool Sample.quietShell Sample.root "write_file" Cases.writeArgs Sample.disk).2
  = (Output "hi",
     (executeTool Sample.quietShell Sample.root "write_file" Cases.writeArgs Sample.disk).2).
Proof.
  apply (write_then_read Sample.quietShell Sample.root Cases.writeArgs Sample.disk
           "File written: new/b.txt").
  reflexivity.
Defined.

Lemma write_twice_witness :
  executeTool Sample.quietShell Sample.root "write_file" Cases.writeArgs
    (executeTool Sample.quietShell Sample.root "write_file" Cases.writeArgs Sample.disk).2
  = (Output "File written: new/b.txt",
     (executeTool Sample.quietShell Sample.root "write_file" Cases.writeArgs Sample.disk).2).
Proof.
  apply (write_twice Sample.quietShell Sample.root Cases.writeArgs Sample.disk).
  reflexivity.
Defined.

Lemma reading_changes_nothing_witness :
  (executeTool Sample.quietShell Sample.root "list_dir" [("path", JString ".")]
     Sample.disk).2 = Sample.disk.
Proof.
  apply (reading_changes_nothing Sample.quietShell Sample.root "list_dir").
  simpl. tauto.
Defined.


Lemma missing_path_is_reported_witness :
  executeTool Sample.quietShell Sample.root "read_file" [("path", JString "nope.txt")]
    Sample.disk
  = (Err "File not found: nope.txt", Sample.disk).
Proof.
  apply (proj1 (missing_path_is_reported Sample.quietShell Sample.root
                  [("path", JString "nope.txt")] Sample.disk ["proj"; "nope.txt"]
                  eq_refl eq_refl)).
  simpl. tauto.
Defined.

Lemma edit_without_match_witness :
  executeTool Sample.quietShell Sample.root "edit_file"
    [("path", JString "a.txt"); ("old_string", JString "qux"); ("new_string", JString "y")]
    Sample.disk
  = (Err ("String not found in file: "
          +:+ String Str.dquote ("qux..." +:+ String Str.dquote "")), Sample.disk).
Proof.
  apply (edit_without_match Sample.quietShell Sample.root
           [("path", JString "a.txt"); ("old_string", JString "qux");
            ("new_string", JString "y")]
           Sample.disk ["proj"; "a.txt"] "foobaz"); reflexivity.
Defined.

Lemma negative_line_count_witness :
  executeTool Sample.quietShell Sample.root "head_file"
    [("path", JString "notes.txt"); ("lines", JNumber (Int (-1)))] Sample.disk
  = (Output ("one" +:+ Str.nl +:+ "two"), Sample.disk)
  /\ executeTool Sample.quietShell Sample.root "tail_file"
       [("path", JString "notes.txt"); ("lines", JNumber (Int (-1)))] Sample.disk
     = (Output ("two" +:+ Str.nl +:+ "three"), Sample.disk).
Proof.
  apply (negative_line_count Sample.quietShell Sample.root
           [("path", JString "notes.txt"); ("lines", JNumber (Int (-1)))] Sample.disk
           ["proj"; "notes.txt"] Sample.threeLines 1);
    [reflexivity | reflexivity | reflexivity | lia].
Defined.

Lemma edit_with_empty_old_string_witness :
  exists disk',
    executeTool Sample.quietShell Sample.root "edit_file"
      [("path", JString "a.txt"); ("old_string", JString ""); ("new_string", JString "X")]
      Sample.disk
    = (Output "File edited: a.txt", disk')
    /\ Fs.lookup ["proj"; "a.txt"] disk' = Some (File "Xfoobaz").
Proof.
  apply (edit_with_empty_old_string Sample.quietShell Sample.root
           [("path", JString "a.txt"); ("old_string", JString "");
            ("new_string", JString "X")]
           Sample.disk ["proj"; "a.txt"] "foobaz"); reflexivity.
Defined.

Lemma dotdot_name_is_rejected_witness :
  insideRoot Sample.root (Path.resolve Sample.root "..cache") = true
  /\ executeTool Sample.quietShell Sample.root "read_file" [("path", JString "..cache")]
       Sample.disk
     = (Err "Error: Path traversal not allowed", Sample.disk).
Proof.
  apply (proj2 (dotdot_name_is_rejected Sample.quietShell Sample.root "read_file"
                  [("path", JString "..cache")] Sample.disk "..cache"
                  ltac:(simpl; tauto) eq_refl eq_refl ltac:(discriminate) eq_refl)).
Defined.


Lemma list_dir_lines_witness :
  executeTool Sample.quietShell Sample.root "list_dir" [("path", JString ".")] Sample.disk
  = (Output (Str.join Str.nl ["a.txt"; "price.txt"; "blank.txt"; "notes.txt"; "empty/"]),
     Sample.disk).
Proof.
  destruct (list_dir_lines Sample.quietShell Sample.root [("path", JString ".")]
              Sample.disk ["proj"] _ eq_refl eq_refl) as (items & E & Hflat & _).
  rewrite E, (Hflat eq_refl). reflexivity.
Defined.

Lemma plain_answer_witness :
  exists w',
    processMessage Sample.summaryEnv "hi" Sample.freshWorld
    = (Returned "- read a.txt twice", w')
    /\ deref w' 0 = [userTurn "hi"; modelTurn "- read a.txt twice"].
Proof.
  destruct (plain_answer Sample.summaryEnv "hi" Sample.freshWorld 0 Sample.summaryResponse
              eq_refl ltac:(simpl; lia) ltac:(vm_compute; discriminate) eq_refl
              (or_introl eq_refl)) as (w' & E & D & _).
  exists w'. split; [exact E | exact D].
Defined.


Lemma choice_decides_witness :
  SettingsManager.isAllowed
    (settings (dispatch Cases.trustingEnv 1 Sample.readCall Sample.midLoop).2) "read_file"
  = true.
Proof.
  rewrite (proj1 (choice_decides Cases.trustingEnv 1 Sample.readCall Sample.midLoop always
                    eq_refl eq_refl)).
  reflexivity.
Defined.

Lemma results_in_order_witness :
  exists msgs w',
    dispatchAll Sample.busyEnv 1 [Sample.readCall; Sample.readCall] Sample.midLoop
    = (Returned tt, w')
    /\ Forall2 answers [Sample.readCall; Sample.readCall] msgs
    /\ deref w' 1
       = deref Sample.midLoop 1 ++ concat (map (pushedOn 1 Sample.midLoop) msgs).
Proof.
  apply (results_in_order Sample.busyEnv 1 [Sample.readCall; Sample.readCall]
           Sample.midLoop).
  simpl. lia.
Defined.

Lemma compaction_is_stable_witness :
  exists compacted w',
    summarizeToolCalls Sample.summaryEnv 0 Sample.talkWorld = (Returned compacted, w')
    /\ toolTurns (deref w' compacted) = []
    /\ summarizeToolCalls Sample.summaryEnv compacted w' = (Returned compacted, w').
Proof.
  apply (compaction_is_stable Sample.summaryEnv 0 Sample.talkWorld Sample.summaryResponse
           _ ltac:(vm_compute; lia) eq_refl).
Defined.

Lemma fibonacciUnguarded_overflows_witness :
  Java.fibonacciUnguarded 93 <> inr (fibonacciNumber (Z.to_nat 93)).
Proof.
  apply (proj2 (proj2 (fibonacciUnguarded_overflows 93 ltac:(lia)))). lia.
Defined.
